(** * scripts/setup_project.py: table-of-contents generator and setup sequence

    A shallow embedding of the two pieces of logic in
    [scripts/setup_project.py]: the helper [generate_toc_content], which
    builds the Markdown index over the [rules/] directory, and [main],
    the linear setup sequence with its prerequisite checks, file writes
    and external commands.

    Python [str] values are modelled as [string] (a sequence of bytes, the
    UTF-8 encoding of the text).  All patterns the script searches for are
    ASCII, so replacing them bytewise agrees with replacing them on code
    points, and bytewise lexicographic order agrees with code-point order.

    The filesystem is the one [pathlib] sees on a POSIX system: names are
    compared case-sensitively, [glob('*.md')] also returns hidden entries
    and directories, and [rules/] can be read.  The external tools are
    taken at their word: when [python -m venv .venv] or [git branch develop]
    ends with status 0, the directory or the branch exists afterwards. *)

From stdpp Require Import base list sorting strings gmap.
From Stdlib Require Import Ascii.

(** ** Python string primitives used by the script *)

Module PyStr.

(** The one-character string holding a line feed. *)
Definition LF : string := String "010"%char EmptyString.

(** [str.replace(old, new)] for a non-empty [old]: scan from the left, and
    at every position where [old] starts emit [new] and skip the matched
    characters (occurrences never overlap).  [skip] counts the characters
    of the current match that are still to be dropped. *)
Fixpoint replace_go (old new : string) (skip : nat) (s : string) : string :=
  match s with
  | EmptyString => EmptyString
  | String c s' =>
      match skip with
      | S k => replace_go old new k s'
      | O =>
          if String.prefix old s
          then new +:+ replace_go old new (String.length old - 1) s'
          else String c (replace_go old new 0 s')
      end
  end.

(** For the empty pattern Python inserts [new] before every character and
    at the end. *)
Fixpoint intersperse_all (new s : string) : string :=
  match s with
  | EmptyString => new
  | String c s' => new +:+ String c (intersperse_all new s')
  end.

Definition replace (old new s : string) : string :=
  match old with
  | EmptyString => intersperse_all new s
  | _ => replace_go old new 0 s
  end.

(** Characters for which [str.isspace] holds, within ASCII: TAB, LF, VT,
    FF, CR, the separators 0x1c-0x1f and the space. *)
Definition isspace (c : ascii) : bool :=
  let n := nat_of_ascii c in
  ((9 <=? n) && (n <=? 13)) || ((28 <=? n) && (n <=? 32)).

Fixpoint lstrip (s : string) : string :=
  match s with
  | EmptyString => EmptyString
  | String c s' => if isspace c then lstrip s' else s
  end.

Fixpoint rstrip (s : string) : string :=
  match s with
  | EmptyString => EmptyString
  | String c s' =>
      match rstrip s' with
      | EmptyString => if isspace c then EmptyString else String c EmptyString
      | r => String c r
      end
  end.

(** [str.strip()] without arguments. *)
Definition strip (s : string) : string := rstrip (lstrip s).

(** [str.endswith(suffix)]. *)
Fixpoint endswith (suffix s : string) : bool :=
  if String.eqb s suffix then true
  else match s with
       | EmptyString => false
       | String _ s' => endswith suffix s'
       end.

(** [sep.join(parts)]. *)
Definition join (sep : string) (parts : list string) : string :=
  String.concat sep parts.

(** [sub in s]. *)
Fixpoint contains (sub s : string) : bool :=
  if String.prefix sub s then true
  else match s with
       | EmptyString => false
       | String _ s' => contains sub s'
       end.

End PyStr.

(** ** The chapter directory *)

(** What a directory entry resolves to (symbolic links are followed, as
    [Path.is_file] does). *)
Inductive entry_kind := RegularFile | Directory | Special.

Global Instance entry_kind_eq_dec : EqDecision entry_kind.
Proof. solve_decision. Defined.

(** A snapshot of [rules/]: its entries in the order the operating system
    enumerates them. *)
Definition Dir := list (string * entry_kind).

(** Entry names are unique within a directory. *)
Definition wf_dir (d : Dir) : Prop := NoDup d.*1.

(** [(rules_dir / filename).is_file()]. *)
Definition is_file (d : Dir) (filename : string) : bool :=
  bool_decide ((filename, RegularFile) ∈ d).

(** [[f.name for f in rules_dir.glob('*.md')]]: the pattern [*.md] selects
    every entry, of any kind, whose name ends in [.md]. *)
Definition glob_md (d : Dir) : list string :=
  filter (λ name, PyStr.endswith ".md" name = true) d.*1.

(** ** The generator *)

Definition CHAPTER_FILES : list string :=
  [ "00-Introduction.md";
    "1-Using-LLMs-Effectively-Safely-The-Core-Interaction-Loop.md";
    "2-Security-Non-Negotiable-Foundations.md";
    "3-Code-Quality-Maintainability.md";
    "4-Testing-Validation.md";
    "5-Performance-Efficiency.md";
    "6-Architecture-System-Design.md";
    "7-Frontend-UIUX-Accessibility.md";
    "8-DevOps-Infrastructure.md";
    "9-Specific-Technologies-Advanced-Topics.md" ].

(** The chain of replacements applied to a filename of the fixed list. *)
Definition chapter_title (filename : string) : string :=
  let r := PyStr.replace in
  PyStr.strip
    (r "9" "9." (r "8" "8." (r "7" "7." (r "6" "6." (r "5" "5."
    (r "4" "4." (r "3" "3." (r "2" "2." (r "1" "1."
    (r "0" EmptyString (r "00" EmptyString
    (r "-" " " (r ".md" EmptyString filename))))))))))))).

(** The shorter chain applied to the files listed under "Other Files". *)
Definition other_title (filename : string) : string :=
  PyStr.replace "-" " " (PyStr.replace ".md" EmptyString filename).

Definition relative_link (filename : string) : string :=
  "../rules/" +:+ filename.

(** [f"*   [{title}]({relative_link})"]. *)
Definition toc_entry (title link : string) : string :=
  "*   [" +:+ title +:+ "](" +:+ link +:+ ")".

Definition chapter_entry (filename : string) : string :=
  toc_entry (chapter_title filename) (relative_link filename).

Definition other_entry (filename : string) : string :=
  toc_entry (other_title filename) (relative_link filename).

Definition missing_warning (rules_dir filename : string) : string :=
  "Warning: Expected chapter file not found: " +:+ rules_dir +:+ "/" +:+ filename.

(** The lines put in [toc] before the loop. *)
Definition toc_header : list string :=
  [ "# LLM Coding Guide - Master Rules (v1.0.7+)";
    EmptyString;
    "This document serves as the entry point and Table of Contents for the Master List of Rules (MLR) for LLM-Assisted Coding.";
    "The rules are broken down into chapters, located in the `../rules/` directory.";
    EmptyString;
    "## Chapters";
    EmptyString ].

(** The local variables of [generate_toc_content], together with what it
    has printed on standard error. *)
Record toc_state := TocState {
  toc : list string;
  found_files : list string;
  stderr : list string
}.

(** One iteration of the loop over [CHAPTER_FILES]. *)
Definition chapter_step (rules_dir : string) (d : Dir)
    (st : toc_state) (filename : string) : toc_state :=
  if is_file d filename then
    {| toc := toc st ++ [chapter_entry filename];
       found_files := found_files st ++ [filename];
       stderr := stderr st |}
  else
    {| toc := toc st;
       found_files := found_files st;
       stderr := stderr st ++ [missing_warning rules_dir filename] |}.

Definition chapter_loop (rules_dir : string) (d : Dir) : toc_state :=
  foldl (chapter_step rules_dir d)
        {| toc := toc_header; found_files := []; stderr := [] |}
        CHAPTER_FILES.

(** [sorted([f.name for f in rules_dir.glob('*.md') if f.name not in found_files])].
    [sorted] compares strings lexicographically; it is modelled by a merge
    sort over the same order. *)
Definition other_files_of (d : Dir) (found : list string) : list string :=
  merge_sort String.le (filter (λ name, name ∉ found) (glob_md d)).

(** The lines appended after the loop when [other_files] is non-empty. *)
Definition other_section (others : list string) : list string :=
  match others with
  | [] => []
  | _ => [EmptyString; "### Other Files"] ++ (other_entry <$> others)
  end.

(** The lines of the document, in the order they are appended to [toc]. *)
Definition toc_lines (rules_dir : string) (d : Dir) : list string :=
  let st := chapter_loop rules_dir d in
  toc st ++ other_section (other_files_of d (found_files st)) ++ [EmptyString].

(** [generate_toc_content(rules_dir)]: the returned document, paired with
    the warnings written to standard error. *)
Definition generate_toc_content (rules_dir : string) (d : Dir)
    : string * list string :=
  (PyStr.join PyStr.LF (toc_lines rules_dir d),
   stderr (chapter_loop rules_dir d)).

Definition toc_document (rules_dir : string) (d : Dir) : string :=
  (generate_toc_content rules_dir d).1.

(** ** Reading a document back *)

(** The definitions below belong to the statements, not to the script: they
    read a Markdown document the way a person does, line by line. *)

(** [doc.split("\n")]. *)
Fixpoint lines_of (doc : string) : list string :=
  match doc with
  | EmptyString => [EmptyString]
  | String c rest =>
      if Ascii.eqb c "010" then EmptyString :: lines_of rest
      else match lines_of rest with
           | [] => [String c EmptyString]
           | l :: ls => String c l :: ls
           end
  end.

(** The lines that follow the line [heading], that line excluded. *)
Fixpoint after_heading (heading : string) (lines : list string) : list string :=
  match lines with
  | [] => []
  | l :: ls => if String.eqb l heading then ls else after_heading heading ls
  end.

(** The leading run of non-blank lines. *)
Fixpoint until_blank (lines : list string) : list string :=
  match lines with
  | [] => []
  | l :: ls => if String.eqb l EmptyString then [] else l :: until_blank ls
  end.

(** The list entries of the "Chapters" section: the heading is followed by
    one blank line, and the section ends at the next blank line. *)
Definition chapters_section (doc : string) : list string :=
  until_blank (tail (after_heading "## Chapters" (lines_of doc))).

(** The entries under the "Other Files" heading, which is followed directly
    by its entries. *)
Definition other_files_section (doc : string) : list string :=
  until_blank (after_heading "### Other Files" (lines_of doc)).

(** The part of [s] after the first occurrence of [marker], if any. *)
Fixpoint after_marker (marker s : string) : option string :=
  if String.prefix marker s
  then Some (String.substring (String.length marker)
                              (String.length s - String.length marker) s)
  else match s with
       | EmptyString => None
       | String _ s' => after_marker marker s'
       end.

(** [s] without its last character. *)
Definition drop_last (s : string) : string :=
  String.substring 0 (String.length s - 1) s.

(** The file a list entry [*   [title](../rules/NAME)] links to. *)
Definition entry_target (line : string) : option string :=
  drop_last <$> after_marker "](../rules/" line.

(** The title a list entry displays. *)
Definition entry_title (line : string) : option string :=
  match after_marker "*   [" line with
  | Some rest =>
      match String.index 0 "](" rest with
      | Some n => Some (String.substring 0 n rest)
      | None => None
      end
  | None => None
  end.

(** The chapter files present in the directory, in the order of the fixed
    list: the set called S in the description of the generator. *)
Definition present_chapters (d : Dir) : list string :=
  filter (λ f, is_file d f = true) CHAPTER_FILES.

Definition absent_chapters (d : Dir) : list string :=
  filter (λ f, is_file d f ≠ true) CHAPTER_FILES.

(** ** Auxiliary notions for the statements *)

(** The files listed under "Other Files"; they do not depend on the path of
    the directory. *)
Definition other_files (d : Dir) : list string :=
  other_files_of d (present_chapters d).

(** A string without line feed. *)
Fixpoint lf_free (s : string) : bool :=
  match s with
  | EmptyString => true
  | String c rest => negb (Ascii.eqb c "010") && lf_free rest
  end.

(** What is left of the line list after a first line free of line feeds. *)
Definition lines_rest (ls : list string) : list string :=
  match ls with
  | [] => []
  | _ => lines_of (PyStr.join PyStr.LF ls)
  end.

(** All order-preserving selections from a list. *)
Fixpoint sublists {A} (l : list A) : list (list A) :=
  match l with
  | [] => [[]]
  | x :: l => ((x ::.) <$> sublists l) ++ sublists l
  end.

(** A chapter directory for the examples: two chapters of the fixed list,
    two further Markdown files, a directory named like a chapter and a file
    that is no Markdown file. *)
Definition example_dir : Dir :=
  [ ("notes.md", RegularFile);
    ("2-Security-Non-Negotiable-Foundations.md", RegularFile);
    ("4-Testing-Validation.md", Directory);
    ("draft.txt", RegularFile);
    ("00-Introduction.md", RegularFile);
    ("appendix.md", RegularFile) ].

(** ** The title as it is described *)

(** The definitions of this section follow the prose description of the
    title, not the script: they are what [chapter_title] and [other_title]
    are compared with. *)

(** The filename without a trailing [.md]. *)
Definition strip_md_suffix (filename : string) : string :=
  if PyStr.endswith ".md" filename
  then String.substring 0 (String.length filename - 3) filename
  else filename.

(** Every hyphen turned into a space, character by character. *)
Fixpoint separators_to_spaces (s : string) : string :=
  match s with
  | EmptyString => EmptyString
  | String c rest =>
      String (if Ascii.eqb c "-" then " "%char else c) (separators_to_spaces rest)
  end.

Definition isdigit (c : ascii) : bool :=
  let n := nat_of_ascii c in (48 <=? n) && (n <=? 57).

(** The run of digits a name starts with, and what follows it. *)
Fixpoint leading_digits (s : string) : string :=
  match s with
  | String c rest => if isdigit c then String c (leading_digits rest) else EmptyString
  | EmptyString => EmptyString
  end.

Fixpoint after_digits (s : string) : string :=
  match s with
  | String c rest => if isdigit c then after_digits rest else s
  | EmptyString => EmptyString
  end.

(** "Strip the [.md] suffix, replace separators with spaces, render the
    numeric prefix N as [N.]". *)
Definition described_title (filename : string) : string :=
  let s := separators_to_spaces (strip_md_suffix filename) in
  match leading_digits s with
  | EmptyString => s
  | n => n +:+ "." +:+ after_digits s
  end.

(** The same, except that a prefix [00] is dropped together with the
    separator after it instead of being rendered. *)
Definition rendered_title (filename : string) : string :=
  let s := separators_to_spaces (strip_md_suffix filename) in
  if String.eqb (leading_digits s) "00" then PyStr.strip (after_digits s)
  else described_title filename.

(** ** The setup sequence *)

Module Setup.

(** A path below the project root, as the components joined by [/]; the
    empty list is the project root itself. *)
Definition path := list string.

(** [path.parent]. *)
Definition parent (p : path) : path := removelast p.

(** The proper prefixes-and-self of a path, shortest first: the
    directories [mkdir(parents=True)] visits. *)
Fixpoint ancestors_and_self (p : path) : list path :=
  match p with
  | [] => []
  | c :: rest => [c] :: ((c ::.) <$> ancestors_and_self rest)
  end.

Inductive exn :=
| SystemExit (code : Z)
| OSError (p : path)
| CalledProcessError (command : list string) (returncode : Z)
| FileNotFoundError (command : list string)
| OtherError (command : list string).

(** What [subprocess.run] meets when it starts a command. *)
Inductive proc_outcome :=
| Returned (returncode : Z) (stdout stderr : string)
| NotFound
| Broken (message : string).

(** The messages [main] and its helpers print on standard error, one
    constructor per place that prints (the consecutive lines of one
    handler count as one message); the text printed on standard output
    is not modelled. *)
Inductive diagnostic :=
| PrereqFailed (command : list string)
| GitMissing
| NpmMissing
| NoGitDirectory
| NoRulesDirectory
| WriteError (p : path)
| CopyWarning
| MissingChapter (message : string)
| TocError
| TocWarning
| CommandStderr (command : list string)
| CommandError (command : list string)
| VenvError
| NpmPermissionWarning
| NpmInstallWarning
| BranchError.

(** What a run does, in order. *)
Inductive event :=
| CheckPrereq (command : list string)
| Mkdir (p : path)
| Write (p : path) (content : string)
| Copy (target : path)
| Run (command : list string)
| Diag (d : diagnostic).

Global Instance exn_eq_dec : EqDecision exn.
Proof. solve_decision. Defined.
Global Instance proc_outcome_eq_dec : EqDecision proc_outcome.
Proof. solve_decision. Defined.
Global Instance diagnostic_eq_dec : EqDecision diagnostic.
Proof. solve_decision. Defined.
Global Instance event_eq_dec : EqDecision event.
Proof. solve_decision. Defined.

(** The template payloads: literal text blocks of the script, written
    verbatim. *)
Record Payloads := {
  GITIGNORE_CONTENT : string;
  GITATTRIBUTES_CONTENT : string;
  VSCODE_SETTINGS_CONTENT : string;
  MARKDOWNLINT_CONFIG_CONTENT : string;
  README_CONTENT_TEMPLATE : string;
  SETUP_GUIDE_CONTENT : string;
  GITHUB_WORKFLOW_CONTENT : string
}.

(** What a run finds and does not change. *)
Record Env := {
  project_path : string;
  sys_executable : string;
  python_ok : bool;
  git_ok : bool;
  npm_ok : bool;
  (** the entries of [rules/] *)
  rules : Dir;
  (** paths the filesystem refuses to create or to open for writing *)
  denied : gset path;
  (** [Path(__file__).name] and the text of the running script *)
  self_name : string;
  self_script : string;
  (** how the external commands end *)
  venv_result : proc_outcome;
  npm_install_result : proc_outcome;
  git_branch_result : proc_outcome
}.

(** What a run can change: the files and directories below the project
    root, and whether the local branch [develop] exists. *)
Record World := {
  files : gmap path string;
  dirs : gset path;
  develop_branch : bool
}.

Definition with_files (f : gmap path string → gmap path string) (w : World) : World :=
  {| files := f (files w); dirs := dirs w; develop_branch := develop_branch w |}.
Definition with_dirs (f : gset path → gset path) (w : World) : World :=
  {| files := files w; dirs := f (dirs w); develop_branch := develop_branch w |}.
Definition with_develop_branch (b : bool) (w : World) : World :=
  {| files := files w; dirs := dirs w; develop_branch := b |}.

(** *** Computations: state, a log of events, and exceptions *)

Inductive res (A : Type) :=
| Ok (a : A)
| Raised (e : exn).
Global Arguments Ok {A} a.
Global Arguments Raised {A} e.

Definition M (A : Type) : Type := World → res A * World * list event.

(** The three parts of what a run leaves behind. *)
Definition result_of {A} (run : res A * World * list event) : res A := run.1.1.
Definition world_of {A} (run : res A * World * list event) : World := run.1.2.
Definition log_of {A} (run : res A * World * list event) : list event := run.2.


Global Instance M_ret : MRet M := λ A a w, (Ok a, w, []).
Global Instance M_bind : MBind M := λ A B k m w,
  match m w with
  | (Ok a, w', evs) =>
      let '(r, w'', evs') := k a w' in (r, w'', evs ++ evs')
  | (Raised e, w', evs) => (Raised e, w', evs)
  end.

Definition raise {A} (e : exn) : M A := λ w, (Raised e, w, []).
Definition emit (ev : event) : M unit := λ w, (Ok (), w, [ev]).
Definition diag (d : diagnostic) : M unit := emit (Diag d).
Definition get : M World := λ w, (Ok w, w, []).
Definition modify (f : World → World) : M unit := λ w, (Ok (), f w, []).

(** [try: body except <caught>: handler]. *)
Definition try_except {A} (caught : exn → bool) (body : M A)
    (handler : exn → M A) : M A := λ w,
  match body w with
  | (Raised e, w', evs) =>
      if caught e
      then let '(r, w'', evs') := handler e w' in (r, w'', evs ++ evs')
      else (Raised e, w', evs)
  | ok => ok
  end.

(** [except OSError]. *)
Definition is_OSError (e : exn) : bool :=
  match e with OSError _ => true | _ => false end.

(** [except Exception]: everything but [SystemExit]. *)
Definition is_Exception (e : exn) : bool :=
  match e with SystemExit _ => false | _ => true end.

Fixpoint for_each {A} (f : A → M unit) (l : list A) : M unit :=
  match l with
  | [] => mret ()
  | x :: l => f x ;; for_each f l
  end.

(** [sys.exit(code)]. *)
Definition sys_exit {A} (code : Z) : M A := raise (SystemExit code).

(** [if b: m]. *)
Definition when (b : bool) (m : M unit) : M unit :=
  if b then m else mret ().

(** The exit status of the process: 0 when [main] returns, the argument
    of [sys.exit], and 1 for an exception nobody caught. *)
Definition exit_code (r : res unit) : Z :=
  match r with
  | Ok _ => 0
  | Raised (SystemExit code) => code
  | Raised _ => 1
  end.

(** *** Properties of computations *)

(** Every event of every run of [m] satisfies [Φ]. *)
Definition emits {A} (Φ : event → Prop) (m : M A) : Prop :=
  ∀ w r w' evs, m w = (r, w', evs) → Forall Φ evs.

(** Every exception that escapes [m] satisfies [Ψ]. *)
Definition raises {A} (Ψ : exn → Prop) (m : M A) : Prop :=
  ∀ w e w' evs, m w = (Raised e, w', evs) → Ψ e.

(** Events that only look at the world: availability checks and
    messages. *)
Definition is_probe (ev : event) : Prop :=
  match ev with
  | CheckPrereq _ | Diag _ => True
  | _ => False
  end.


(** The mandatory preconditions of a run. *)
Definition tools_ok (E : Env) : bool := python_ok E && git_ok E.
Definition layout_ok (w : World) : bool :=
  bool_decide ([".git"] ∈ dirs w) && bool_decide (["rules"] ∈ dirs w).

Section WithEnv.

Variable P : Payloads.
Variable E : Env.

(** *** Filesystem primitives *)

Definition is_dir (p : path) : M bool :=
  w ← get; mret (bool_decide (p = [] ∨ p ∈ dirs w)).

(** [os.mkdir] of one directory whose parent exists, tolerating a
    directory that is already there. *)
Definition mkdir_one (p : path) : M unit :=
  w ← get;
  if bool_decide (p = [] ∨ p ∈ dirs w) then mret ()
  else if bool_decide (is_Some (files w !! p) ∨ p ∈ denied E)
  then raise (OSError p)
  else modify (with_dirs ({[p]} ∪.)).

(** [p.mkdir(parents=..., exist_ok=True)]. *)
Definition mkdir (parents : bool) (p : path) : M unit :=
  emit (Mkdir p);;
  if parents then for_each mkdir_one (ancestors_and_self p)
  else
    w ← get;
    if bool_decide (parent p = [] ∨ parent p ∈ dirs w) then mkdir_one p
    else raise (OSError p).

(** [open(path, 'w', encoding='utf-8', newline='\n')] followed by
    [f.write(content)]. *)
Definition open_write (p : path) (content : string) : M unit :=
  emit (Write p content);;
  w ← get;
  if bool_decide (p ∈ dirs w ∨ p ∈ denied E) then raise (OSError p)
  else modify (with_files <[p := content]>).

(** *** Helper functions of the script *)

Definition create_file (p : path) (content : string) : M unit :=
  try_except is_OSError
    (mkdir true (parent p);; open_write p content)
    (λ e, diag (WriteError p);; raise e).

Definition check_prereq (command : list string) (found : bool) : M bool :=
  emit (CheckPrereq command);;
  if found then mret true
  else diag (PrereqFailed command);; mret false.

Definition venv_command : list string :=
  [sys_executable E; "-m"; "venv"; ".venv"].
Definition npm_install_command : list string :=
  ["npm"; "install"; "-g"; "markdownlint-cli"].
Definition git_list_command : list string :=
  ["git"; "branch"; "--list"; "develop"].
Definition git_branch_command : list string :=
  ["git"; "branch"; "develop"].

Definition succeeded (o : proc_outcome) : bool :=
  match o with Returned code _ _ => bool_decide (code = 0%Z) | _ => false end.

(** The external commands: how each one ends and what it changes.  A
    successful [venv] leaves the directory [.venv], a successful
    [git branch develop] leaves the branch, and [git branch --list develop]
    prints the branch exactly when it exists. *)
Definition exec (command : list string) : M proc_outcome :=
  if bool_decide (command = venv_command) then
    (if succeeded (venv_result E)
     then modify (with_dirs ({[ [".venv"] ]} ∪.)) else mret ());;
    mret (venv_result E)
  else if bool_decide (command = npm_install_command) then
    mret (npm_install_result E)
  else if bool_decide (command = git_list_command) then
    w ← get;
    mret (Returned 0
            (if develop_branch w then "  develop" +:+ PyStr.LF else EmptyString)
            EmptyString)
  else if bool_decide (command = git_branch_command) then
    (if succeeded (git_branch_result E)
     then modify (with_develop_branch true) else mret ());;
    mret (git_branch_result E)
  else mret NotFound.

Definition run_command (command : list string) (check : bool)
    : M (bool * string * string) :=
  emit (Run command);;
  o ← exec command;
  match o with
  | Returned code stdout stderr =>
      if check && negb (bool_decide (code = 0%Z))
      then diag (CommandError command);;
           raise (CalledProcessError command code)
      else
        when (negb (bool_decide (stderr = EmptyString))
              && negb (PyStr.contains "npm WARN" stderr)
              && negb (bool_decide (PyStr.strip stderr = EmptyString)))
             (diag (CommandStderr command));;
        mret (bool_decide (code = 0%Z), stdout, stderr)
  | NotFound =>
      diag (CommandError command);;
      if check then raise (FileNotFoundError command)
      else mret (false, EmptyString, hd EmptyString command +:+ " not found")
  | Broken message =>
      diag (CommandError command);;
      if check then raise (OtherError command)
      else mret (false, EmptyString, message)
  end.

(** *** [main], section by section *)

(** 1. Prerequisite checks; returns [npm_ok]. *)
Definition check_prerequisites : M bool :=
  python_ok ← check_prereq [sys_executable E; "--version"] (python_ok E);
  git_ok ← check_prereq ["git"; "--version"] (git_ok E);
  npm_ok ← check_prereq ["npm"; "--version"] (npm_ok E);
  when (negb python_ok) (sys_exit 1);;
  when (negb git_ok) (diag GitMissing;; sys_exit 1);;
  when (negb npm_ok) (diag NpmMissing);;
  mret npm_ok.

(** 2. The run must start in a repository that has a [rules/]. *)
Definition verify_layout : M unit :=
  git_dir ← is_dir [".git"];
  when (negb git_dir) (diag NoGitDirectory;; sys_exit 1);;
  rules_dir ← is_dir ["rules"];
  when (negb rules_dir) (diag NoRulesDirectory;; sys_exit 1).

(** 3. Directory structure and standard files. *)
Definition create_structure : M unit :=
  mkdir false ["docs"];;
  mkdir false ["scripts"];;
  mkdir false [".vscode"];;
  mkdir true [".github"; "workflows"].

Definition write_standard_files : M unit :=
  create_file [".gitignore"] (GITIGNORE_CONTENT P);;
  create_file [".gitattributes"] (GITATTRIBUTES_CONTENT P);;
  create_file [".vscode"; "settings.json"] (VSCODE_SETTINGS_CONTENT P);;
  create_file [".markdownlint.jsonc"] (MARKDOWNLINT_CONFIG_CONTENT P);;
  create_file ["README.md"] (README_CONTENT_TEMPLATE P);;
  create_file ["docs"; "SETUP_GUIDE.md"] (SETUP_GUIDE_CONTENT P);;
  create_file [".github"; "workflows"; "markdown-lint.yml"]
              (GITHUB_WORKFLOW_CONTENT P).

Definition target_script_path : path := ["scripts"; self_name E].

Definition copy_script : M unit :=
  try_except is_Exception
    (w ← get;
     if bool_decide (target_script_path ∈ dirs w)
     then raise (OSError target_script_path)
     else if bool_decide (files w !! target_script_path = Some (self_script E))
     then mret ()
     else
       emit (Copy target_script_path);;
       if bool_decide (target_script_path ∈ denied E
                       ∨ ¬ (parent target_script_path ∈ dirs w))
       then raise (OSError target_script_path)
       else modify (with_files <[target_script_path := self_script E]>))
    (λ _, diag CopyWarning).

(** 4. The table of contents. *)
Definition guide_toc_path : path := ["docs"; "LLM_CODING_GUIDE.md"].


Definition rules_dir : string := project_path E +:+ "/rules".

Definition write_toc : M unit :=
  try_except is_Exception
    (let generated := generate_toc_content rules_dir (rules E) in
     let toc_markdown := generated.1 in
     for_each (λ msg, diag (MissingChapter msg)) generated.2;;
     create_file guide_toc_path toc_markdown)
    (λ _, diag TocError;; diag TocWarning).

(** 5. The virtual environment. *)
Definition setup_venv : M unit :=
  venv ← is_dir [".venv"];
  if negb venv then
    '(success, _, _) ← run_command venv_command true;
    when (negb success) (diag VenvError)
  else mret ().

(** 6. The linter. *)
Definition install_tools (npm_ok : bool) : M unit :=
  if npm_ok then
    '(success, _, stderr) ← run_command npm_install_command false;
    if negb success then
      if PyStr.contains "checkPermissions" stderr
         || PyStr.contains "EACCES" stderr
      then diag NpmPermissionWarning
      else diag NpmInstallWarning
    else mret ()
  else mret ().

(** 7. The [develop] branch. *)
Definition ensure_develop_branch : M unit :=
  '(_, stdout, _) ← run_command git_list_command false;
  let develop_exists := PyStr.contains "develop" (PyStr.strip stdout) in
  if negb develop_exists then
    '(success, _, _) ← run_command git_branch_command true;
    when (negb success) (diag BranchError)
  else mret ().

Definition main : M unit :=
  npm_ok ← check_prerequisites;
  verify_layout;;
  create_structure;;
  write_standard_files;;
  copy_script;;
  write_toc;;
  setup_venv;;
  install_tools npm_ok;;
  ensure_develop_branch.

(** *** After a completed run *)

(** The standard files and their contents, in the order they are
    written. *)
Definition standard_files : list (path * string) :=
  [ ([".gitignore"], GITIGNORE_CONTENT P);
    ([".gitattributes"], GITATTRIBUTES_CONTENT P);
    ([".vscode"; "settings.json"], VSCODE_SETTINGS_CONTENT P);
    ([".markdownlint.jsonc"], MARKDOWNLINT_CONFIG_CONTENT P);
    (["README.md"], README_CONTENT_TEMPLATE P);
    (["docs"; "SETUP_GUIDE.md"], SETUP_GUIDE_CONTENT P);
    ([".github"; "workflows"; "markdown-lint.yml"], GITHUB_WORKFLOW_CONTENT P) ].

(** The directories the sequence creates. *)
Definition project_dirs : gset path :=
  {[ ["docs"]; ["scripts"]; [".vscode"]; [".github"];
     [".github"; "workflows"] ]}.

(** The filesystem refuses to open [p] for writing. *)
Definition refused (w : World) (p : path) : Prop :=
  p ∈ dirs w ∨ p ∈ denied E.

(** An event that changes nothing in the world [w]: a check or a
    message, the creation of a directory that exists, a write that
    stores what the file holds or is refused, a copy that is refused;
    and the two commands that are run whatever the state. *)
Definition benign (w : World) (ev : event) : Prop :=
  match ev with
  | CheckPrereq _ | Diag _ => True
  | Mkdir p => p = [] ∨ p ∈ dirs w
  | Write p c => files w !! p = Some c ∨ refused w p
  | Copy target => target ∈ denied E
  | Run command =>
      command = npm_install_command ∨ command = git_list_command
  end.

(** An event with no effect beyond rewriting a file with the content
    it holds: as [benign], without the refused operations and without
    the linter installation. *)
Definition rewrites_only (w : World) (ev : event) : Prop :=
  match ev with
  | CheckPrereq _ | Diag _ => True
  | Mkdir p => p = [] ∨ p ∈ dirs w
  | Write p c => files w !! p = Some c
  | Copy _ => False
  | Run command => command = git_list_command
  end.

(** The state a completed run leaves behind. *)
Record settled (w : World) : Prop := {
  settled_tools : tools_ok E = true;
  settled_layout : layout_ok w = true;
  settled_dirs : project_dirs ∪ {[ [".venv"] ]} ⊆ dirs w;
  settled_files : ∀ p c, (p, c) ∈ standard_files →
    files w !! p = Some c ∧ ¬ refused w p;
  settled_script :
    files w !! target_script_path = Some (self_script E)
    ∨ refused w target_script_path;
  settled_toc :
    files w !! guide_toc_path
      = Some (generate_toc_content rules_dir (rules E)).1
    ∨ refused w guide_toc_path;
  settled_branch : develop_branch w = true
}.


(** [m] returns [a] from the world [w] without changing it, through
    benign events only. *)
Definition stays {A} (w : World) (m : M A) (a : A) : Prop :=
  ∃ evs, m w = (Ok a, w, evs) ∧ Forall (benign w) evs.

(** [m] raises [e] from the world [w] without changing it, through
    benign events only. *)
Definition fails_cleanly {A} (w : World) (m : M A) (e : exn) : Prop :=
  ∃ evs, m w = (Raised e, w, evs) ∧ Forall (benign w) evs.

End WithEnv.

(** *** Footprints *)

(** The command an event runs, the write it attempts. *)
Definition run_of (ev : event) : option (list string) :=
  match ev with Run command => Some command | _ => None end.
Definition write_of (ev : event) : option (path * string) :=
  match ev with Write p content => Some (p, content) | _ => None end.

(** The selected events of every run of [m] are, in order, among [l]. *)
Definition within {A X} (f : event → option X) (l : list X) (m : M A) : Prop :=
  ∀ w r w' evs, m w = (r, w', evs) → omap f evs `sublist_of` l.

(** [R] relates the world every run of [m] starts in to the world it
    leaves. *)
Definition keeps {A} (R : World → World → Prop) (m : M A) : Prop :=
  ∀ w r w' evs, m w = (r, w', evs) → R w w'.

(** From a world in [I], every run of [m] ends in [I] and logs events
    in [Φ] only. *)
Definition maintains {A} (I : World → Prop) (Φ : event → Prop) (m : M A)
    : Prop :=
  ∀ w r w' evs, I w → m w = (r, w', evs) → I w' ∧ Forall Φ evs.

(** From a world in [I], every run of [m] that returns has logged
    exactly [l] among the selected events, and ends in [I']. *)
Definition performs {A X} (f : event → option X) (I : World → Prop)
    (l : list X) (I' : World → Prop) (m : M A) : Prop :=
  ∀ w a w' evs, I w → m w = (Ok a, w', evs) → omap f evs = l ∧ I' w'.

(** The log of every run of [m] splits in two: events in [Φ1], then
    events in [Φ2]. *)
Definition in_two_phases {A} (Φ1 Φ2 : event → Prop) (m : M A) : Prop :=
  ∀ w r w' evs, m w = (r, w', evs) →
    ∃ before after, evs = before ++ after
                    ∧ Forall Φ1 before ∧ Forall Φ2 after.


(** [docs/] exists. *)
Definition has_docs (w : World) : Prop := ["docs"] ∈ dirs w.

(** In [w0] the two guards of the script read as they do in [w]: [.venv]
    is a directory in both or in neither, and the branch exists in both
    or in neither. *)
Definition branch_as_at (w w0 : World) : Prop :=
  develop_branch w0 = develop_branch w.
Definition guards_as_at (w w0 : World) : Prop :=
  ([".venv"] ∈ dirs w0 ↔ [".venv"] ∈ dirs w) ∧ branch_as_at w w0.

(** The branch is as it was. *)
Definition same_branch (w w' : World) : Prop :=
  develop_branch w' = develop_branch w.

(** Between [w] and [w'] no file outside [ps] changed, no directory
    was removed, the directories added are in [D], and the branch was
    not deleted. *)
Definition touches (ps : list path) (D : gset path) (w w' : World) : Prop :=
  (∀ q, q ∉ ps → files w' !! q = files w !! q)
  ∧ dirs w ⊆ dirs w'
  ∧ dirs w' ⊆ dirs w ∪ D
  ∧ (develop_branch w = true → develop_branch w' = true).

(** Events that run no command; events that write no file. *)
Definition no_run (ev : event) : Prop := run_of ev = None.
Definition no_write (ev : event) : Prop := write_of ev = None.
Definition silent (ev : event) : Prop := no_run ev ∧ no_write ev.

Section Footprint.
Variable P : Payloads.
Variable E : Env.

(** [os.mkdir] cannot create [p]: something that is no directory has the
    name, or the filesystem refuses it. *)
Definition blocked (w : World) (p : path) : Prop :=
  (p ∉ dirs w) ∧ (is_Some (files w !! p) ∨ p ∈ denied E).

Global Instance blocked_dec w p : Decision (blocked w p).
Proof. unfold blocked. apply _. Defined.

(** [m] creates the directories [l], one after the other: it returns,
    having added them all, exactly when none of them is blocked, and
    raises [OSError] otherwise. *)
Definition makes (l : list path) (m : M unit) : Prop :=
  ∀ w,
    if decide (Exists (blocked w) l)
    then ∃ q w' evs, m w = (Raised (OSError q), w', evs)
    else ∃ evs, m w = (Ok (), with_dirs (list_to_set l ∪.) w, evs).

(** The directories [main] creates, in the order of the script. *)
Definition project_dir_list : list path :=
  [ ["docs"]; ["scripts"]; [".vscode"]; [".github"];
    [".github"; "workflows"] ].


(** The files the sequence writes or copies. *)
Definition written_paths : list path :=
  (standard_files P).*1 ++ [target_script_path E; guide_toc_path].


(** The writes the sequence attempts, in the order of the script. *)
Definition writes : list (path * string) :=
  standard_files P
    ++ [(guide_toc_path, toc_document (rules_dir E) (rules E))].

End Footprint.

(** *** Concrete runs, for the examples *)

Definition example_payloads : Payloads :=
  {| GITIGNORE_CONTENT := "__pycache__/";
     GITATTRIBUTES_CONTENT := "* text=auto eol=lf";
     VSCODE_SETTINGS_CONTENT := "{}";
     MARKDOWNLINT_CONFIG_CONTENT := "{}";
     README_CONTENT_TEMPLATE := "# LLM Coding Guide";
     SETUP_GUIDE_CONTENT := "# Setup";
     GITHUB_WORKFLOW_CONTENT := "name: Markdown Lint" |}.

(** An environment in which every tool is present; the filesystem
    refuses the paths in [refused], creating the virtual environment ends
    as [venv] says and creating the branch as [branch] says. *)
Definition example_env (refused : gset path) (venv branch : proc_outcome)
    : Env :=
  {| project_path := "/home/dev/guide";
     sys_executable := "/usr/bin/python3";
     python_ok := true; git_ok := true; npm_ok := true;
     rules := [("00-Introduction.md", RegularFile);
               ("2-Security-Non-Negotiable-Foundations.md", RegularFile)];
     denied := refused;
     self_name := "setup_project.py";
     self_script := "import os";
     venv_result := venv;
     npm_install_result := Returned 0 "added 1 package" EmptyString;
     git_branch_result := branch |}.

Definition done_quietly : proc_outcome := Returned 0 EmptyString EmptyString.

(** A fresh clone: the repository marker and the chapters, nothing else. *)
Definition fresh_clone : World :=
  {| files := ∅; dirs := {[ [".git"]; ["rules"] ]}; develop_branch := false |}.

(** A directory that holds the chapters but is not a repository. *)
Definition not_a_repository : World :=
  {| files := ∅; dirs := {[ ["rules"] ]}; develop_branch := false |}.

(** The environment [E] with other findings of the prerequisite checks. *)
Definition with_tools (python git npm : bool) (E : Env) : Env :=
  {| project_path := project_path E;
     sys_executable := sys_executable E;
     python_ok := python; git_ok := git; npm_ok := npm;
     rules := rules E;
     denied := denied E;
     self_name := self_name E;
     self_script := self_script E;
     venv_result := venv_result E;
     npm_install_result := npm_install_result E;
     git_branch_result := git_branch_result E |}.

(** A clone in which a regular file has taken the name [docs]. *)
Definition docs_is_a_file : World :=
  {| files := {[ ["docs"] := "notes" ]};
     dirs := {[ [".git"]; ["rules"] ]};
     develop_branch := false |}.

End Setup.

(** Closed goals over concrete strings are settled by evaluation. *)
Ltac by_evaluation :=
  vm_compute; first [reflexivity | discriminate | exact I | done].

(** ** The string primitives on small inputs *)

Example replace_does_not_overlap :
  PyStr.replace "aa" "b" "aaaaa" = "bba"
  ∧ PyStr.replace ".md" EmptyString "a.md.md" = "a"
  ∧ PyStr.replace "0" EmptyString (PyStr.replace "00" EmptyString "000") = EmptyString
  ∧ PyStr.replace EmptyString "-" "ab" = "-a-b-".
Proof. by_evaluation. Qed.

Example strip_both_ends :
  PyStr.strip ("  develop" +:+ PyStr.LF) = "develop"
  ∧ PyStr.strip " a b " = "a b"
  ∧ PyStr.strip "   " = EmptyString.
Proof. by_evaluation. Qed.

Example endswith_and_contains :
  PyStr.endswith ".md" "notes.md" = true
  ∧ PyStr.endswith ".md" ".md" = true
  ∧ PyStr.endswith ".md" "notes.mdx" = false
  ∧ PyStr.contains "develop" "* develop" = true
  ∧ PyStr.contains "EACCES" "npm ERR! code EACCES" = true
  ∧ PyStr.contains "develop" "main" = false.
Proof. by_evaluation. Qed.

(** ** Facts about lines *)

Lemma lines_of_lf_free s : lf_free s = true → lines_of s = [s].
Proof.
  induction s as [|c s IH]; simpl; [done|].
  intros [Hc Hs]%andb_prop. apply negb_true_iff in Hc.
  by rewrite Hc, (IH Hs).
Qed.

Lemma lines_of_app_LF s rest :
  lf_free s = true → lines_of (s +:+ PyStr.LF +:+ rest) = s :: lines_of rest.
Proof.
  induction s as [|c s IH]; simpl; [done|].
  intros [Hc Hs]%andb_prop. apply negb_true_iff in Hc.
  by rewrite Hc, (IH Hs).
Qed.

Lemma lines_of_join_cons x ls :
  lf_free x = true →
  lines_of (PyStr.join PyStr.LF (x :: ls)) = x :: lines_rest ls.
Proof.
  intros Hx. destruct ls as [|y ls]; simpl.
  - by apply lines_of_lf_free.
  - by rewrite lines_of_app_LF.
Qed.

Lemma lines_of_join_app front x ls :
  Forall (λ l, lf_free l = true) front → lf_free x = true →
  lines_of (PyStr.join PyStr.LF (front ++ x :: ls)) = front ++ x :: lines_rest ls.
Proof.
  induction 1 as [|y front Hy _ IH]; intros Hx; simpl app.
  - by apply lines_of_join_cons.
  - rewrite lines_of_join_cons by done. f_equal.
    rewrite <-IH by done. by destruct front.
Qed.

Lemma lines_of_join ls :
  ls ≠ [] → Forall (λ l, lf_free l = true) ls →
  lines_of (PyStr.join PyStr.LF ls) = ls.
Proof.
  intros Hne Hall. destruct (decide (ls = [])) as [|_]; [done|].
  induction Hall as [|x ls Hx Hls IH]; [done|].
  rewrite lines_of_join_cons by done. f_equal.
  destruct ls as [|y ls]; [done|]. simpl. apply IH. done.
Qed.

Lemma until_blank_app front rest :
  Forall (λ l, l ≠ EmptyString) front →
  until_blank (front ++ EmptyString :: rest) = front.
Proof.
  induction 1 as [|x front Hx _ IH]; simpl; [done|].
  destruct (String.eqb_spec x EmptyString); [done|]. by rewrite IH.
Qed.

(** ** The loop in closed form *)

Lemma chapter_loop_from rules_dir d l st :
  foldl (chapter_step rules_dir d) st l =
  {| toc := toc st ++ (chapter_entry <$> filter (λ f, is_file d f = true) l);
     found_files := found_files st ++ filter (λ f, is_file d f = true) l;
     stderr := stderr st ++
       (missing_warning rules_dir <$> filter (λ f, is_file d f ≠ true) l) |}.
Proof.
  revert st. induction l as [|f l IH]; intros [t fs e]; simpl.
  - by rewrite !app_nil_r.
  - rewrite IH. unfold chapter_step at 1 2 3. simpl.
    rewrite !filter_cons.
    destruct (is_file d f) eqn:Hf; simpl; by rewrite <-!app_assoc.
Qed.

Lemma toc_chapter_loop rules_dir d :
  toc (chapter_loop rules_dir d) =
  toc_header ++ (chapter_entry <$> present_chapters d).
Proof. unfold chapter_loop. by rewrite chapter_loop_from. Qed.

Lemma found_files_chapter_loop rules_dir d :
  found_files (chapter_loop rules_dir d) = present_chapters d.
Proof. unfold chapter_loop. by rewrite chapter_loop_from. Qed.

Lemma stderr_chapter_loop rules_dir d :
  stderr (chapter_loop rules_dir d) =
  missing_warning rules_dir <$> absent_chapters d.
Proof. unfold chapter_loop. by rewrite chapter_loop_from. Qed.

Lemma toc_lines_eq rules_dir d :
  toc_lines rules_dir d =
  toc_header ++ (chapter_entry <$> present_chapters d)
    ++ other_section (other_files d) ++ [EmptyString].
Proof.
  unfold toc_lines; cbv zeta.
  rewrite toc_chapter_loop, found_files_chapter_loop.
  by rewrite <-app_assoc.
Qed.

(** ** The "Chapters" section *)

Lemma toc_header_lf_free : Forall (λ l, lf_free l = true) toc_header.
Proof. unfold toc_header. repeat constructor. Qed.

(** Every entry the fixed list can produce is one non-blank line that links
    back to its file. *)
Lemma chapter_entry_facts :
  Forall (λ f, lf_free (chapter_entry f) = true
               ∧ chapter_entry f ≠ EmptyString
               ∧ entry_target (chapter_entry f) = Some f) CHAPTER_FILES.
Proof.
  unfold CHAPTER_FILES.
  repeat (apply Forall_cons; split;
          [split_and!; vm_compute; first [reflexivity | discriminate]|]).
  constructor.
Qed.

Lemma present_chapters_subseteq d : present_chapters d ⊆ CHAPTER_FILES.
Proof. intros f [_ ?]%list_elem_of_filter. done. Qed.

Lemma present_chapter_entry_facts d :
  Forall (λ f, lf_free (chapter_entry f) = true
               ∧ chapter_entry f ≠ EmptyString
               ∧ entry_target (chapter_entry f) = Some f) (present_chapters d).
Proof.
  apply Forall_forall. intros f Hf%present_chapters_subseteq.
  by apply (proj1 (Forall_forall _ _) chapter_entry_facts).
Qed.

Lemma other_section_blank others :
  ∃ rest, other_section others ++ [EmptyString] = EmptyString :: rest.
Proof. destruct others; simpl; eauto. Qed.

(** The lines of the document up to the blank line that closes the
    "Chapters" section do not depend on what follows. *)
Lemma lines_of_toc_document rules_dir d :
  ∃ rest, lines_of (toc_document rules_dir d) =
          toc_header ++ (chapter_entry <$> present_chapters d)
            ++ EmptyString :: rest.
Proof.
  unfold toc_document, generate_toc_content; simpl.
  rewrite toc_lines_eq.
  destruct (other_section_blank (other_files d)) as [rest ->].
  exists (lines_rest rest).
  rewrite (assoc_L (++)), lines_of_join_app, <-(assoc_L (++)); [done| |done].
  apply Forall_app; split; [apply toc_header_lf_free|].
  apply Forall_fmap.
  eapply Forall_impl; [apply present_chapter_entry_facts|]. by intros ? (?&?&?).
Qed.

Lemma chapters_section_eq rules_dir d :
  chapters_section (toc_document rules_dir d) =
  chapter_entry <$> present_chapters d.
Proof.
  unfold chapters_section.
  destruct (lines_of_toc_document rules_dir d) as [rest ->].
  change (until_blank ((chapter_entry <$> present_chapters d)
                         ++ EmptyString :: rest) = chapter_entry <$> present_chapters d).
  apply until_blank_app, Forall_fmap.
  eapply Forall_impl; [apply present_chapter_entry_facts|]. by intros ? (?&?&?).
Qed.

Lemma CHAPTER_FILES_NoDup : NoDup CHAPTER_FILES.
Proof. apply (bool_decide_unpack _). by vm_compute. Qed.

(** C1. For every chapter directory, with S the chapter files of the fixed
    list that exist in it as files: the "Chapters" section of the returned
    document consists of exactly one entry per member of S, each linking to
    its file, in the relative order of the fixed list, and links to nothing
    outside S. *)
Theorem chapters_section_exact rules_dir (d : Dir) :
  let doc := toc_document rules_dir d in
  chapters_section doc = chapter_entry <$> present_chapters d
  ∧ entry_target <$> chapters_section doc = Some <$> present_chapters d
  ∧ present_chapters d `sublist_of` CHAPTER_FILES
  ∧ NoDup (present_chapters d)
  ∧ (∀ f, f ∈ present_chapters d ↔ f ∈ CHAPTER_FILES ∧ (f, RegularFile) ∈ d).
Proof.
  cbv zeta. rewrite chapters_section_eq. split_and!.
  - done.
  - rewrite <-list_fmap_compose. apply Forall_fmap_ext_1.
    eapply Forall_impl; [apply present_chapter_entry_facts|]. by intros ? (?&?&?).
  - apply sublist_filter.
  - apply NoDup_filter, CHAPTER_FILES_NoDup.
  - intros f. unfold present_chapters, is_file.
    rewrite list_elem_of_filter, bool_decide_eq_true. tauto.
Qed.

(** ** The "Other Files" section *)

Lemma lf_free_app a b : lf_free (a +:+ b) = lf_free a && lf_free b.
Proof.
  induction a as [|c a IH]; [done|].
  change (String c a +:+ b) with (String c (a +:+ b)); simpl.
  by rewrite IH, andb_assoc.
Qed.

Lemma replace_go_cons old new k c s :
  PyStr.replace_go old new k (String c s) =
  match k with
  | S k' => PyStr.replace_go old new k' s
  | O =>
      if String.prefix old (String c s)
      then new +:+ PyStr.replace_go old new (String.length old - 1) s
      else String c (PyStr.replace_go old new 0 s)
  end.
Proof. done. Qed.

Lemma lf_free_replace_go old new k s :
  lf_free new = true → lf_free s = true →
  lf_free (PyStr.replace_go old new k s) = true.
Proof.
  intros Hnew. revert k. induction s as [|c s IH]; intros k; [done|].
  intros [Hc Hs]%andb_prop. rewrite replace_go_cons.
  destruct k as [|k]; [|by apply IH].
  destruct (String.prefix old (String c s)).
  - rewrite lf_free_app, Hnew. by apply IH.
  - simpl. rewrite Hc. by apply IH.
Qed.

Lemma lf_free_other_entry name :
  lf_free name = true → lf_free (other_entry name) = true.
Proof.
  intros Hn. unfold other_entry, toc_entry, relative_link, other_title.
  rewrite !lf_free_app, Hn.
  unfold PyStr.replace at 1 2.
  rewrite (lf_free_replace_go "-" " ");
    [done|done|by apply lf_free_replace_go].
Qed.

Lemma toc_entry_head title link :
  toc_entry title link =
  String "*" (String " " (String " " (String " " (String "["
    (title +:+ "](" +:+ link +:+ ")"))))).
Proof. done. Qed.

Lemma other_entry_not_blank name : other_entry name ≠ EmptyString.
Proof. unfold other_entry. by rewrite toc_entry_head. Qed.

Lemma after_heading_app heading front rest :
  Forall (λ l, l ≠ heading) front →
  after_heading heading (front ++ heading :: rest) = rest.
Proof.
  induction 1 as [|x front Hx _ IH]; simpl.
  - by rewrite String.eqb_refl.
  - by destruct (String.eqb_spec x heading).
Qed.

Lemma toc_entry_not_heading title link : toc_entry title link ≠ "### Other Files".
Proof. by rewrite toc_entry_head. Qed.

Lemma filter_in_sublists {A} (P : A → Prop) `{!∀ x, Decision (P x)} l :
  filter P l ∈ sublists l.
Proof.
  induction l as [|x l IH]; simpl; [by apply list_elem_of_singleton|].
  rewrite filter_cons. apply elem_of_app. destruct (decide (P x)); [left|by right].
  by apply list_elem_of_fmap_2.
Qed.

(** Without other files, no selection of chapters makes the text of the
    "Other Files" heading appear anywhere in the document. *)
Lemma no_heading_in_chapters_only :
  Forall (λ S, PyStr.contains "### Other Files"
                 (PyStr.join PyStr.LF
                    (toc_header ++ (chapter_entry <$> S) ++ [EmptyString])) = false)
         (sublists CHAPTER_FILES).
Proof. apply (bool_decide_unpack _). by vm_compute. Qed.

Lemma other_files_sorted d : StronglySorted String.le (other_files d).
Proof. apply StronglySorted_merge_sort; apply _. Qed.

Lemma other_files_perm d :
  other_files d ≡ₚ filter (λ name, name ∉ present_chapters d) (glob_md d).
Proof. apply merge_sort_Permutation. Qed.

Lemma elem_of_other_files d name :
  name ∈ other_files d ↔
  name ∈ d.*1 ∧ PyStr.endswith ".md" name = true ∧ name ∉ present_chapters d.
Proof.
  rewrite other_files_perm. unfold glob_md.
  rewrite !list_elem_of_filter. tauto.
Qed.

Lemma other_files_section_read front entries :
  Forall (λ l, lf_free l = true ∧ l ≠ "### Other Files") front →
  Forall (λ l, lf_free l = true ∧ l ≠ EmptyString) entries →
  other_files_section
    (PyStr.join PyStr.LF
       (front ++ "### Other Files" :: entries ++ [EmptyString])) = entries.
Proof.
  intros Hfront Hentries. unfold other_files_section.
  rewrite lines_of_join.
  - rewrite after_heading_app.
    + apply until_blank_app. eapply Forall_impl; [done|]. by intros ? [??].
    + eapply Forall_impl; [done|]. by intros ? [??].
  - by destruct front.
  - apply Forall_app; split; [eapply Forall_impl; [done|]; by intros ? [??]|].
    apply Forall_cons; split; [done|].
    apply Forall_app; split; [|by repeat constructor].
    eapply Forall_impl; [done|]. by intros ? [??].
Qed.

Lemma chapter_entries_plain d :
  Forall (λ l, lf_free l = true ∧ l ≠ "### Other Files")
         (toc_header ++ (chapter_entry <$> present_chapters d) ++ [EmptyString]).
Proof.
  apply Forall_app; split; [unfold toc_header; by repeat constructor|].
  apply Forall_app; split; [|by repeat constructor].
  apply Forall_fmap.
  eapply Forall_impl; [apply present_chapter_entry_facts|].
  intros f (?&?&?); simpl. split; [done|]. apply toc_entry_not_heading.
Qed.

(** C2. For every chapter directory: the files listed under "Other Files"
    are exactly the entries of the directory whose name ends in [.md] and
    that were not emitted in the "Chapters" section, each once, in
    lexicographic order, none of them also in the "Chapters" section; the
    document is the header, the chapter entries, then that section; and
    when there is no such file the text "### Other Files" occurs nowhere in
    the document.  When no name contains a line feed, reading the section
    back from the document gives one entry per such file, in that order. *)
Theorem other_files_section_exact rules_dir (d : Dir) (Hwf : wf_dir d) :
  let doc := toc_document rules_dir d in
  let others := other_files d in
  doc = PyStr.join PyStr.LF
          (toc_header ++ (chapter_entry <$> present_chapters d)
             ++ other_section others ++ [EmptyString])
  ∧ (∀ name, name ∈ others ↔
       name ∈ d.*1 ∧ PyStr.endswith ".md" name = true
       ∧ name ∉ present_chapters d)
  ∧ NoDup others
  ∧ StronglySorted String.le others
  ∧ (∀ name, name ∈ others → name ∉ present_chapters d)
  ∧ (others = [] → PyStr.contains "### Other Files" doc = false)
  ∧ (others ≠ [] →
       other_section others =
       [EmptyString; "### Other Files"] ++ (other_entry <$> others))
  ∧ (Forall (λ name, lf_free name = true) d.*1 → others ≠ [] →
       other_files_section doc = other_entry <$> others).
Proof.
  cbv zeta.
  assert (Hdoc : toc_document rules_dir d = PyStr.join PyStr.LF
          (toc_header ++ (chapter_entry <$> present_chapters d)
             ++ other_section (other_files d) ++ [EmptyString])).
  { unfold toc_document, generate_toc_content; simpl. by rewrite toc_lines_eq. }
  split_and!.
  - done.
  - apply elem_of_other_files.
  - rewrite other_files_perm. by apply NoDup_filter, NoDup_filter.
  - apply other_files_sorted.
  - by intros name (_&_&?)%elem_of_other_files.
  - intros Hnone. rewrite Hdoc, Hnone. simpl other_section.
    apply (proj1 (Forall_forall _ _) no_heading_in_chapters_only).
    apply filter_in_sublists.
  - by destruct (other_files d).
  - intros Hlf Hsome. rewrite Hdoc. unfold other_files_section.
    destruct (other_files d) as [|o os] eqn:Ho; [done|].
    change (other_section (o :: os)) with
      ([EmptyString; "### Other Files"] ++ (other_entry <$> o :: os)).
    set (entries := other_entry <$> o :: os).
    assert (toc_header ++ (chapter_entry <$> present_chapters d)
              ++ ([EmptyString; "### Other Files"] ++ entries) ++ [EmptyString]
            = (toc_header ++ (chapter_entry <$> present_chapters d) ++ [EmptyString])
              ++ "### Other Files" :: entries ++ [EmptyString]) as ->.
    { by rewrite <-!app_assoc. }
    apply other_files_section_read; [apply chapter_entries_plain|].
    apply Forall_fmap, Forall_forall. intros name Hname. simpl.
    split; [|apply other_entry_not_blank].
    apply lf_free_other_entry.
    rewrite <-Ho in Hname. apply elem_of_other_files in Hname as (Hin&_&_).
    by apply (proj1 (Forall_forall _ _) Hlf).
Qed.

Lemma other_files_section_exact_witness :
  let d := example_dir in
  let doc := toc_document "/home/dev/guide/rules" d in
  let others := other_files d in
  wf_dir d
  ∧ doc = PyStr.join PyStr.LF
            (toc_header ++ (chapter_entry <$> present_chapters d)
               ++ other_section others ++ [EmptyString])
  ∧ (∀ name, name ∈ others ↔
       name ∈ d.*1 ∧ PyStr.endswith ".md" name = true
       ∧ name ∉ present_chapters d)
  ∧ NoDup others
  ∧ StronglySorted String.le others
  ∧ (∀ name, name ∈ others → name ∉ present_chapters d)
  ∧ (others = [] → PyStr.contains "### Other Files" doc = false)
  ∧ (others ≠ [] →
       other_section others =
       [EmptyString; "### Other Files"] ++ (other_entry <$> others))
  ∧ (Forall (λ name, lf_free name = true) d.*1 → others ≠ [] →
       other_files_section doc = other_entry <$> others).
Proof.
  cbv zeta.
  assert (Hwf : wf_dir example_dir).
  { apply (bool_decide_unpack _). vm_compute. exact I. }
  split; [exact Hwf|].
  exact (other_files_section_exact "/home/dev/guide/rules" example_dir Hwf).
Defined.

(** The example directory, read back from its document. *)
Example example_dir_sections :
  let doc := toc_document "/home/dev/guide/rules" example_dir in
  entry_target <$> chapters_section doc
    = [Some "00-Introduction.md";
       Some "2-Security-Non-Negotiable-Foundations.md"]
  ∧ entry_target <$> other_files_section doc
    = [Some "4-Testing-Validation.md"; Some "appendix.md"; Some "notes.md"].
Proof. cbv zeta. split; by_evaluation. Qed.

(** ** Independence from the enumeration order *)

Lemma is_file_perm d1 d2 f : d1 ≡ₚ d2 → is_file d1 f = is_file d2 f.
Proof. intros Hp. unfold is_file. apply bool_decide_ext. by rewrite Hp. Qed.

Lemma present_chapters_perm d1 d2 :
  d1 ≡ₚ d2 → present_chapters d1 = present_chapters d2.
Proof.
  intros Hp. apply list_filter_iff. intros f. by rewrite (is_file_perm d1 d2).
Qed.

Lemma absent_chapters_perm d1 d2 :
  d1 ≡ₚ d2 → absent_chapters d1 = absent_chapters d2.
Proof.
  intros Hp. apply list_filter_iff. intros f. by rewrite (is_file_perm d1 d2).
Qed.

Lemma other_files_perm_eq d1 d2 : d1 ≡ₚ d2 → other_files d1 = other_files d2.
Proof.
  intros Hp.
  apply (StronglySorted_unique String.le); [apply other_files_sorted..|].
  rewrite !other_files_perm, (present_chapters_perm d1 d2) by done.
  unfold glob_md. by rewrite Hp.
Qed.

(** C6. Two invocations on the same snapshot of the chapter directory return
    the same result, whatever order the operating system enumerates the
    entries in: the document and the warnings are determined by the set of
    entries (and the fixed chapter list), and the document does not depend
    on where the directory is. *)
Theorem generate_toc_content_deterministic rules_dir rules_dir' (d1 d2 : Dir) :
  d1 ≡ₚ d2 →
  generate_toc_content rules_dir d1 = generate_toc_content rules_dir d2
  ∧ toc_document rules_dir d1 = toc_document rules_dir' d2.
Proof.
  intros Hp. unfold toc_document, generate_toc_content; simpl.
  rewrite !toc_lines_eq, !stderr_chapter_loop.
  by rewrite (present_chapters_perm d1 d2), (absent_chapters_perm d1 d2),
    (other_files_perm_eq d1 d2).
Qed.

Lemma generate_toc_content_deterministic_witness :
  let d1 := example_dir in
  let d2 := [ ("2-Security-Non-Negotiable-Foundations.md", RegularFile);
              ("notes.md", RegularFile);
              ("4-Testing-Validation.md", Directory);
              ("draft.txt", RegularFile);
              ("00-Introduction.md", RegularFile);
              ("appendix.md", RegularFile) ] in
  d1 ≡ₚ d2
  ∧ generate_toc_content "/home/dev/guide/rules" d1
    = generate_toc_content "/home/dev/guide/rules" d2
  ∧ toc_document "/home/dev/guide/rules" d1 = toc_document "/srv/rules" d2.
Proof.
  cbv zeta.
  assert (Hp : example_dir ≡ₚ
    [ ("2-Security-Non-Negotiable-Foundations.md", RegularFile);
      ("notes.md", RegularFile);
      ("4-Testing-Validation.md", Directory);
      ("draft.txt", RegularFile);
      ("00-Introduction.md", RegularFile);
      ("appendix.md", RegularFile) ]).
  { unfold example_dir. apply perm_swap. }
  split; [exact Hp|].
  exact (generate_toc_content_deterministic _ "/srv/rules" _ _ Hp).
Defined.

(** ** The empty directory *)


(** ** Titles *)

Lemma prefix_empty s : String.prefix EmptyString s = true.
Proof. by destruct s. Qed.

Lemma prefix_cons a s1 b s2 :
  String.prefix (String a s1) (String b s2) =
  if ascii_dec a b then String.prefix s1 s2 else false.
Proof. done. Qed.

(** Replacing the hyphen is a character-by-character substitution. *)
Lemma replace_hyphen s : PyStr.replace "-" " " s = separators_to_spaces s.
Proof.
  unfold PyStr.replace. induction s as [|c s IH]; [done|].
  rewrite replace_go_cons, prefix_cons, prefix_empty.
  change (String.length "-" - 1) with 0.
  change (separators_to_spaces (String c s)) with
    (String (if Ascii.eqb c "-" then " "%char else c) (separators_to_spaces s)).
  destruct (ascii_dec "-" c) as [<-|Hc].
  - by rewrite IH.
  - rewrite IH. f_equal.
    destruct (Ascii.eqb_spec c "-") as [->|_]; [by destruct Hc|done].
Qed.

Lemma chapter_entry_titles :
  Forall (λ f, entry_title (chapter_entry f) = Some (chapter_title f)
               ∧ chapter_title f = rendered_title f) CHAPTER_FILES.
Proof.
  unfold CHAPTER_FILES.
  repeat (apply Forall_cons; split; [split; vm_compute; reflexivity|]).
  constructor.
Qed.

(** C3 (as the script has it). For every filename of the fixed chapter list
    that exists in the chapter directory, the title of its entry in the
    "Chapters" section is the filename without the trailing [.md], with
    hyphens replaced by spaces and a leading chapter number N rendered as
    [N.], except that the leading [00] of the introduction is dropped, so
    that its title is "Introduction".  For every filename of the list other
    than the introduction this is the title as described. *)
Theorem chapter_titles_rendered rules_dir (d : Dir) :
  entry_title <$> chapters_section (toc_document rules_dir d)
    = (λ f, Some (rendered_title f)) <$> present_chapters d
  ∧ Forall (λ f, chapter_title f = rendered_title f) CHAPTER_FILES
  ∧ Forall (λ f, chapter_title f = described_title f) (tail CHAPTER_FILES)
  ∧ rendered_title "00-Introduction.md" = "Introduction".
Proof.
  split_and!.
  - rewrite chapters_section_eq, <-list_fmap_compose.
    apply Forall_fmap_ext_1, Forall_forall.
    intros f Hf%present_chapters_subseteq. simpl.
    destruct (proj1 (Forall_forall _ _) chapter_entry_titles f Hf) as [-> ->].
    done.
  - eapply Forall_impl; [apply chapter_entry_titles|]. by intros ? [??].
  - unfold CHAPTER_FILES; simpl tail.
    repeat (apply Forall_cons; split; [vm_compute; reflexivity|]).
    constructor.
  - by vm_compute.
Qed.

(** C3, as stated, fails on the introduction: its numeric prefix is not
    rendered as [N.] but removed, and the entry reads "Introduction". *)
Lemma chapter_title_introduction_not_as_described :
  "00-Introduction.md" ∈ CHAPTER_FILES
  ∧ is_file [("00-Introduction.md", RegularFile)] "00-Introduction.md" = true
  ∧ entry_title <$> chapters_section
      (toc_document "rules" [("00-Introduction.md", RegularFile)])
    = [Some "Introduction"]
  ∧ described_title "00-Introduction.md" = "00. Introduction"
  ∧ ¬ (∀ f, f ∈ CHAPTER_FILES → chapter_title f = described_title f).
Proof.
  split_and!; [by apply (bool_decide_unpack _)|by_evaluation..|].
  intros H.
  assert (Hin : "00-Introduction.md" ∈ CHAPTER_FILES)
    by (by apply (bool_decide_unpack _)).
  generalize (H _ Hin). by_evaluation.
Qed.

(** Outside the fixed list the chain of replacements reaches further than
    the prefix and the suffix: every digit and every [.md] is rewritten. *)
Lemma chapter_title_rewrites_every_digit :
  chapter_title "4-Testing-v2.md" = "4. Testing v2."
  ∧ described_title "4-Testing-v2.md" = "4. Testing v2"
  ∧ chapter_title "10-Notes.md.draft.md" = "1. Notes.draft".
Proof. by vm_compute. Qed.

(** C10. The title of an entry under "Other Files" is the filename with
    every [.md] removed and every hyphen replaced by a space, and nothing
    else: no chapter number is rewritten.  The file name
    [4-Testing-Validation.md] is displayed as "4. Testing Validation" when
    it is listed under "Chapters" and as "4 Testing Validation" when it is
    listed under "Other Files". *)
Theorem other_titles_not_beautified :
  (∀ name, other_title name =
           separators_to_spaces (PyStr.replace ".md" EmptyString name))
  ∧ (∀ d : Dir, other_section (other_files d) =
       match other_files d with
       | [] => []
       | others =>
           EmptyString :: "### Other Files" ::
             ((λ name, toc_entry (other_title name) ("../rules/" +:+ name))
                <$> others)
       end)
  ∧ entry_title <$> chapters_section
      (toc_document "rules" [("4-Testing-Validation.md", RegularFile)])
    = [Some "4. Testing Validation"]
  ∧ entry_title <$> other_files_section
      (toc_document "rules" [("4-Testing-Validation.md", Directory)])
    = [Some "4 Testing Validation"]
  ∧ other_title "4-Testing-Validation.md" = "4 Testing Validation"
  ∧ chapter_title "4-Testing-Validation.md" = "4. Testing Validation"
  ∧ other_title "1-Notes.md" ≠ chapter_title "1-Notes.md".
Proof.
  split_and!; [|by intros d; destruct (other_files d)|by_evaluation..].
  intros name. unfold other_title. apply replace_hyphen.
Qed.

(** ** The setup sequence: aborting runs *)

Module SetupFacts.
Import Setup.

#[local] Set Warnings "-clear-no-such-hyp".

Lemma bind_ok {A B} (m : M A) (k : A → M B) w a w' evs :
  m w = (Ok a, w', evs) →
  (m ≫= k) w = (let '(r, w'', evs') := k a w' in (r, w'', evs ++ evs')).
Proof. intros H. unfold mbind, M_bind. by rewrite H. Qed.

Lemma bind_run {A B} (m : M A) (k : A → M B) w a w1 e1 r w2 e2 :
  m w = (Ok a, w1, e1) → k a w1 = (r, w2, e2) →
  (m ≫= k) w = (r, w2, e1 ++ e2).
Proof. intros Hm Hk. unfold mbind, M_bind. by rewrite Hm, Hk. Qed.

Lemma emit_bind_log {A} ev (k : unit → M A) w r w' evs :
  (emit ev ≫= k) w = (r, w', evs) → ev ∈ evs.
Proof.
  unfold mbind, M_bind, emit. destruct (k () w) as [[r2 w2] e2].
  intros [= _ _ <-]. apply list_elem_of_here.
Qed.

Lemma bind_log_first {A B} (m : M A) (k : A → M B) ev w r w' evs :
  (∀ r1 w1 e1, m w = (r1, w1, e1) → ev ∈ e1) →
  (m ≫= k) w = (r, w', evs) → ev ∈ evs.
Proof.
  intros Hm. unfold mbind, M_bind.
  destruct (m w) as [[[a|e] w1] e1] eqn:Hmw.
  - destruct (k a w1) as [[r2 w2] e2]. intros [= _ _ <-].
    apply elem_of_app. left. by eapply Hm.
  - intros [= _ _ <-]. by eapply Hm.
Qed.

Lemma bind_raised {A B} (m : M A) (k : A → M B) w e w' evs :
  m w = (Raised e, w', evs) → (m ≫= k) w = (Raised e, w', evs).
Proof. intros H. unfold mbind, M_bind. by rewrite H. Qed.

(** Unfold the plumbing of a computation, leaving the filesystem
    primitives and the decisions about the world in place. *)
Ltac mstep :=
  unfold mbind, M_bind, mret, M_ret, when, sys_exit, raise, diag, emit, get,
    modify, try_except;
  cbn [negb andb orb app fst snd is_OSError is_Exception].

(** *** What a computation can log *)

Section Emits.
Context {A B : Type} (Φ : event → Prop).

Lemma emits_ret (a : A) : emits Φ (mret a).
Proof. intros w r w' evs [= <- <- <-]. constructor. Qed.

Lemma emits_raise e : emits Φ (raise (A:=A) e).
Proof. intros w r w' evs [= <- <- <-]. constructor. Qed.

Lemma emits_get : emits Φ get.
Proof. intros w r w' evs [= <- <- <-]. constructor. Qed.

Lemma emits_modify f : emits Φ (modify f).
Proof. intros w r w' evs [= <- <- <-]. constructor. Qed.

Lemma emits_emit ev : Φ ev → emits Φ (emit ev).
Proof. intros Hev w r w' evs [= <- <- <-]. by repeat constructor. Qed.

Lemma emits_bind (m : M A) (k : A → M B) :
  emits Φ m → (∀ a, emits Φ (k a)) → emits Φ (m ≫= k).
Proof.
  intros Hm Hk w r w' evs. unfold mbind, M_bind.
  destruct (m w) as [[[a|e] w1] evs1] eqn:Hmw.
  - destruct (k a w1) as [[r2 w2] evs2] eqn:Hkw. intros [= <- <- <-].
    apply Forall_app; split; [by eapply Hm|by eapply Hk].
  - intros [= <- <- <-]. by eapply Hm.
Qed.

Lemma emits_try_except caught (body : M A) handler :
  emits Φ body → (∀ e, emits Φ (handler e)) →
  emits Φ (try_except caught body handler).
Proof.
  intros Hb Hh w r w' evs. unfold try_except.
  destruct (body w) as [[[a|e] w1] evs1] eqn:Hbw.
  - intros [= <- <- <-]. by eapply Hb.
  - destruct (caught e).
    + destruct (handler e w1) as [[r2 w2] evs2] eqn:Hhw. intros [= <- <- <-].
      apply Forall_app; split; [by eapply Hb|by eapply Hh].
    + intros [= <- <- <-]. by eapply Hb.
Qed.
End Emits.

Lemma emits_for_each {A} Φ (f : A → M unit) l :
  (∀ x, emits Φ (f x)) → emits Φ (for_each f l).
Proof.
  intros Hf. induction l as [|x l IH]; simpl.
  - apply emits_ret.
  - apply emits_bind; [apply Hf|by intros _].
Qed.

Lemma emits_when Φ b m : emits Φ m → emits Φ (when b m).
Proof. destruct b; [done|intros _; apply emits_ret]. Qed.

Lemma emits_diag Φ d : Φ (Diag d) → emits Φ (diag d).
Proof. apply emits_emit. Qed.

(** Decompose a computation into its primitives, splitting on every
    test. *)
Ltac emits_go :=
  repeat first
    [ apply emits_ret | apply emits_raise | apply emits_get
    | apply emits_modify | apply emits_when | apply emits_for_each; intros ?
    | apply emits_bind; [|intros ?]
    | apply emits_try_except; [|intros ?]
    | match goal with
      | |- emits _ (if ?b then _ else _) => destruct b
      | |- emits _ (match ?x with _ => _ end) => destruct x
      | |- emits _ (let '(_, _) := ?x in _) => destruct x
      end ].

(** *** What a computation can raise *)

Section Raises.
Context {A B : Type} (Ψ : exn → Prop).

Lemma raises_ret (a : A) : raises Ψ (mret a).
Proof. by intros w e w' evs. Qed.

Lemma raises_get : raises Ψ get.
Proof. by intros w e w' evs. Qed.

Lemma raises_modify f : raises Ψ (modify f).
Proof. by intros w e w' evs. Qed.

Lemma raises_emit ev : raises Ψ (emit ev).
Proof. by intros w e w' evs. Qed.

Lemma raises_raise e : Ψ e → raises Ψ (raise (A:=A) e).
Proof. by intros He w e' w' evs [= <- _ _]. Qed.

Lemma raises_bind (m : M A) (k : A → M B) :
  raises Ψ m → (∀ a, raises Ψ (k a)) → raises Ψ (m ≫= k).
Proof.
  intros Hm Hk w e w' evs. unfold mbind, M_bind.
  destruct (m w) as [[[a|e1] w1] evs1] eqn:Hmw.
  - destruct (k a w1) as [[r2 w2] evs2] eqn:Hkw. intros [= -> <- <-].
    by eapply Hk.
  - intros [= <- <- <-]. by eapply Hm.
Qed.

End Raises.

Lemma raises_for_each {A} Ψ (f : A → M unit) l :
  (∀ x, raises Ψ (f x)) → raises Ψ (for_each f l).
Proof.
  intros Hf. induction l as [|x l IH]; simpl.
  - apply raises_ret.
  - apply raises_bind; [apply Hf|by intros _].
Qed.

Lemma raises_when Ψ b m : raises Ψ m → raises Ψ (when b m).
Proof. destruct b; [done|intros _; apply raises_ret]. Qed.

Ltac raises_go :=
  repeat first
    [ apply raises_ret | apply raises_get | apply raises_modify
    | apply raises_emit | apply raises_when
    | apply raises_for_each; intros ?
    | apply raises_bind; [|intros ?]
    | apply raises_raise; done
    | match goal with
      | |- raises _ (if ?b then _ else _) => destruct b
      | |- raises _ (match ?x with _ => _ end) => destruct x
      | |- raises _ (let '(_, _) := ?x in _) => destruct x
      end ].


(** Membership in a list that is written out. *)
Ltac in_list :=
  solve [repeat first [apply list_elem_of_here | apply list_elem_of_further]].

Section WithEnv.
Variable P : Payloads.
Variable E : Env.

Lemma check_prerequisites_spec w :
  ∃ evs,
    check_prerequisites E w =
      ((if tools_ok E then Ok (npm_ok E) else Raised (SystemExit 1)), w, evs)
    ∧ Forall is_probe evs.
Proof.
  unfold check_prerequisites, check_prereq, tools_ok.
  destruct (python_ok E), (git_ok E), (npm_ok E);
    (eexists; split; [reflexivity|]); repeat constructor.
Qed.

Lemma is_dir_nonroot c p w :
  is_dir (c :: p) w = (Ok (bool_decide (c :: p ∈ dirs w)), w, []).
Proof.
  unfold is_dir, get, mbind, M_bind, mret, M_ret. do 3 f_equal.
  apply bool_decide_ext. split; [by intros [|]|by right].
Qed.

Lemma verify_layout_spec w :
  ∃ evs,
    verify_layout w =
      ((if layout_ok w then Ok () else Raised (SystemExit 1)), w, evs)
    ∧ Forall is_probe evs.
Proof.
  unfold verify_layout, layout_ok. mstep. rewrite is_dir_nonroot.
  destruct (bool_decide ([".git"] ∈ dirs w)); mstep.
  - rewrite is_dir_nonroot.
    destruct (bool_decide (["rules"] ∈ dirs w)); mstep;
      (eexists; split; [reflexivity|]); repeat constructor.
  - (eexists; split; [reflexivity|]); repeat constructor.
Qed.

(** A run that lacks a mandatory tool or a part of the layout ends
    with exit status 1 after availability checks and messages only,
    and leaves the world as it found it. *)
Lemma main_aborts w :
  tools_ok E && layout_ok w = false →
  ∃ evs,
    main P E w = (Raised (SystemExit 1), w, evs) ∧ Forall is_probe evs.
Proof.
  intros Hpre. unfold main.
  destruct (check_prerequisites_spec w) as (evs1 & H1 & Hevs1).
  destruct (tools_ok E); simpl in Hpre.
  - rewrite (bind_ok _ _ _ _ _ _ H1).
    destruct (verify_layout_spec w) as (evs2 & H2 & Hevs2).
    rewrite Hpre in H2. rewrite (bind_raised _ _ _ _ _ _ H2).
    exists (evs1 ++ evs2). split; [done|by apply Forall_app].
  - rewrite (bind_raised _ _ _ _ _ _ H1). eauto.
Qed.

(** *** Failed writes *)





Lemma emits_mkdir_one Φ p : emits Φ (mkdir_one E p).
Proof. unfold mkdir_one. emits_go. Qed.

Lemma emits_mkdir Φ parents p : Φ (Mkdir p) → emits Φ (mkdir E parents p).
Proof.
  intros Hp. unfold mkdir.
  apply emits_bind; [by apply emits_emit|intros _].
  destruct parents; [apply emits_for_each; intros; apply emits_mkdir_one|].
  apply emits_bind; [apply emits_get|intros w].
  destruct (bool_decide _); [apply emits_mkdir_one|apply emits_raise].
Qed.

Lemma emits_open_write Φ p c : Φ (Write p c) → emits Φ (open_write E p c).
Proof.
  intros Hp. unfold open_write.
  apply emits_bind; [by apply emits_emit|intros _]. emits_go.
Qed.


















(** *** Running again in a settled world *)

Lemma stays_ret {A} w (a : A) : stays E w (mret a) a.
Proof. by exists []. Qed.

Lemma stays_get w : stays E w get w.
Proof. by exists []. Qed.

Lemma stays_emit w ev : benign E w ev → stays E w (emit ev) ().
Proof. exists [ev]. split; [done|by repeat constructor]. Qed.

Lemma stays_diag w d : stays E w (diag d) ().
Proof. by apply stays_emit. Qed.

Lemma stays_modify w f : f w = w → stays E w (modify f) ().
Proof. intros Hf. exists []. unfold modify. by rewrite Hf. Qed.

Lemma stays_bind {A B} w (m : M A) (k : A → M B) a b :
  stays E w m a → stays E w (k a) b → stays E w (m ≫= k) b.
Proof.
  intros (e1 & Hm & H1) (e2 & Hk & H2). exists (e1 ++ e2).
  split; [|by apply Forall_app].
  unfold mbind, M_bind. by rewrite Hm, Hk.
Qed.

Lemma fails_cleanly_raise {A} w e : fails_cleanly E w (raise (A:=A) e) e.
Proof. by exists []. Qed.

Lemma fails_cleanly_bind {A B} w (m : M A) (k : A → M B) a e :
  stays E w m a → fails_cleanly E w (k a) e → fails_cleanly E w (m ≫= k) e.
Proof.
  intros (e1 & Hm & H1) (e2 & Hk & H2). exists (e1 ++ e2).
  split; [|by apply Forall_app].
  unfold mbind, M_bind. by rewrite Hm, Hk.
Qed.

Lemma stays_try {A} w caught (body : M A) handler a :
  stays E w body a → stays E w (try_except caught body handler) a.
Proof.
  intros (evs & Hb & H). exists evs. split; [|done].
  unfold try_except. by rewrite Hb.
Qed.

Lemma stays_except {A} w caught (body : M A) handler e a :
  fails_cleanly E w body e → caught e = true → stays E w (handler e) a →
  stays E w (try_except caught body handler) a.
Proof.
  intros (e1 & Hb & H1) Hc (e2 & Hh & H2). exists (e1 ++ e2).
  split; [|by apply Forall_app].
  unfold try_except. by rewrite Hb, Hc, Hh.
Qed.

Lemma stays_for_each {A} w (f : A → M unit) l :
  Forall (λ x, stays E w (f x) ()) l → stays E w (for_each f l) ().
Proof.
  induction 1 as [|x l Hx _ IH]; simpl; [apply stays_ret|].
  by eapply stays_bind.
Qed.

Lemma self_in_ancestors c p : c :: p ∈ ancestors_and_self (c :: p).
Proof.
  revert c. induction p as [|c' p IH]; intros c.
  - apply list_elem_of_here.
  - change (ancestors_and_self (c :: c' :: p)) with
      ([c] :: ((c ::.) <$> ancestors_and_self (c' :: p))).
    apply list_elem_of_further, list_elem_of_fmap_2, IH.
Qed.

Lemma stays_mkdir_one w p : p ∈ dirs w → stays E w (mkdir_one E p) ().
Proof.
  intros Hp. unfold mkdir_one.
  eapply stays_bind; [apply stays_get|]. cbn beta.
  rewrite bool_decide_eq_true_2 by by right. apply stays_ret.
Qed.

Lemma stays_mkdir_parents w p :
  Forall (λ q, q ∈ dirs w) (ancestors_and_self p) →
  stays E w (mkdir E true p) ().
Proof.
  intros Hall. unfold mkdir.
  eapply stays_bind; [apply stays_emit|].
  - destruct p as [|c p]; [by left|right].
    apply (proj1 (Forall_forall _ _) Hall), self_in_ancestors.
  - apply stays_for_each.
    eapply Forall_impl; [done|]. intros q Hq. by apply stays_mkdir_one.
Qed.

Lemma stays_mkdir_top w c : [c] ∈ dirs w → stays E w (mkdir E false [c]) ().
Proof.
  intros Hc. unfold mkdir.
  eapply stays_bind; [apply stays_emit; simpl; by right|].
  eapply stays_bind; [apply stays_get|]. cbn beta.
  rewrite bool_decide_eq_true_2 by by left. by apply stays_mkdir_one.
Qed.

Lemma with_files_insert_id w p c :
  files w !! p = Some c → with_files <[p := c]> w = w.
Proof.
  intros Hp. destruct w as [f d b]; unfold with_files; simpl in *.
  by rewrite insert_id.
Qed.

Lemma stays_create_file w p c :
  Forall (λ q, q ∈ dirs w) (ancestors_and_self (parent p)) →
  files w !! p = Some c → ¬ refused E w p →
  stays E w (create_file E p c) ().
Proof.
  intros Hdirs Hfile Hfree. unfold create_file. apply stays_try.
  eapply stays_bind; [by apply stays_mkdir_parents|].
  unfold open_write.
  eapply stays_bind; [apply stays_emit; simpl; by left|].
  eapply stays_bind; [apply stays_get|]. cbn beta.
  rewrite bool_decide_eq_false_2 by done.
  by apply stays_modify, with_files_insert_id.
Qed.

(** A write that the filesystem refuses is reported and re-raised. *)
Lemma fails_cleanly_create_file w p c :
  Forall (λ q, q ∈ dirs w) (ancestors_and_self (parent p)) →
  refused E w p →
  fails_cleanly E w (create_file E p c) (OSError p).
Proof.
  intros Hdirs Href. unfold create_file.
  destruct (stays_mkdir_parents w (parent p) Hdirs) as (e1 & Hm & H1).
  exists (e1 ++ [Write p c] ++ [Diag (WriteError p)]). split.
  - unfold try_except, mbind at 1, M_bind at 1. rewrite Hm.
    unfold open_write, mbind, M_bind, emit, get, raise, diag; simpl.
    rewrite bool_decide_eq_true_2 by done. simpl.
    by rewrite <-!(assoc_L (++)).
  - apply Forall_app; split; [done|].
    apply Forall_cons; split; [simpl; by right|].
    by apply Forall_cons.
Qed.

Lemma probe_benign w evs : Forall is_probe evs → Forall (benign E w) evs.
Proof. intros H. eapply Forall_impl; [done|]. by intros []. Qed.

Lemma stays_check_prerequisites w :
  tools_ok E = true → stays E w (check_prerequisites E) (npm_ok E).
Proof.
  intros Htools. destruct (check_prerequisites_spec w) as (evs & Hrun & Hevs).
  rewrite Htools in Hrun. exists evs. auto using probe_benign.
Qed.

Lemma stays_verify_layout w : layout_ok w = true → stays E w verify_layout ().
Proof.
  intros Hlayout. destruct (verify_layout_spec w) as (evs & Hrun & Hevs).
  rewrite Hlayout in Hrun. exists evs. auto using probe_benign.
Qed.

Lemma stays_create_structure w :
  project_dirs ⊆ dirs w → stays E w (create_structure E) ().
Proof.
  intros Hdirs. unfold create_structure, project_dirs in *.
  eapply stays_bind; [apply stays_mkdir_top; set_solver|].
  eapply stays_bind; [apply stays_mkdir_top; set_solver|].
  eapply stays_bind; [apply stays_mkdir_top; set_solver|].
  apply stays_mkdir_parents. simpl.
  repeat (apply Forall_cons; split; [set_solver|]). constructor.
Qed.

Lemma stays_write_standard_files w :
  settled P E w → stays E w (write_standard_files P E) ().
Proof.
  intros [_ _ Hdirs Hfiles _ _ _].
  assert (Hfile : ∀ p c, (p, c) ∈ standard_files P →
            Forall (λ q, q ∈ dirs w) (ancestors_and_self (parent p)) →
            stays E w (create_file E p c) ()).
  { intros p c [??]%Hfiles ?. by apply stays_create_file. }
  clear Hfiles. unfold project_dirs in Hdirs. unfold write_standard_files.
  do 6 (eapply stays_bind;
    [apply Hfile;
     [unfold standard_files; in_list
     |simpl; repeat (apply Forall_cons; split; [set_solver|]); constructor]|]).
  apply Hfile;
     [unfold standard_files; in_list
     |simpl; repeat (apply Forall_cons; split; [set_solver|]); constructor].
Qed.

Lemma stays_copy_script w : settled P E w → stays E w (copy_script E) ().
Proof.
  intros [_ _ Hdirs _ Hscript _ _]. unfold copy_script.
  destruct (decide (target_script_path E ∈ dirs w)) as [Hdir|Hdir].
  { apply (stays_except _ _ _ _ (OSError (target_script_path E)));
      [|done|apply stays_diag].
    eapply fails_cleanly_bind; [apply stays_get|]. cbn beta.
    rewrite bool_decide_eq_true_2 by done. apply fails_cleanly_raise. }
  destruct (decide (files w !! target_script_path E = Some (self_script E)))
    as [Hsame|Hdiff].
  { apply stays_try. eapply stays_bind; [apply stays_get|]. cbn beta.
    rewrite bool_decide_eq_false_2, bool_decide_eq_true_2 by done.
    apply stays_ret. }
  destruct Hscript as [?|[?|Hdenied]]; [done..|].
  apply (stays_except _ _ _ _ (OSError (target_script_path E)));
    [|done|apply stays_diag].
  eapply fails_cleanly_bind; [apply stays_get|]. cbn beta.
  rewrite !bool_decide_eq_false_2 by done.
  eapply fails_cleanly_bind; [by apply stays_emit|].
  rewrite bool_decide_eq_true_2 by (by left). apply fails_cleanly_raise.
Qed.

Lemma stays_write_toc w : settled P E w → stays E w (write_toc E) ().
Proof.
  intros Hw.
  assert (Hdocs : Forall (λ q, q ∈ dirs w)
                    (ancestors_and_self (parent guide_toc_path))).
  { pose proof (settled_dirs _ _ _ Hw) as Hdirs. clear Hw.
    unfold project_dirs in Hdirs. simpl.
    repeat (apply Forall_cons; split; [set_solver|]). constructor. }
  destruct Hw as [_ _ _ _ _ Htoc _]. unfold write_toc.
  assert (Hwarn : ∀ msgs,
            stays E w (for_each (λ msg, diag (MissingChapter msg)) msgs) ()).
  { intros msgs. apply stays_for_each, Forall_forall. intros ??.
    apply stays_diag. }
  cbv zeta.
  destruct (decide (guide_toc_path ∈ dirs w ∨ guide_toc_path ∈ denied E))
    as [Href|Hfree].
  - apply (stays_except _ _ _ _ (OSError guide_toc_path)); [|done|].
    + eapply fails_cleanly_bind; [apply Hwarn|]. by apply fails_cleanly_create_file.
    + eapply stays_bind; apply stays_diag.
  - destruct Htoc as [Hdoc|?]; [|done].
    apply stays_try. eapply stays_bind; [apply Hwarn|].
    by apply stays_create_file.
Qed.

Lemma stays_setup_venv w : [".venv"] ∈ dirs w → stays E w (setup_venv E) ().
Proof.
  intros Hvenv. unfold setup_venv.
  eapply stays_bind; [exists []; split; [apply is_dir_nonroot|done]|].
  rewrite bool_decide_eq_true_2 by done. apply stays_ret.
Qed.

Lemma exec_npm_install w :
  exec E npm_install_command w = (Ok (npm_install_result E), w, []).
Proof.
  unfold exec. rewrite bool_decide_eq_false_2 by (by intros [=]).
  by rewrite bool_decide_eq_true_2.
Qed.

Lemma exec_git_list w :
  exec E git_list_command w =
    (Ok (Returned 0
           (if develop_branch w then "  develop" +:+ PyStr.LF else EmptyString)
           EmptyString), w, []).
Proof.
  unfold exec. rewrite bool_decide_eq_false_2 by (by intros [=]).
  by rewrite bool_decide_eq_false_2 by (by intros [=]).
Qed.

(** A command run with [check=False] returns whatever the command
    does. *)
Lemma stays_run_command_unchecked w command o :
  benign E w (Run command) →
  exec E command w = (Ok o, w, []) →
  ∃ res, stays E w (run_command E command false) res
         ∧ ∀ code out err, o = Returned code out err →
             res = (bool_decide (code = 0%Z), out, err).
Proof.
  intros Hrun Hexec.
  assert (Hstart : ∀ A (k : proc_outcome → M A) a,
            stays E w (k o) a →
            stays E w (emit (Run command);; out ← exec E command; k out) a).
  { intros A k a Hk. eapply stays_bind; [by apply stays_emit|].
    eapply stays_bind; [exists []; split; [exact Hexec|done]|done]. }
  unfold run_command.
  destruct o as [code out err| |msg].
  - eexists. split; [|by intros ??? [= <- <- <-]].
    apply Hstart. cbn [andb].
    eapply stays_bind; [|apply stays_ret].
    destruct (_ && _); [apply stays_diag|apply stays_ret].
  - eexists. split; [|done]. apply Hstart.
    eapply stays_bind; [apply stays_diag|apply stays_ret].
  - eexists. split; [|done]. apply Hstart.
    eapply stays_bind; [apply stays_diag|apply stays_ret].
Qed.

Lemma stays_install_tools w npm : stays E w (install_tools E npm) ().
Proof.
  unfold install_tools. destruct npm; [|apply stays_ret].
  destruct (stays_run_command_unchecked w npm_install_command
              (npm_install_result E)) as ([[success out] err] & Hrun & _);
    [by left|apply exec_npm_install|].
  eapply stays_bind; [exact Hrun|]. cbn beta iota.
  destruct (negb success); [|apply stays_ret].
  destruct (_ || _); apply stays_diag.
Qed.

Lemma stays_ensure_develop_branch w :
  develop_branch w = true → stays E w (ensure_develop_branch E) ().
Proof.
  intros Hbranch. unfold ensure_develop_branch.
  destruct (stays_run_command_unchecked w git_list_command _
              (or_intror eq_refl) (exec_git_list w))
    as ([[success out] err] & Hrun & Hres).
  specialize (Hres _ _ _ eq_refl). injection Hres as _ -> _.
  eapply stays_bind; [exact Hrun|]. cbn beta iota zeta.
  rewrite Hbranch. apply stays_ret.
Qed.

(** In a settled world the whole sequence runs to its end and changes
    nothing. *)
Lemma stays_main w : settled P E w → stays E w (main P E) ().
Proof.
  intros Hw. unfold main.
  eapply stays_bind; [apply stays_check_prerequisites, Hw|].
  eapply stays_bind; [apply stays_verify_layout, Hw|].
  eapply stays_bind.
  { apply stays_create_structure. pose proof (settled_dirs _ _ _ Hw). set_solver. }
  eapply stays_bind; [by apply stays_write_standard_files|].
  eapply stays_bind; [by apply stays_copy_script|].
  eapply stays_bind; [by apply stays_write_toc|].
  eapply stays_bind.
  { apply stays_setup_venv. pose proof (settled_dirs _ _ _ Hw). set_solver. }
  eapply stays_bind; [apply stays_install_tools|].
  apply stays_ensure_develop_branch, Hw.
Qed.

(** *** What a completed run has done *)

Lemma bind_inv_ok {A B} (m : M A) (k : A → M B) w b w2 evs :
  (m ≫= k) w = (Ok b, w2, evs) →
  ∃ a w1 e1 e2, m w = (Ok a, w1, e1) ∧ k a w1 = (Ok b, w2, e2)
                ∧ evs = e1 ++ e2.
Proof.
  unfold mbind, M_bind.
  destruct (m w) as [[[a|e] w1] e1]; [|done].
  destruct (k a w1) as [[r w2'] e2] eqn:Hk. intros [= -> <- <-].
  by exists a, w1, e1, e2.
Qed.

Lemma with_dirs_absorb D w : D ⊆ dirs w → with_dirs (D ∪.) w = w.
Proof.
  intros HD. destruct w as [f d b]; unfold with_dirs; simpl in *.
  f_equal. set_solver.
Qed.

Lemma with_dirs_with_dirs D1 D2 w :
  with_dirs (D2 ∪.) (with_dirs (D1 ∪.) w) = with_dirs ((D2 ∪ D1) ∪.) w.
Proof. unfold with_dirs; simpl. f_equal. set_solver. Qed.

Lemma mkdir_one_ok p w u w' evs :
  p ≠ [] → mkdir_one E p w = (Ok u, w', evs) →
  w' = with_dirs ({[p]} ∪.) w.
Proof.
  intros Hp. unfold mkdir_one. mstep.
  case_bool_decide as Hdir.
  { intros [= _ <- _]. symmetry. apply with_dirs_absorb.
    destruct Hdir; [done|set_solver]. }
  case_bool_decide; [done|]. by intros [= _ <- _].
Qed.

Lemma for_each_mkdir_one_ok ps w u w' evs :
  Forall (λ p, p ≠ []) ps →
  for_each (mkdir_one E) ps w = (Ok u, w', evs) →
  w' = with_dirs (list_to_set ps ∪.) w.
Proof.
  intros Hps. revert w evs. induction Hps as [|p ps Hp _ IH]; intros w evs.
  - intros [= _ <- _]. symmetry. apply with_dirs_absorb. set_solver.
  - simpl for_each. intros (?&w1&e1&e2&Hone&Hrest&_)%bind_inv_ok.
    apply mkdir_one_ok in Hone as ->; [|done].
    apply IH in Hrest as ->. rewrite with_dirs_with_dirs.
    unfold with_dirs. f_equal. simpl. set_solver.
Qed.

Lemma ancestors_nonempty p : Forall (λ q, q ≠ []) (ancestors_and_self p).
Proof.
  destruct p as [|c p]; simpl; [constructor|].
  apply Forall_cons; split; [done|].
  apply Forall_fmap, Forall_forall. by intros.
Qed.

Lemma mkdir_parents_ok p w u w' evs :
  mkdir E true p w = (Ok u, w', evs) →
  w' = with_dirs (list_to_set (ancestors_and_self p) ∪.) w.
Proof.
  unfold mkdir. intros (?&w1&e1&e2&[= _ <- _]&Hrest&_)%bind_inv_ok.
  eapply for_each_mkdir_one_ok; [apply ancestors_nonempty|done].
Qed.

Lemma mkdir_top_ok c w u w' evs :
  mkdir E false [c] w = (Ok u, w', evs) →
  w' = with_dirs ({[ [c] ]} ∪.) w.
Proof.
  unfold mkdir. intros (?&w1&e1&e2&[= _ <- _]&Hrest&_)%bind_inv_ok.
  apply bind_inv_ok in Hrest as (?&w2&e3&e4&[= <- <- _]&Hrest&_).
  rewrite bool_decide_eq_true_2 in Hrest by (by left).
  by eapply mkdir_one_ok.
Qed.

Lemma create_structure_ok w u w' evs :
  create_structure E w = (Ok u, w', evs) →
  w' = with_dirs (project_dirs ∪.) w.
Proof.
  unfold create_structure.
  intros (?&w1&?&?&->%mkdir_top_ok&Hrest&_)%bind_inv_ok.
  apply bind_inv_ok in Hrest as (?&w2&?&?&->%mkdir_top_ok&Hrest&_).
  apply bind_inv_ok in Hrest as (?&w3&?&?&->%mkdir_top_ok&Hrest&_).
  apply mkdir_parents_ok in Hrest as ->.
  rewrite !with_dirs_with_dirs. unfold with_dirs, project_dirs.
  f_equal; set_solver.
Qed.

Lemma open_write_ok p c w u w' evs :
  open_write E p c w = (Ok u, w', evs) →
  w' = with_files <[p := c]> w ∧ ¬ refused E w p.
Proof.
  unfold open_write. mstep. case_bool_decide; [done|]. by intros [= _ <- _].
Qed.

Lemma try_except_inv_ok {A} caught (body : M A) handler w a w' evs :
  try_except caught body handler w = (Ok a, w', evs) →
  body w = (Ok a, w', evs)
  ∨ ∃ e w1 e1 e2, body w = (Raised e, w1, e1) ∧ caught e = true
      ∧ handler e w1 = (Ok a, w', e2).
Proof.
  unfold try_except.
  destruct (body w) as [[[a1|e] w1] e1] eqn:Hb; [by left|].
  destruct (caught e) eqn:Hc; [|done].
  destruct (handler e w1) as [[r w2] e2] eqn:Hh. intros [= -> <- <-].
  right. by exists e, w1, e1, e2.
Qed.

Lemma create_file_ok p c w u w' evs :
  create_file E p c w = (Ok u, w', evs) →
  w' = with_files <[p := c]>
         (with_dirs (list_to_set (ancestors_and_self (parent p)) ∪.) w)
  ∧ ¬ refused E w' p.
Proof.
  unfold create_file. intros [Hbody|(e&w1&e1&e2&_&_&Hh)]%try_except_inv_ok.
  - apply bind_inv_ok in Hbody as (?&w1&?&?&->%mkdir_parents_ok&Hw&_).
    by apply open_write_ok in Hw as [-> ?].
  - by apply bind_inv_ok in Hh as (?&?&?&?&_&?&_).
Qed.

Lemma create_file_in_place p c w u w' evs :
  Forall (λ q, q ∈ dirs w) (ancestors_and_self (parent p)) →
  create_file E p c w = (Ok u, w', evs) →
  w' = with_files <[p := c]> w ∧ ¬ refused E w p.
Proof.
  intros Hdirs [-> Hfree]%create_file_ok.
  rewrite with_dirs_absorb in *; [done|..];
    intros q Hq%elem_of_list_to_set;
    by apply (proj1 (Forall_forall _ _) Hdirs).
Qed.

(** Membership in a list that is written out, case by case. *)
Ltac cases_of_list H :=
  repeat (apply elem_of_cons in H as [H|H]);
  [..|by apply not_elem_of_nil in H].

Lemma write_standard_files_ok w u w' evs :
  project_dirs ⊆ dirs w →
  write_standard_files P E w = (Ok u, w', evs) →
  dirs w' = dirs w
  ∧ develop_branch w' = develop_branch w
  ∧ (∀ p c, (p, c) ∈ standard_files P →
       files w' !! p = Some c ∧ ¬ refused E w p)
  ∧ (∀ q, q ∉ (standard_files P).*1 → files w' !! q = files w !! q).
Proof.
  intros Hdirs. unfold project_dirs in Hdirs.
  assert (Hanc : ∀ p, p ∈ (standard_files P).*1 → ∀ w0, dirs w0 = dirs w →
            Forall (λ q, q ∈ dirs w0) (ancestors_and_self (parent p))).
  { intros p Hp w0 ->. simpl in Hp. cases_of_list Hp; subst p; simpl;
      repeat (apply Forall_cons; split; [set_solver|]); constructor. }
  unfold write_standard_files.
  intros (?&w1&?&?&[-> H1]%create_file_in_place&Hrest&_)%bind_inv_ok;
    [|apply Hanc; [simpl; in_list|done]].
  apply bind_inv_ok in Hrest
    as (?&w2&?&?&[-> H2]%create_file_in_place&Hrest&_);
    [|apply Hanc; [simpl; in_list|done]].
  apply bind_inv_ok in Hrest
    as (?&w3&?&?&[-> H3]%create_file_in_place&Hrest&_);
    [|apply Hanc; [simpl; in_list|done]].
  apply bind_inv_ok in Hrest
    as (?&w4&?&?&[-> H4]%create_file_in_place&Hrest&_);
    [|apply Hanc; [simpl; in_list|done]].
  apply bind_inv_ok in Hrest
    as (?&w5&?&?&[-> H5]%create_file_in_place&Hrest&_);
    [|apply Hanc; [simpl; in_list|done]].
  apply bind_inv_ok in Hrest
    as (?&w6&?&?&[-> H6]%create_file_in_place&Hrest&_);
    [|apply Hanc; [simpl; in_list|done]].
  apply create_file_in_place in Hrest as [-> H7];
    [|apply Hanc; [simpl; in_list|done]].
  unfold refused in *; simpl in *.
  split_and!; [done..| |].
  - intros p c Hpc. unfold standard_files in Hpc.
    cases_of_list Hpc; injection Hpc as -> ->;
      (split; [by simplify_map_eq|done]).
  - intros q Hq. simpl in Hq.
    rewrite !not_elem_of_cons in Hq. destruct_and!.
    by rewrite !lookup_insert_ne.
Qed.

Lemma copy_script_ok w r w' evs :
  copy_script E w = (r, w', evs) →
  r = Ok ()
  ∧ dirs w' = dirs w
  ∧ develop_branch w' = develop_branch w
  ∧ (files w' !! target_script_path E = Some (self_script E)
     ∨ refused E w' (target_script_path E)
     ∨ parent (target_script_path E) ∉ dirs w)
  ∧ (∀ q, q ≠ target_script_path E → files w' !! q = files w !! q).
Proof.
  unfold copy_script, refused. mstep.
  case_bool_decide as Hdir; simpl.
  { intros [= <- <- _]. split_and!; auto. }
  case_bool_decide as Hsame; simpl.
  { intros [= <- <- _]. split_and!; auto. }
  case_bool_decide as Hdenied; simpl.
  { intros [= <- <- _]. split_and!; auto.
    destruct Hdenied; auto. }
  intros [= <- <- _]. simpl. split_and!; auto.
  - left. apply lookup_insert_eq.
  - intros q Hq. by rewrite lookup_insert_ne.
Qed.

Lemma for_each_diag_run {A} (f : A → diagnostic) l w :
  ∃ evs, for_each (λ x, diag (f x)) l w = (Ok (), w, evs).
Proof.
  induction l as [|x l [evs IH]]; simpl; [by eexists|].
  eexists. by eapply bind_run.
Qed.

Lemma write_toc_ok w r w' evs :
  ["docs"] ∈ dirs w →
  write_toc E w = (r, w', evs) →
  r = Ok ()
  ∧ dirs w' = dirs w
  ∧ develop_branch w' = develop_branch w
  ∧ (files w' !! guide_toc_path
       = Some (generate_toc_content (rules_dir E) (rules E)).1
     ∨ refused E w' guide_toc_path)
  ∧ (∀ q, q ≠ guide_toc_path → files w' !! q = files w !! q).
Proof.
  intros Hdocs.
  assert (Hanc : Forall (λ q, q ∈ dirs w)
                   (ancestors_and_self (parent guide_toc_path))).
  { simpl. by repeat constructor. }
  unfold write_toc. cbv zeta.
  generalize (generate_toc_content (rules_dir E) (rules E)). intros g.
  destruct (for_each_diag_run MissingChapter g.2 w) as [e0 Hwarn].
  unfold try_except, mbind at 1, M_bind at 1. rewrite Hwarn.
  destruct (decide (refused E w guide_toc_path)) as [Href|Hfree].
  - destruct (fails_cleanly_create_file w guide_toc_path g.1 Hanc Href)
      as (e1 & -> & _).
    simpl. intros [= <- <- _]. split_and!; auto.
  - destruct (create_file E guide_toc_path _ w) as [[[[]|e] w1] e1] eqn:Hc.
    + apply create_file_in_place in Hc as [-> _]; [|done].
      intros [= <- <- _]. simpl. split_and!; auto.
      * left. apply lookup_insert_eq.
      * intros q Hq. by rewrite lookup_insert_ne.
    + exfalso. revert Hc. unfold create_file, try_except.
      destruct (stays_mkdir_parents w (parent guide_toc_path) Hanc)
        as (e2 & Hm & _).
      unfold mbind at 1, M_bind at 1. rewrite Hm.
      unfold open_write, mbind, M_bind, emit, get, raise, diag, modify.
      simpl. by rewrite bool_decide_eq_false_2.
Qed.

Lemma exec_venv w :
  exec E (venv_command E) w =
    (Ok (venv_result E),
     if succeeded (venv_result E)
     then with_dirs ({[ [".venv"] ]} ∪.) w else w, []).
Proof.
  unfold exec. rewrite bool_decide_eq_true_2 by done.
  by destruct (succeeded (venv_result E)).
Qed.

Lemma exec_git_branch w :
  exec E git_branch_command w =
    (Ok (git_branch_result E),
     if succeeded (git_branch_result E)
     then with_develop_branch true w else w, []).
Proof.
  unfold exec. rewrite !bool_decide_eq_false_2 by (by intros [=]).
  rewrite bool_decide_eq_true_2 by done.
  by destruct (succeeded (git_branch_result E)).
Qed.

(** A command run with [check=True] returns only if it ended with
    status 0. *)
Lemma run_command_checked_ok command w o w1 res w' evs :
  exec E command w = (Ok o, w1, []) →
  run_command E command true w = (Ok res, w', evs) →
  succeeded o = true ∧ w' = w1.
Proof.
  intros Hexec. unfold run_command.
  unfold mbind at 1, M_bind at 1, emit.
  unfold mbind at 1, M_bind at 1. rewrite Hexec.
  destruct o as [code out err| |msg]; simpl.
  - case_bool_decide; simpl; [|done].
    destruct (_ && _); simpl; by intros [= _ <- _].
  - done.
  - done.
Qed.

Lemma setup_venv_ok w u w' evs :
  setup_venv E w = (Ok u, w', evs) →
  w' = with_dirs ({[ [".venv"] ]} ∪.) w.
Proof.
  unfold setup_venv.
  intros (venv&w1&?&?&Hdir&Hrest&_)%bind_inv_ok.
  rewrite is_dir_nonroot in Hdir. injection Hdir as <- <- _.
  case_bool_decide as Hvenv; simpl in Hrest.
  - injection Hrest as _ <- _. symmetry. apply with_dirs_absorb. set_solver.
  - apply bind_inv_ok in Hrest as ([[??]?]&w2&?&?&Hrun&Hrest&_).
    destruct (run_command_checked_ok _ _ _ _ _ _ _ (exec_venv _) Hrun)
      as [Hok ->].
    rewrite Hok in Hrest. by destruct (negb _); injection Hrest as _ <- _.
Qed.

Lemma install_tools_ok npm w r w' evs :
  install_tools E npm w = (r, w', evs) → r = Ok () ∧ w' = w.
Proof.
  destruct (stays_install_tools w npm) as (evs' & -> & _).
  by intros [= <- <- _].
Qed.

Lemma ensure_develop_branch_ok w u w' evs :
  ensure_develop_branch E w = (Ok u, w', evs) →
  w' = with_develop_branch true w.
Proof.
  unfold ensure_develop_branch.
  destruct (stays_run_command_unchecked w git_list_command _
              (or_intror eq_refl) (exec_git_list w))
    as ([[success out] err] & (e1 & Hrun & _) & Hres).
  specialize (Hres _ _ _ eq_refl). injection Hres as _ -> _.
  unfold mbind at 1, M_bind at 1. rewrite Hrun. cbn beta iota zeta.
  destruct (develop_branch w) eqn:Hb.
  - destruct w. simpl in *. subst. by intros [= _ <- _].
  - change (negb (PyStr.contains "develop" (PyStr.strip EmptyString)))
      with true. cbn iota.
    destruct ((run_command E git_branch_command true ≫= _) w)
      as [[[res|e] w1] e2] eqn:Hrest; [|done].
    intros [= _ <- _].
    apply bind_inv_ok in Hrest as ([[??]?]&w2&?&?&Hrun2&Hrest&_).
    destruct (run_command_checked_ok _ _ _ _ _ _ _ (exec_git_branch _) Hrun2)
      as [Hok ->].
    rewrite Hok in Hrest. by destruct (negb _); injection Hrest as _ <- _.
Qed.

Lemma standard_paths_apart p c :
  (p, c) ∈ standard_files P →
  p ∈ (standard_files P).*1
  ∧ p ≠ target_script_path E ∧ p ≠ guide_toc_path ∧ p ≠ [".venv"].
Proof.
  intros Hpc. unfold standard_files in *.
  cases_of_list Hpc; injection Hpc as -> ->;
    (split; [simpl; in_list|by split_and!]).
Qed.

(** A run that reaches the end of the sequence leaves a settled world. *)
Lemma main_settles w u w1 evs :
  main P E w = (Ok u, w1, evs) → settled P E w1.
Proof.
  unfold main.
  intros (npm&wa&?&?&Hpre&Hrest&_)%bind_inv_ok.
  destruct (check_prerequisites_spec w) as (?&Hspec&_).
  rewrite Hspec in Hpre. clear Hspec.
  destruct (tools_ok E) eqn:Htools; [|done]. injection Hpre as <- <- _.
  apply bind_inv_ok in Hrest as (?&wb&?&?&Hlay&Hrest&_).
  destruct (verify_layout_spec w) as (?&Hspec&_).
  rewrite Hspec in Hlay. clear Hspec.
  destruct (layout_ok w) eqn:Hlayout; [|done]. injection Hlay as _ <- _.
  apply bind_inv_ok in Hrest as (?&wc&?&?&->%create_structure_ok&Hrest&_).
  apply bind_inv_ok in Hrest as (?&wd&?&?&Hstd&Hrest&_).
  apply write_standard_files_ok in Hstd
    as (Hd_dirs&Hd_br&Hd_files&_); [|simpl; set_solver].
  apply bind_inv_ok in Hrest as (?&we&?&?&Hcopy&Hrest&_).
  apply copy_script_ok in Hcopy as (_&He_dirs&He_br&He_script&He_frame).
  apply bind_inv_ok in Hrest as (?&wf&?&?&Htoc&Hrest&_).
  apply write_toc_ok in Htoc as (_&Hf_dirs&Hf_br&Hf_toc&Hf_frame);
    [|rewrite He_dirs, Hd_dirs; unfold project_dirs; simpl; set_solver].
  apply bind_inv_ok in Hrest as (?&wg&?&?&->%setup_venv_ok&Hrest&_).
  apply bind_inv_ok in Hrest as (?&wh&?&?&[_ ->]%install_tools_ok&Hrest&_).
  apply ensure_develop_branch_ok in Hrest as ->.
  apply andb_prop in Hlayout as [Hgit%bool_decide_eq_true
                                   Hrules%bool_decide_eq_true].
  simpl in Hd_dirs, Hd_br.
  assert (Hdirs : dirs wf = project_dirs ∪ dirs w).
  { by rewrite Hf_dirs, He_dirs, Hd_dirs. }
  unfold refused in *. simpl in Hd_files.
  rewrite Hf_dirs, He_dirs, Hd_dirs in Hf_toc.
  rewrite He_dirs, Hd_dirs in He_script.
  split; unfold refused;
    cbn [dirs files develop_branch with_dirs with_files with_develop_branch];
    rewrite ?Hdirs.
  - done.
  - unfold layout_ok; simpl. rewrite Hdirs.
    apply andb_true_intro; split; apply bool_decide_eq_true;
      clear -Hgit Hrules; set_solver.
  - clear -w; set_solver.
  - intros p c Hpc.
    destruct (standard_paths_apart p c Hpc) as (Hin&Hp1&Hp2&Hp3).
    destruct (Hd_files p c Hpc) as [Hfile Hfree].
    rewrite Hf_frame, He_frame by done. split; [done|].
    intros [Hdir|Hden]; apply Hfree; [left|by right].
    by apply elem_of_union in Hdir as [?%elem_of_singleton|?].
  - destruct He_script as [Hs|[Hs|Hs]].
    + left. rewrite Hf_frame; [done|]. by intros [=].
    + right. destruct Hs as [Hs|Hs]; [left|by right].
      apply elem_of_union. by right.
    + destruct Hs. change (parent (target_script_path E)) with ["scripts"].
      clear -w; unfold project_dirs; set_solver.
  - destruct Hf_toc as [Ht|[Ht|Ht]];
      [left; exact Ht|right; left|right; right; exact Ht].
    apply elem_of_union. right. exact Ht.
  - done.
Qed.

Lemma run_command_logs_run command check w r w' evs :
  run_command E command check w = (r, w', evs) → Run command ∈ evs.
Proof. unfold run_command. apply emit_bind_log. Qed.

Lemma install_tools_logs_run w r w' evs :
  install_tools E true w = (r, w', evs) → Run npm_install_command ∈ evs.
Proof.
  unfold install_tools. apply bind_log_first.
  intros r1 w1 e1. apply run_command_logs_run.
Qed.

(** Whenever npm is available a completed run has invoked the global
    installation of the linter. *)
Lemma main_logs_install w u w' evs :
  npm_ok E = true → main P E w = (Ok u, w', evs) →
  Run npm_install_command ∈ evs.
Proof.
  intros Hnpm. unfold main.
  intros (npm&wa&?&?&Hpre&Hrest&->)%bind_inv_ok.
  destruct (check_prerequisites_spec w) as (?&Hspec&_).
  rewrite Hspec in Hpre. clear Hspec.
  destruct (tools_ok E); [|done]. injection Hpre as <- <- _.
  rewrite Hnpm in Hrest.
  do 6 (apply bind_inv_ok in Hrest as (?&?&?&?&_&Hrest&->)).
  apply bind_inv_ok in Hrest as (?&?&?&?&Hinst%install_tools_logs_run&_&->).
  rewrite !elem_of_app. tauto.
Qed.

End WithEnv.
End SetupFacts.

(** ** The setup sequence: claims *)

Section SetupClaims.
Import Setup SetupFacts.




(** C8. A run started in a directory that lacks [.git] or [rules/] ends
    with exit status 1 and leaves every file and directory as it was: its
    log holds availability checks and messages only, no directory
    creation, no write, no copy and no command. *)
Theorem no_write_without_layout P E (w : World) :
  [".git"] ∉ dirs w ∨ ["rules"] ∉ dirs w →
  let run := main P E w in
  world_of run = w
  ∧ result_of run = Raised (SystemExit 1)
  ∧ exit_code (result_of run) = 1%Z
  ∧ Forall is_probe (log_of run).
Proof.
  intros Hlayout run. subst run.
  destruct (main_aborts P E w) as (evs & -> & Hevs); [|done].
  apply andb_false_iff. right. unfold layout_ok.
  apply andb_false_iff.
  destruct Hlayout; [left|right]; by apply bool_decide_eq_false.
Qed.

Lemma no_write_without_layout_witness :
  let run := main example_payloads (example_env ∅ done_quietly done_quietly)
               not_a_repository in
  ([".git"] ∉ dirs not_a_repository ∨ ["rules"] ∉ dirs not_a_repository)
  ∧ world_of run = not_a_repository
  ∧ result_of run = Raised (SystemExit 1)
  ∧ exit_code (result_of run) = 1%Z
  ∧ Forall is_probe (log_of run).
Proof.
  cbv zeta.
  assert (H : [".git"] ∉ dirs not_a_repository ∨ ["rules"] ∉ dirs not_a_repository).
  { left. apply (bool_decide_unpack _). vm_compute. exact I. }
  split; [exact H|].
  exact (no_write_without_layout example_payloads _ _ H).
Defined.

(** C5, where the script departs from it. With every tool present and
    the layout in place, a [python -m venv] that ends with status 1 makes
    [run_command] raise (it is called with its default [check=True]): the
    run ends there with an uncaught [CalledProcessError], exit status 1,
    and neither the linter nor the branch step runs.  The linter is
    installed with [check=False]: its failure leaves the exit status 0. *)
Lemma venv_failure_exit_status :
  let failed := Returned 1 EmptyString "Error: unable to create .venv" in
  let run := main example_payloads (example_env ∅ failed done_quietly) fresh_clone in
  tools_ok (example_env ∅ failed done_quietly) = true
  ∧ layout_ok fresh_clone = true
  ∧ result_of run =
      Raised (CalledProcessError ["/usr/bin/python3"; "-m"; "venv"; ".venv"] 1)
  ∧ exit_code (result_of run) = 1%Z
  ∧ last (log_of run) =
      Some (Diag (CommandError ["/usr/bin/python3"; "-m"; "venv"; ".venv"]))
  ∧ (Run npm_install_command ∉ log_of run)
  ∧ (Run git_list_command ∉ log_of run)
  ∧ (Diag VenvError ∉ log_of run).
Proof.
  cbv zeta. split_and!; try by_evaluation;
    apply (bool_decide_unpack _); by_evaluation.
Qed.

(** The same happens one step from the end, when [git branch develop]
    ends with a status other than 0. *)
Lemma branch_failure_exit_status :
  let failed := Returned 128 EmptyString "fatal: not a valid object name" in
  let run := main example_payloads (example_env ∅ done_quietly failed)
               fresh_clone in
  result_of run = Raised (CalledProcessError ["git"; "branch"; "develop"] 128)
  ∧ exit_code (result_of run) = 1%Z
  ∧ Diag BranchError ∉ log_of run.
Proof.
  cbv zeta. split_and!; try by_evaluation;
    apply (bool_decide_unpack _); by_evaluation.
Qed.

(** The other two exits the claim names do hold: a missing mandatory tool
    or layout precondition gives exit status 1, and a run that reaches
    the end of the sequence gives 0. *)
Lemma exit_status_of_preconditions P E (w : World) :
  let run := main P E w in
  (tools_ok E && layout_ok w = false → exit_code (result_of run) = 1%Z)
  ∧ (∀ u, result_of run = Ok u → exit_code (result_of run) = 0%Z).
Proof.
  intros run. subst run. split.
  - intros Hpre. by destruct (main_aborts P E w Hpre) as (evs & -> & _).
  - by intros u ->.
Qed.

(** C9 (as the script has it). After a run that reached the end of the
    sequence, a second run from the state it left reaches the end too and
    leaves every file, every directory and the branch exactly as they
    were: each write of the second run stores the content the file
    already holds (or is refused, as it was the first time), no directory
    is created, nothing is copied, no virtual environment and no branch
    is created.  What does recur is the global installation of the
    linter: whenever npm is available, the second run invokes it again. *)
Theorem second_run_changes_nothing P E (w : World) :
  let run1 := main P E w in
  result_of run1 = Ok () →
  let run2 := main P E (world_of run1) in
  result_of run2 = Ok ()
  ∧ world_of run2 = world_of run1
  ∧ Forall (benign E (world_of run1)) (log_of run2)
  ∧ (npm_ok E = true → Run npm_install_command ∈ log_of run2).
Proof.
  intros run1 Hok run2. subst run1 run2.
  destruct (main P E w) as [[r w1] evs1] eqn:Hrun1.
  unfold result_of, world_of, log_of in *; simpl in *. subst r.
  apply main_settles in Hrun1.
  destruct (stays_main P E w1 Hrun1) as (evs2 & Hrun2 & Hbenign).
  rewrite Hrun2; simpl. split_and!; [done..|].
  intros Hnpm. by eapply main_logs_install.
Qed.

Lemma second_run_changes_nothing_witness :
  let P := example_payloads in
  let E := example_env ∅ done_quietly done_quietly in
  let run1 := main P E fresh_clone in
  let run2 := main P E (world_of run1) in
  result_of run1 = Ok ()
  ∧ result_of run2 = Ok ()
  ∧ world_of run2 = world_of run1
  ∧ Forall (benign E (world_of run1)) (log_of run2)
  ∧ (npm_ok E = true → Run npm_install_command ∈ log_of run2).
Proof.
  cbv zeta.
  assert (Hok : result_of (main example_payloads (example_env ∅ done_quietly done_quietly)
                             fresh_clone) = Ok ()) by (by vm_compute).
  split; [exact Hok|].
  exact (second_run_changes_nothing _ _ _ Hok).
Defined.

(** C9, as stated, fails on the linter: from a fresh clone with npm
    available, the second run leaves the files as they were but once more
    runs [npm install -g markdownlint-cli], which is no rewriting of a
    file with identical content. *)
Lemma second_run_reinstalls_linter :
  let P := example_payloads in
  let E := example_env ∅ done_quietly done_quietly in
  let run1 := main P E fresh_clone in
  let run2 := main P E (world_of run1) in
  result_of run1 = Ok ()
  ∧ result_of run2 = Ok ()
  ∧ map_to_list (files (world_of run2)) = map_to_list (files (world_of run1))
  ∧ Run ["npm"; "install"; "-g"; "markdownlint-cli"] ∈ log_of run2
  ∧ ¬ Forall (rewrites_only (world_of run1)) (log_of run2).
Proof.
  cbv zeta.
  assert (Hin : Run ["npm"; "install"; "-g"; "markdownlint-cli"] ∈
    log_of (main example_payloads (example_env ∅ done_quietly done_quietly)
      (world_of (main example_payloads (example_env ∅ done_quietly done_quietly)
                   fresh_clone)))).
  { apply (bool_decide_unpack _). by_evaluation. }
  split_and!; [by_evaluation..|exact Hin|].
  intros Hall. by apply (proj1 (Forall_forall _ _) Hall) in Hin.
Qed.

End SetupClaims.

(** ** Footprints of computations *)

(** The lemmas of this part describe what a computation logs, changes
    and raises, step by step; the properties of the helpers and of the
    sequence that follow are assembled from them. *)

Module Footprints.
Import Setup SetupFacts.
#[local] Set Warnings "-clear-no-such-hyp".

Global Instance touches_preorder ps D : PreOrder (touches ps D).
Proof.
  split.
  - intros w. split_and!; [done|done|set_solver|done].
  - intros w1 w2 w3 (Hf1&Hd1&Hn1&Hb1) (Hf2&Hd2&Hn2&Hb2). split_and!.
    + intros q Hq. by rewrite Hf2, Hf1.
    + set_solver.
    + set_solver.
    + auto.
Qed.

Lemma touches_mono ps ps' D D' w w' :
  ps ⊆ ps' → D ⊆ D' → touches ps D w w' → touches ps' D' w w'.
Proof.
  intros Hps HD (Hf&Hd&Hn&Hb). split_and!; [|done|set_solver|done].
  intros q Hq. apply Hf. intros Hin. by apply Hq, Hps.
Qed.

Section Keeps.
Context {A B : Type} (R : World → World → Prop) `{!PreOrder R}.

Lemma keeps_ret (a : A) : keeps R (mret a).
Proof. by intros w r w' evs [= _ <- _]. Qed.

Lemma keeps_raise e : keeps R (raise (A:=A) e).
Proof. by intros w r w' evs [= _ <- _]. Qed.

Lemma keeps_get : keeps R get.
Proof. by intros w r w' evs [= _ <- _]. Qed.

Lemma keeps_emit ev : keeps R (emit ev).
Proof. by intros w r w' evs [= _ <- _]. Qed.

Lemma keeps_modify f : (∀ w, R w (f w)) → keeps R (modify f).
Proof. intros Hf w r w' evs [= _ <- _]. apply Hf. Qed.

Lemma keeps_bind (m : M A) (k : A → M B) :
  keeps R m → (∀ a, keeps R (k a)) → keeps R (m ≫= k).
Proof.
  intros Hm Hk w r w' evs. unfold mbind, M_bind.
  destruct (m w) as [[[a|e] w1] evs1] eqn:Hmw.
  - destruct (k a w1) as [[r2 w2] evs2] eqn:Hkw. intros [= _ <- _].
    etrans; [by eapply Hm|by eapply Hk].
  - intros [= _ <- _]. by eapply Hm.
Qed.

Lemma keeps_try_except caught (body : M A) handler :
  keeps R body → (∀ e, keeps R (handler e)) →
  keeps R (try_except caught body handler).
Proof.
  intros Hb Hh w r w' evs. unfold try_except.
  destruct (body w) as [[[a|e] w1] evs1] eqn:Hbw.
  - intros [= _ <- _]. by eapply Hb.
  - destruct (caught e).
    + destruct (handler e w1) as [[r2 w2] evs2] eqn:Hhw. intros [= _ <- _].
      etrans; [by eapply Hb|by eapply Hh].
    + intros [= _ <- _]. by eapply Hb.
Qed.
End Keeps.

Lemma keeps_for_each {A} R `{!PreOrder R} (f : A → M unit) l :
  (∀ x, keeps R (f x)) → keeps R (for_each f l).
Proof.
  intros Hf. induction l as [|x l IH]; simpl.
  - by apply keeps_ret.
  - apply keeps_bind; [done|apply Hf|by intros _].
Qed.

Lemma keeps_when R `{!PreOrder R} b m : keeps R m → keeps R (when b m).
Proof. destruct b; [done|intros _; by apply keeps_ret]. Qed.

Lemma keeps_diag R `{!PreOrder R} d : keeps R (diag d).
Proof. by apply keeps_emit. Qed.

Lemma keeps_mono {A} (R R' : World → World → Prop) (m : M A) :
  (∀ w w', R w w' → R' w w') → keeps R m → keeps R' m.
Proof. intros HR Hm w r w' evs Hrun. by eapply HR, Hm. Qed.

(** Decompose a computation into its primitives, splitting on every
    test; what is left are the changes to the world. *)
Ltac keeps_go :=
  repeat first
    [ apply keeps_ret; [apply _] | apply keeps_raise; [apply _]
    | apply keeps_get; [apply _] | apply keeps_emit; [apply _]
    | apply keeps_diag; [apply _]
    | apply keeps_when; [apply _|]
    | apply keeps_for_each; [apply _|intros ?]
    | apply keeps_bind; [apply _| |intros ?]
    | apply keeps_try_except; [apply _| |intros ?]
    | match goal with
      | |- keeps _ (if ?b then _ else _) => destruct b
      | |- keeps _ (match ?x with _ => _ end) => destruct x
      | |- keeps _ (let '(_, _) := ?x in _) => destruct x
      end ].

Section Within.
Context {A B X : Type} (f : event → option X).

Lemma omap_none evs : Forall (λ ev, f ev = None) evs → omap f evs = [].
Proof. induction 1 as [|ev evs Hev _ IH]; simpl; [done|]. by rewrite Hev. Qed.

Lemma within_emits l (m : M A) : emits (λ ev, f ev = None) m → within f l m.
Proof.
  intros Hm w r w' evs Hrun. rewrite omap_none by by eapply Hm.
  apply sublist_nil_l.
Qed.


Lemma within_bind l1 l2 (m : M A) (k : A → M B) :
  within f l1 m → (∀ a, within f l2 (k a)) → within f (l1 ++ l2) (m ≫= k).
Proof.
  intros Hm Hk w r w' evs. unfold mbind, M_bind.
  destruct (m w) as [[[a|e] w1] evs1] eqn:Hmw.
  - destruct (k a w1) as [[r2 w2] evs2] eqn:Hkw. intros [= _ _ <-].
    rewrite omap_app. apply sublist_app; [by eapply Hm|by eapply Hk].
  - intros [= _ _ <-]. apply sublist_inserts_r. by eapply Hm.
Qed.


(** What is not in the list is not in the log. *)
Lemma within_emits_not l (m : M A) x :
  x ∉ l → within f l m → emits (λ ev, f ev ≠ Some x) m.
Proof.
  intros Hx Hm w r w' evs Hrun. apply Forall_forall. intros ev Hev Hf.
  apply Hx. eapply elem_of_sublist; [|by eapply Hm].
  apply list_elem_of_omap. by exists ev.
Qed.
End Within.

(** A step that selects nothing, before or after others. *)
Lemma within_skip_bind {A B X} (f : event → option X) l (m : M A) (k : A → M B) :
  emits (λ ev, f ev = None) m → (∀ a, within f l (k a)) →
  within f l (m ≫= k).
Proof.
  intros Hm Hk. change l with ([] ++ l).
  apply within_bind; [by apply within_emits|done].
Qed.

Lemma within_bind_skip {A B X} (f : event → option X) l (m : M A) (k : A → M B) :
  within f l m → (∀ a, emits (λ ev, f ev = None) (k a)) →
  within f l (m ≫= k).
Proof.
  intros Hm Hk. rewrite <-(app_nil_r l).
  apply within_bind; [done|]. intros a. by apply within_emits.
Qed.

Section Maintains.
Context {A B : Type} (I : World → Prop) (Φ : event → Prop).

Lemma maintains_bind (m : M A) (k : A → M B) :
  maintains I Φ m → (∀ a, maintains I Φ (k a)) → maintains I Φ (m ≫= k).
Proof.
  intros Hm Hk w r w' evs HI. unfold mbind, M_bind.
  destruct (m w) as [[[a|e] w1] evs1] eqn:Hmw.
  - destruct (k a w1) as [[r2 w2] evs2] eqn:Hkw. intros [= _ <- <-].
    destruct (Hm _ _ _ _ HI Hmw) as [HI1 H1].
    destruct (Hk _ _ _ _ _ HI1 Hkw) as [HI2 H2].
    split; [done|by apply Forall_app].
  - intros [= _ <- <-]. by eapply Hm.
Qed.

(** A step whose events are in [Φ] whatever the world, and whose
    changes respect [I]. *)
Lemma maintains_intro R (m : M A) :
  (∀ w w', R w w' → I w → I w') → keeps R m → emits Φ m → maintains I Φ m.
Proof.
  intros HR Hk He w r w' evs HI Hrun. split; [|by eapply He].
  eapply HR; [by eapply Hk|done].
Qed.

(** A step that, from a world in [I], changes nothing. *)
Lemma maintains_stays (m : M A) :
  (∀ w, I w → ∃ a evs, m w = (Ok a, w, evs) ∧ Forall Φ evs) →
  maintains I Φ m.
Proof.
  intros Hm w r w' evs HI Hrun.
  destruct (Hm w HI) as (a & evs' & Hrun' & Hevs).
  rewrite Hrun' in Hrun. by injection Hrun as _ <- <-.
Qed.
End Maintains.

Lemma emits_mono {A} (Φ Φ' : event → Prop) (m : M A) :
  (∀ ev, Φ ev → Φ' ev) → emits Φ m → emits Φ' m.
Proof. intros HΦ Hm w r w' evs Hrun. eapply Forall_impl; [by eapply Hm|done]. Qed.

Lemma bind_then {A B} (m : M A) (k : A → M B) w a w1 e1 :
  m w = (Ok a, w1, e1) →
  ∃ r w2 e2, k a w1 = (r, w2, e2) ∧ (m ≫= k) w = (r, w2, e1 ++ e2).
Proof.
  intros Hm. destruct (k a w1) as [[r w2] e2] eqn:Hk.
  exists r, w2, e2. split; [done|]. by apply (bind_run _ _ _ a w1).
Qed.

End Footprints.

Module StepFacts.
Import Setup SetupFacts Footprints.
#[local] Set Warnings "-clear-no-such-hyp".

Ltac leaf :=
  first [ apply emits_emit | apply emits_diag ];
  first [ reflexivity | by split ].

Ltac leaves := emits_go; try leaf.

Section WithEnv.
Variable P : Payloads.
Variable E : Env.

(** *** What each step logs *)

Lemma silent_no_run {A} (m : M A) : emits silent m → emits no_run m.
Proof. apply emits_mono. by intros ev [??]. Qed.

Lemma silent_no_write {A} (m : M A) : emits silent m → emits no_write m.
Proof. apply emits_mono. by intros ev [??]. Qed.

Lemma silent_check_prerequisites : emits silent (check_prerequisites E).
Proof. unfold check_prerequisites, check_prereq, sys_exit. leaves. Qed.

Lemma silent_verify_layout : emits silent verify_layout.
Proof. unfold verify_layout, is_dir, sys_exit. leaves. Qed.

Lemma silent_mkdir parents p : emits silent (mkdir E parents p).
Proof. by apply emits_mkdir. Qed.

Lemma silent_create_structure : emits silent (create_structure E).
Proof.
  unfold create_structure.
  do 3 (apply emits_bind; [apply silent_mkdir|intros _]). apply silent_mkdir.
Qed.

Lemma silent_copy_script : emits silent (copy_script E).
Proof. unfold copy_script. leaves. Qed.

Lemma no_run_create_file p c : emits no_run (create_file E p c).
Proof.
  unfold create_file. apply emits_try_except; [|intros e; leaves].
  apply emits_bind; [apply silent_no_run, silent_mkdir|intros _].
  by apply emits_open_write.
Qed.

Lemma no_run_write_standard_files : emits no_run (write_standard_files P E).
Proof.
  unfold write_standard_files.
  do 6 (apply emits_bind; [apply no_run_create_file|intros _]).
  apply no_run_create_file.
Qed.

Lemma no_run_write_toc : emits no_run (write_toc E).
Proof.
  unfold write_toc. apply emits_try_except; [|intros _; leaves]. cbv zeta.
  apply emits_bind; [leaves|intros _; apply no_run_create_file].
Qed.

Lemma emits_exec Φ command : emits Φ (exec E command).
Proof. unfold exec. emits_go. Qed.

Lemma no_write_run_command command check :
  emits no_write (run_command E command check).
Proof.
  unfold run_command.
  apply emits_bind; [by apply emits_emit|intros _].
  apply emits_bind; [apply emits_exec|intros o]. leaves.
Qed.

Lemma no_write_setup_venv : emits no_write (setup_venv E).
Proof.
  unfold setup_venv, is_dir.
  apply emits_bind; [leaves|intros venv]. destruct venv; simpl; [leaves|].
  apply emits_bind; [apply no_write_run_command|intros [[??]?]]. leaves.
Qed.

Lemma no_write_install_tools npm : emits no_write (install_tools E npm).
Proof.
  unfold install_tools. destruct npm; [|leaves].
  apply emits_bind; [apply no_write_run_command|intros [[??]?]]. leaves.
Qed.

Lemma no_write_ensure_develop_branch : emits no_write (ensure_develop_branch E).
Proof.
  unfold ensure_develop_branch.
  apply emits_bind; [apply no_write_run_command|intros [[??]?]].
  destruct (negb _); [|leaves].
  apply emits_bind; [apply no_write_run_command|intros [[??]?]]. leaves.
Qed.

(** *** The writes and the commands of each step, in order *)

Lemma within_emit {X} (f : event → option X) ev x :
  f ev = Some x → within f [x] (emit ev).
Proof. intros Hf w r w' evs [= _ _ <-]. simpl. by rewrite Hf. Qed.

Lemma within_cons_bind {A B X} (f : event → option X) x l
    (m : M A) (k : A → M B) :
  within f [x] m → (∀ a, within f l (k a)) → within f (x :: l) (m ≫= k).
Proof. apply (within_bind f [x] l). Qed.




Lemma runs_run_command command check :
  within run_of [command] (run_command E command check).
Proof.
  unfold run_command.
  apply within_bind_skip; [by apply within_emit|intros _].
  apply emits_bind; [apply emits_exec|intros o]. leaves.
Qed.

Lemma runs_setup_venv : within run_of [venv_command E] (setup_venv E).
Proof.
  unfold setup_venv, is_dir.
  apply within_skip_bind; [leaves|intros venv].
  destruct venv; simpl; [apply within_emits; leaves|].
  apply within_bind_skip; [apply runs_run_command|intros [[??]?]]. leaves.
Qed.

Lemma runs_install_tools (npm : bool) :
  within run_of (if npm then [npm_install_command] else [])
    (install_tools E npm).
Proof.
  unfold install_tools. destruct npm; [|apply within_emits; leaves].
  apply within_bind_skip; [apply runs_run_command|intros [[??]?]]. leaves.
Qed.

Lemma runs_ensure_develop_branch :
  within run_of [git_list_command; git_branch_command]
    (ensure_develop_branch E).
Proof.
  unfold ensure_develop_branch.
  apply within_cons_bind; [apply runs_run_command|intros [[??]?]].
  destruct (negb _); [|apply within_emits; leaves].
  apply within_bind_skip; [apply runs_run_command|intros [[??]?]]. leaves.
Qed.

(** The part of [main] that follows the prerequisite checks. *)
Lemma runs_after_checks (npm : bool) :
  within run_of
    (venv_command E ::
       (if npm then [npm_install_command] else [])
       ++ [git_list_command; git_branch_command])
    (verify_layout;; create_structure E;; write_standard_files P E;;
     copy_script E;; write_toc E;; setup_venv E;; install_tools E npm;;
     ensure_develop_branch E).
Proof.
  apply within_skip_bind; [apply silent_no_run, silent_verify_layout|intros _].
  apply within_skip_bind; [apply silent_no_run, silent_create_structure|intros _].
  apply within_skip_bind; [apply no_run_write_standard_files|intros _].
  apply within_skip_bind; [apply silent_no_run, silent_copy_script|intros _].
  apply within_skip_bind; [apply no_run_write_toc|intros _].
  apply within_cons_bind; [apply runs_setup_venv|intros _].
  apply within_bind; [apply runs_install_tools|intros _].
  apply runs_ensure_develop_branch.
Qed.



End WithEnv.
End StepFacts.

Module WorldFacts.
Import Setup SetupFacts Footprints StepFacts.
#[local] Set Warnings "-clear-no-such-hyp".

Lemma keeps_for_each_in {A} R `{!PreOrder R} (f : A → M unit) l :
  (∀ x, x ∈ l → keeps R (f x)) → keeps R (for_each f l).
Proof.
  induction l as [|x l IH]; intros Hf; simpl.
  - by apply keeps_ret.
  - apply keeps_bind; [done|apply Hf, list_elem_of_here|intros _].
    apply IH. intros y Hy. by apply Hf, list_elem_of_further.
Qed.

(** Case analysis on membership in a list that is written out. *)
Ltac list_cases H :=
  repeat (apply elem_of_cons in H as [H|H]);
  [..|by apply not_elem_of_nil in H].

Section WithEnv.
Variable P : Payloads.
Variable E : Env.

(** *** What each step changes *)

Lemma keeps_mkdir_one ps D p :
  (p ≠ [] → p ∈ D) → keeps (touches ps D) (mkdir_one E p).
Proof.
  intros Hp. unfold mkdir_one.
  apply keeps_bind; [apply _|apply keeps_get; apply _|intros w0].
  case_bool_decide as Hdir; [apply keeps_ret; apply _|].
  case_bool_decide; [apply keeps_raise; apply _|].
  apply keeps_modify. intros w. split_and!; simpl; [done|set_solver| |done].
  assert (p ∈ D) by (apply Hp; intros ->; apply Hdir; by left).
  set_solver.
Qed.

Lemma keeps_mkdir ps D parents p :
  list_to_set (ancestors_and_self p) ⊆ D →
  keeps (touches ps D) (mkdir E parents p).
Proof.
  intros HD. unfold mkdir.
  apply keeps_bind; [apply _|apply keeps_emit; apply _|intros _].
  destruct parents.
  - apply keeps_for_each_in; [apply _|]. intros q Hq.
    apply keeps_mkdir_one. intros _. apply HD. by apply elem_of_list_to_set.
  - apply keeps_bind; [apply _|apply keeps_get; apply _|intros w0].
    destruct (bool_decide _); [|apply keeps_raise; apply _].
    apply keeps_mkdir_one. intros Hp. apply HD, elem_of_list_to_set.
    destruct p as [|c p]; [done|]. apply self_in_ancestors.
Qed.

Lemma keeps_open_write ps D p c :
  p ∈ ps → keeps (touches ps D) (open_write E p c).
Proof.
  intros Hp. unfold open_write.
  apply keeps_bind; [apply _|apply keeps_emit; apply _|intros _].
  apply keeps_bind; [apply _|apply keeps_get; apply _|intros w0].
  destruct (bool_decide _); [apply keeps_raise; apply _|].
  apply keeps_modify. intros w. split_and!; simpl; [|done|set_solver|done].
  intros q Hq. apply lookup_insert_ne. by intros ->.
Qed.

Lemma keeps_create_file ps D p c :
  p ∈ ps → list_to_set (ancestors_and_self (parent p)) ⊆ D →
  keeps (touches ps D) (create_file E p c).
Proof.
  intros Hp HD. unfold create_file.
  apply keeps_try_except; [apply _| |intros e; keeps_go].
  apply keeps_bind; [apply _|by apply keeps_mkdir|intros _].
  by apply keeps_open_write.
Qed.

Lemma keeps_exec ps D command :
  [".venv"] ∈ D → keeps (touches ps D) (exec E command).
Proof.
  intros HD. unfold exec.
  repeat (case_bool_decide; [|]); keeps_go.
  - apply keeps_modify. intros w. split_and!; simpl; [done|set_solver..|done].
  - apply keeps_modify. intros w. split_and!; simpl; [done|done|set_solver|done].
Qed.

Lemma keeps_run_command ps D command check :
  [".venv"] ∈ D → keeps (touches ps D) (run_command E command check).
Proof.
  intros HD. unfold run_command.
  apply keeps_bind; [apply _|apply keeps_emit; apply _|intros _].
  apply keeps_bind; [apply _|by apply keeps_exec|intros o]. keeps_go.
Qed.

Lemma keeps_check_prerequisites R `{!PreOrder R} :
  keeps R (check_prerequisites E).
Proof. unfold check_prerequisites, check_prereq, sys_exit. keeps_go. Qed.

Lemma keeps_verify_layout R `{!PreOrder R} : keeps R verify_layout.
Proof. unfold verify_layout, is_dir, sys_exit. keeps_go. Qed.

Lemma keeps_create_structure ps D :
  project_dirs ⊆ D → keeps (touches ps D) (create_structure E).
Proof.
  intros HD. unfold create_structure, project_dirs in *.
  do 3 (apply keeps_bind;
        [apply _|apply keeps_mkdir; simpl; set_solver|intros _]).
  apply keeps_mkdir; simpl; set_solver.
Qed.

Lemma standard_ancestors p :
  p ∈ (standard_files P).*1 ++ [guide_toc_path] →
  list_to_set (ancestors_and_self (parent p)) ⊆ project_dirs.
Proof.
  intros Hp. simpl in Hp. unfold project_dirs.
  list_cases Hp; subst p; simpl; set_solver.
Qed.

Lemma keeps_write_standard_files ps D :
  (standard_files P).*1 ⊆ ps → project_dirs ⊆ D →
  keeps (touches ps D) (write_standard_files P E).
Proof.
  intros Hps HD.
  assert (Hone : ∀ p c, p ∈ (standard_files P).*1 →
            keeps (touches ps D) (create_file E p c)).
  { intros p c Hp. apply keeps_create_file; [by apply Hps|].
    etrans; [|done]. apply standard_ancestors, elem_of_app. by left. }
  unfold write_standard_files.
  do 6 (apply keeps_bind; [apply _|apply Hone; simpl; in_list|intros _]).
  apply Hone; simpl; in_list.
Qed.

Lemma keeps_copy_script ps D :
  target_script_path E ∈ ps → keeps (touches ps D) (copy_script E).
Proof.
  intros Hps. unfold copy_script.
  apply keeps_try_except; [apply _| |intros e; keeps_go].
  apply keeps_bind; [apply _|apply keeps_get; apply _|intros w0].
  keeps_go. apply keeps_modify.
  intros w. split_and!; simpl; [|done|set_solver|done].
  intros q Hq. apply lookup_insert_ne. intros Heq. apply Hq. by rewrite <-Heq.
Qed.

Lemma keeps_write_toc ps D :
  guide_toc_path ∈ ps → project_dirs ⊆ D → keeps (touches ps D) (write_toc E).
Proof.
  intros Hps HD. unfold write_toc. cbv zeta.
  generalize (generate_toc_content (rules_dir E) (rules E)). intros g.
  apply keeps_try_except; [apply _| |intros e; keeps_go].
  apply keeps_bind; [apply _|keeps_go|intros _].
  apply keeps_create_file; [done|].
  etrans; [apply standard_ancestors; simpl; in_list|done].
Qed.

Lemma keeps_setup_venv ps D :
  [".venv"] ∈ D → keeps (touches ps D) (setup_venv E).
Proof.
  intros HD. unfold setup_venv, is_dir.
  apply keeps_bind; [apply _|keeps_go|intros venv].
  destruct venv; simpl; [keeps_go|].
  apply keeps_bind; [apply _|by apply keeps_run_command|intros [[??]?]].
  keeps_go.
Qed.

Lemma keeps_install_tools ps D npm :
  [".venv"] ∈ D → keeps (touches ps D) (install_tools E npm).
Proof.
  intros HD. unfold install_tools. destruct npm; [|keeps_go].
  apply keeps_bind; [apply _|by apply keeps_run_command|intros [[??]?]].
  keeps_go.
Qed.

Lemma keeps_ensure_develop_branch ps D :
  [".venv"] ∈ D → keeps (touches ps D) (ensure_develop_branch E).
Proof.
  intros HD. unfold ensure_develop_branch.
  apply keeps_bind; [apply _|by apply keeps_run_command|intros [[??]?]].
  destruct (negb _); [|keeps_go].
  apply keeps_bind; [apply _|by apply keeps_run_command|intros [[??]?]].
  keeps_go.
Qed.


End WithEnv.
End WorldFacts.

Module DirFacts.
Import Setup SetupFacts Footprints StepFacts WorldFacts.
#[local] Set Warnings "-clear-no-such-hyp".

Section WithEnv.
Variable P : Payloads.
Variable E : Env.

(** *** Creating directories *)

Lemma with_dirs_ext D1 D2 w : D1 ≡ D2 → with_dirs (D1 ∪.) w = with_dirs (D2 ∪.) w.
Proof. intros HD. unfold with_dirs. f_equal. set_solver. Qed.

Lemma blocked_after D w q :
  blocked E (with_dirs (D ∪.) w) q ↔ blocked E w q ∧ q ∉ D.
Proof. unfold blocked; simpl. set_solver. Qed.

Lemma makes_mkdir_one p : p ≠ [] → makes E [p] (mkdir_one E p).
Proof.
  intros Hp w. unfold mkdir_one. mstep.
  destruct (decide (Exists (blocked E w) [p])) as [Hb|Hb].
  - apply Exists_cons in Hb as [[Hdir Hfile]|Hb%Exists_nil]; [|done].
    rewrite bool_decide_eq_false_2 by (by intros [?|?]).
    rewrite bool_decide_eq_true_2 by done. by eexists _, _, _.
  - case_bool_decide as Hdir.
    + exists []. do 2 f_equal. symmetry. apply with_dirs_absorb.
      destruct Hdir; [done|set_solver].
    + rewrite bool_decide_eq_false_2.
      * exists []. do 2 f_equal. apply with_dirs_ext. set_solver.
      * intros Hfile. apply Hb, Exists_cons. left. split; [|done].
        intros ?. apply Hdir. by right.
Qed.

Lemma makes_nil : makes E [] (mret ()).
Proof.
  intros w. rewrite decide_False by (by intros ?%Exists_nil).
  exists []. unfold mret, M_ret. do 2 f_equal.
  symmetry. apply with_dirs_absorb. set_solver.
Qed.

Lemma makes_bind l1 l2 (m k : M unit) :
  makes E l1 m → makes E l2 k → makes E (l1 ++ l2) (m;; k).
Proof.
  intros Hm Hk w. specialize (Hm w). unfold mbind, M_bind.
  destruct (decide (Exists (blocked E w) l1)) as [H1|H1].
  - destruct Hm as (q&w'&evs&->).
    rewrite decide_True by (apply Exists_app; by left). by eexists _, _, _.
  - destruct Hm as (evs1&->).
    specialize (Hk (with_dirs (list_to_set l1 ∪.) w)).
    destruct (decide (Exists (blocked E _) l2)) as [H2|H2].
    + destruct Hk as (q&w'&evs&->). rewrite decide_True; [by eexists _, _, _|].
      apply Exists_app; right. eapply Exists_impl; [done|].
      intros a Ha. by apply blocked_after in Ha as [? _].
    + destruct Hk as (evs2&->). rewrite decide_False.
      * exists (evs1 ++ evs2). do 2 f_equal. rewrite with_dirs_with_dirs.
        apply with_dirs_ext. rewrite list_to_set_app. set_solver.
      * intros [H|H]%Exists_app; [done|]. apply H2.
        apply Exists_exists in H as (a&Ha&Hb). apply Exists_exists.
        exists a. split; [done|]. apply blocked_after. split; [done|].
        intros Hin%elem_of_list_to_set. apply H1, Exists_exists. by exists a.
Qed.

Lemma makes_emit ev l (m : M unit) : makes E l m → makes E l (emit ev;; m).
Proof.
  intros Hm w. specialize (Hm w). unfold mbind, M_bind, emit.
  destruct (decide _).
  - destruct Hm as (q&w'&evs&->). by eexists _, _, _.
  - destruct Hm as (evs&->). by eexists.
Qed.

Lemma makes_for_each l :
  Forall (λ p, p ≠ []) l → makes E l (for_each (mkdir_one E) l).
Proof.
  induction 1 as [|p l Hp _ IH]; simpl; [apply makes_nil|].
  apply (makes_bind [p] l); [by apply makes_mkdir_one|done].
Qed.

Lemma makes_mkdir_parents p :
  makes E (ancestors_and_self p) (mkdir E true p).
Proof.
  unfold mkdir. apply makes_emit, makes_for_each, ancestors_nonempty.
Qed.

Lemma get_bind {A} (k : World → M A) w : (get ≫= k) w = k w w.
Proof. unfold mbind, M_bind, get. by destruct (k w w) as [[??]?]. Qed.

Lemma makes_mkdir_top c : makes E [[c]] (mkdir E false [c]).
Proof.
  unfold mkdir. apply makes_emit. intros w. rewrite get_bind.
  rewrite bool_decide_eq_true_2 by (by left). by apply makes_mkdir_one.
Qed.

Lemma makes_create_structure : makes E project_dir_list (create_structure E).
Proof.
  unfold create_structure, project_dir_list.
  apply (makes_bind [["docs"]]); [apply makes_mkdir_top|].
  apply (makes_bind [["scripts"]]); [apply makes_mkdir_top|].
  apply (makes_bind [[".vscode"]]); [apply makes_mkdir_top|].
  apply (makes_mkdir_parents [".github"; "workflows"]).
Qed.

Lemma ancestors_length q a :
  a ∈ ancestors_and_self q → length a ≤ length q.
Proof.
  revert a. induction q as [|c q IH]; intros a; simpl.
  - by intros ?%not_elem_of_nil.
  - intros [->|Ha]%elem_of_cons; [simpl; lia|].
    apply list_elem_of_fmap in Ha as (b&->&Hb). simpl.
    apply IH in Hb. lia.
Qed.

Lemma parent_length p : p ≠ [] → length (parent p) < length p.
Proof.
  intros Hp. unfold parent. destruct p as [|c p] using rev_ind; [done|].
  rewrite removelast_last, length_app. simpl. lia.
Qed.

Lemma not_ancestor_of_parent p : p ≠ [] → p ∉ ancestors_and_self (parent p).
Proof.
  intros Hp Hin%ancestors_length. apply parent_length in Hp. lia.
Qed.

End WithEnv.
End DirFacts.

Module FileFacts.
Import Setup SetupFacts Footprints StepFacts WorldFacts DirFacts.
#[local] Set Warnings "-clear-no-such-hyp".
Section WithEnv.
Variable P : Payloads.
Variable E : Env.

Lemma logs_nothing {A} (m : M A) w r w' evs :
  emits (λ _, False) m → m w = (r, w', evs) → evs = [].
Proof.
  intros Hm Hrun. apply Hm in Hrun. destruct evs as [|ev evs]; [done|].
  by apply Forall_cons in Hrun as [[] _].
Qed.

Lemma mkdir_log parents p w r w' evs :
  mkdir E parents p w = (r, w', evs) → evs = [Mkdir p].
Proof.
  unfold mkdir. unfold mbind at 1, M_bind at 1, emit.
  destruct (_ w) as [[r2 w2] e2] eqn:Hrest. intros [= _ _ <-].
  apply logs_nothing in Hrest as ->; [done|].
  destruct parents; [apply emits_for_each; intros; apply emits_mkdir_one|].
  apply emits_bind; [apply emits_get|intros w0].
  destruct (bool_decide _); [apply emits_mkdir_one|apply emits_raise].
Qed.

(** The three ways [create_file] can end. *)
Lemma create_file_cases p c w :
  let anc := ancestors_and_self (parent p) in
  let w1 := with_dirs (list_to_set anc ∪.) w in
  (Exists (blocked E w) anc
   ∧ ∃ q w', create_file E p c w
              = (Raised (OSError q), w', [Mkdir (parent p); Diag (WriteError p)])
            ∧ touches [] (list_to_set anc) w w')
  ∨ (¬ Exists (blocked E w) anc ∧ refused E w1 p
     ∧ create_file E p c w
       = (Raised (OSError p), w1,
          [Mkdir (parent p); Write p c; Diag (WriteError p)]))
  ∨ (¬ Exists (blocked E w) anc ∧ ¬ refused E w1 p
     ∧ create_file E p c w
       = (Ok (), with_files <[p := c]> w1, [Mkdir (parent p); Write p c])).
Proof.
  intros anc w1. subst anc w1.
  pose proof (makes_mkdir_parents E (parent p) w) as Hm.
  destruct (decide (Exists _ _)) as [Hb|Hb].
  - left. split; [done|]. destruct Hm as (q&w'&evs&Hm).
    pose proof (mkdir_log _ _ _ _ _ _ Hm) as ->.
    exists q, w'. split.
    + unfold create_file, try_except.
      by rewrite (bind_raised _ _ _ _ _ _ Hm).
    + by eapply (keeps_mkdir E [] _ true (parent p)).
  - right. destruct Hm as (evs&Hm).
    pose proof (mkdir_log _ _ _ _ _ _ Hm) as ->.
    unfold create_file, try_except. rewrite (bind_ok _ _ _ _ _ _ Hm).
    unfold open_write, refused. mstep. case_bool_decide; [left|right]; done.
Qed.

End WithEnv.
End FileFacts.

Module CommandFacts.
Import Setup SetupFacts Footprints StepFacts WorldFacts DirFacts.
#[local] Set Warnings "-clear-no-such-hyp".
Section WithEnv.
Variable E : Env.

(** Starting a command never raises by itself and logs nothing. *)
Lemma exec_returns command w : ∃ o w1, exec E command w = (Ok o, w1, []).
Proof.
  unfold exec. repeat case_bool_decide; mstep;
    try destruct (succeeded _); by eexists _, _.
Qed.

(** [run_command] in terms of how the command ends. *)
Lemma run_command_run command check w o w1 :
  exec E command w = (Ok o, w1, []) →
  run_command E command check w =
    let '(r, w', evs) :=
      match o with
      | Returned code stdout stderr =>
          if check && negb (bool_decide (code = 0%Z))
          then diag (CommandError command);;
               raise (CalledProcessError command code)
          else
            when (negb (bool_decide (stderr = EmptyString))
                  && negb (PyStr.contains "npm WARN" stderr)
                  && negb (bool_decide (PyStr.strip stderr = EmptyString)))
                 (diag (CommandStderr command));;
            mret (bool_decide (code = 0%Z), stdout, stderr)
      | NotFound =>
          diag (CommandError command);;
          if check then raise (FileNotFoundError command)
          else mret (false, EmptyString,
                     hd EmptyString command +:+ " not found")
      | Broken message =>
          diag (CommandError command);;
          if check then raise (OtherError command)
          else mret (false, EmptyString, message)
      end w1 in
    (r, w', Run command :: evs).
Proof.
  intros Hexec. unfold run_command.
  unfold mbind at 1, M_bind at 1, emit.
  unfold mbind at 1, M_bind at 1. rewrite Hexec.
  by destruct (_ w1) as [[r w'] evs].
Qed.

End WithEnv.
End CommandFacts.

Module FailureFacts.
Import Setup SetupFacts Footprints StepFacts WorldFacts DirFacts CommandFacts.
#[local] Set Warnings "-clear-no-such-hyp".



Lemma raises_for_each_in {A} Ψ (f : A → M unit) l :
  (∀ x, x ∈ l → raises Ψ (f x)) → raises Ψ (for_each f l).
Proof.
  induction l as [|x l IH]; intros Hf; simpl.
  - apply raises_ret.
  - apply raises_bind; [apply Hf, list_elem_of_here|intros _].
    apply IH. intros y Hy. by apply Hf, list_elem_of_further.
Qed.

Section WithEnv.
Variable P : Payloads.
Variable E : Env.

(** *** What each step can raise *)

Lemma raises_mkdir_one Ψ p : Ψ (OSError p) → raises Ψ (mkdir_one E p).
Proof. intros Hp. unfold mkdir_one. raises_go. Qed.

Lemma raises_mkdir_parents Ψ p :
  (∀ q, q ∈ ancestors_and_self p → Ψ (OSError q)) →
  raises Ψ (mkdir E true p).
Proof.
  intros Hanc. unfold mkdir.
  apply raises_bind; [apply raises_emit|intros _].
  apply raises_for_each_in. intros q Hq. by apply raises_mkdir_one, Hanc.
Qed.

Lemma raises_mkdir_top Ψ p : Ψ (OSError p) → raises Ψ (mkdir E false p).
Proof.
  intros Hp. unfold mkdir.
  apply raises_bind; [apply raises_emit|intros _].
  apply raises_bind; [apply raises_get|intros w0].
  destruct (bool_decide _); [by apply raises_mkdir_one|by apply raises_raise].
Qed.






Lemma raises_create_structure Ψ :
  (∀ q, q ∈ project_dir_list → Ψ (OSError q)) →
  raises Ψ (create_structure E).
Proof.
  intros HΨ. unfold create_structure.
  do 3 (apply raises_bind;
        [apply raises_mkdir_top, HΨ; unfold project_dir_list; in_list
        |intros _]).
  apply raises_mkdir_parents. intros q Hq. apply HΨ.
  simpl in Hq. unfold project_dir_list.
  list_cases Hq; subst q; in_list.
Qed.









End WithEnv.
End FailureFacts.

Module GuardFacts.
Import Setup SetupFacts Footprints StepFacts WorldFacts DirFacts CommandFacts FailureFacts.
#[local] Set Warnings "-clear-no-such-hyp".
Section WithEnv.
Variable P : Payloads.
Variable E : Env.

Lemma written_has_standard : (standard_files P).*1 ⊆ written_paths P E.
Proof. intros p Hp. apply elem_of_app. by left. Qed.

Lemma written_has_script : target_script_path E ∈ written_paths P E.
Proof. apply elem_of_app. right. in_list. Qed.

Lemma written_has_toc : guide_toc_path ∈ written_paths P E.
Proof. apply elem_of_app. right. in_list. Qed.

Lemma created_has_project : project_dirs ⊆ project_dirs ∪ {[ [".venv"] ]}.
Proof. apply union_subseteq_l. Qed.

Lemma created_has_venv : [".venv"] ∈ project_dirs ∪ {[ [".venv"] ]}.
Proof. apply elem_of_union. right. by apply elem_of_singleton. Qed.

Lemma no_run_not c (ev : event) : no_run ev → run_of ev ≠ Some c.
Proof. unfold no_run. by intros ->. Qed.

Lemma benign_not_run w ev c :
  c ≠ npm_install_command → c ≠ git_list_command →
  benign E w ev → run_of ev ≠ Some c.
Proof. intros H1 H2. destruct ev; simpl; try done. intros [->| ->] [=]; done. Qed.

(** A command that the last three steps do not run from a world in
    [I] is not run at all. *)
Lemma guarded_main (I : World → Prop) (c : list string) :
  let Φ := λ ev, run_of ev ≠ Some c in
  (∀ w w', touches (written_paths P E) (project_dirs ∪ {[ [".venv"] ]}) w w' →
           I w → I w') →
  maintains I Φ (setup_venv E) →
  (∀ npm, maintains I Φ (install_tools E npm)) →
  maintains I Φ (ensure_develop_branch E) →
  maintains I Φ (main P E).
Proof.
  intros Φ HI Hvenv Hnpm Hbranch.
  assert (Hstep : ∀ A (m : M A),
            keeps (touches (written_paths P E) (project_dirs ∪ {[ [".venv"] ]})) m →
            emits no_run m → maintains I Φ m).
  { intros A m Hk He. eapply maintains_intro; [exact HI|exact Hk|].
    eapply emits_mono; [|exact He]. intros ev. apply no_run_not. }
  unfold main.
  apply maintains_bind; [|intros npm].
  { apply Hstep; [apply keeps_check_prerequisites; apply _|].
    apply silent_no_run, silent_check_prerequisites. }
  apply maintains_bind; [|intros _].
  { apply Hstep; [apply keeps_verify_layout; apply _|].
    apply silent_no_run, silent_verify_layout. }
  apply maintains_bind; [|intros _].
  { apply Hstep; [apply keeps_create_structure, created_has_project|].
    apply silent_no_run, silent_create_structure. }
  apply maintains_bind; [|intros _].
  { apply Hstep; [|apply no_run_write_standard_files].
    apply keeps_write_standard_files;
      [apply written_has_standard|apply created_has_project]. }
  apply maintains_bind; [|intros _].
  { apply Hstep; [apply keeps_copy_script, written_has_script|].
    apply silent_no_run, silent_copy_script. }
  apply maintains_bind; [|intros _].
  { apply Hstep; [|apply no_run_write_toc].
    apply (keeps_write_toc P E); [apply written_has_toc|apply created_has_project]. }
  apply maintains_bind; [done|intros _].
  apply maintains_bind; [done|intros _]. done.
Qed.

Lemma venv_guard :
  maintains (λ w, [".venv"] ∈ dirs w)
    (λ ev, run_of ev ≠ Some (venv_command E)) (main P E).
Proof.
  assert (HI : ∀ w w',
            touches (written_paths P E) (project_dirs ∪ {[ [".venv"] ]}) w w' →
            [".venv"] ∈ dirs w → [".venv"] ∈ dirs w').
  { intros w w' (_&Hd&_) Hin. by apply Hd. }
  apply guarded_main; [exact HI|..].
  - apply maintains_stays. intros w Hin.
    destruct (stays_setup_venv E w Hin) as (evs&Hrun&Hevs).
    exists (), evs. split; [done|]. eapply Forall_impl; [done|].
    intros ev. by apply benign_not_run.
  - intros npm. eapply maintains_intro; [exact HI| |].
    + apply keeps_install_tools, created_has_venv.
    + eapply within_emits_not; [|apply runs_install_tools].
      destruct npm; [|apply not_elem_of_nil].
      by intros [=]%list_elem_of_singleton.
  - eapply maintains_intro; [exact HI| |].
    + apply keeps_ensure_develop_branch, created_has_venv.
    + eapply within_emits_not; [|apply runs_ensure_develop_branch].
      rewrite !not_elem_of_cons. split_and!; [done..|apply not_elem_of_nil].
Qed.

Lemma branch_guard :
  maintains (λ w, develop_branch w = true)
    (λ ev, run_of ev ≠ Some git_branch_command) (main P E).
Proof.
  assert (HI : ∀ w w',
            touches (written_paths P E) (project_dirs ∪ {[ [".venv"] ]}) w w' →
            develop_branch w = true → develop_branch w' = true).
  { intros w w' (_&_&_&Hb) Hin. by apply Hb. }
  apply guarded_main; [exact HI|..].
  - eapply maintains_intro; [exact HI| |].
    + apply keeps_setup_venv, created_has_venv.
    + eapply within_emits_not; [|apply runs_setup_venv].
      by intros [=]%list_elem_of_singleton.
  - intros npm. eapply maintains_intro; [exact HI| |].
    + apply keeps_install_tools, created_has_venv.
    + eapply within_emits_not; [|apply runs_install_tools].
      destruct npm; [|apply not_elem_of_nil].
      by intros [=]%list_elem_of_singleton.
  - apply maintains_stays. intros w Hin.
    destruct (stays_ensure_develop_branch E w Hin) as (evs&Hrun&Hevs).
    exists (), evs. split; [done|]. eapply Forall_impl; [done|].
    intros ev. by apply benign_not_run.
Qed.

Lemma not_run_in_log c evs :
  Forall (λ ev, run_of ev ≠ Some c) evs → c ∉ omap run_of evs.
Proof.
  intros Hall (ev&Hev&Hrun)%list_elem_of_omap.
  by apply (proj1 (Forall_forall _ _) Hall ev).
Qed.

End WithEnv.
End GuardFacts.

Module TraceFacts.
Import Setup SetupFacts Footprints StepFacts WorldFacts DirFacts CommandFacts FailureFacts GuardFacts FileFacts.
#[local] Set Warnings "-clear-no-such-hyp".

Section Performs.
Context {A B X : Type} (f : event → option X).

Lemma performs_bind I I1 I2 l1 l2 (m : M A) (k : A → M B) :
  performs f I l1 I1 m → (∀ a, performs f I1 l2 I2 (k a)) →
  performs f I (l1 ++ l2) I2 (m ≫= k).
Proof.
  intros Hm Hk w b w' evs HI (a&w1&e1&e2&H1&H2&->)%bind_inv_ok.
  destruct (Hm _ _ _ _ HI H1) as [Hl1 HI1].
  destruct (Hk _ _ _ _ _ HI1 H2) as [Hl2 HI2].
  by rewrite omap_app, Hl1, Hl2.
Qed.

(** A step that logs none of the selected events. *)
Lemma performs_nothing R I I' (m : M A) :
  emits (λ ev, f ev = None) m →
  (∀ w w', R w w' → I w → I' w') → keeps R m →
  performs f I [] I' m.
Proof.
  intros He HR Hk w a w' evs HI Hrun. split.
  - apply omap_none. by eapply He.
  - eapply HR; [by eapply Hk|done].
Qed.
End Performs.

Global Instance same_branch_preorder : PreOrder same_branch.
Proof.
  split; [done|]. intros w1 w2 w3 H1 H2. unfold same_branch in *. congruence.
Qed.

Section Phases.
Context {A B : Type} (Φ1 Φ2 : event → Prop).

Lemma in_two_phases_first (m : M A) : emits Φ1 m → in_two_phases Φ1 Φ2 m.
Proof.
  intros Hm w r w' evs Hrun. exists evs, [].
  rewrite app_nil_r. split_and!; [done|by eapply Hm|constructor].
Qed.


End Phases.



Section WithEnv.
Variable P : Payloads.
Variable E : Env.

(** *** The last three steps touch no file *)






End WithEnv.
End TraceFacts.

Module CompletedFacts.
Import Setup SetupFacts Footprints StepFacts WorldFacts DirFacts CommandFacts FailureFacts GuardFacts FileFacts TraceFacts.
#[local] Set Warnings "-clear-no-such-hyp".

Lemma sublist_in_sublists {A} (l k : list A) :
  l `sublist_of` k → l ∈ sublists k.
Proof.
  induction 1 as [|x l k _ IH|x l k _ IH]; simpl.
  - apply list_elem_of_here.
  - apply elem_of_app. left. by apply list_elem_of_fmap_2.
  - apply elem_of_app. by right.
Qed.

Lemma run_in_log c (evs : list event) : Run c ∈ evs → c ∈ omap run_of evs.
Proof. intros Hin. apply list_elem_of_omap. by exists (Run c). Qed.

(** A log within [[c]] that holds [c] has run exactly [c]. *)
Lemma ran_exactly {A} (c : A) (l : list A) :
  l `sublist_of` [c] → c ∈ l → l = [c].
Proof.
  intros Hsub%sublist_in_sublists Hin. simpl in Hsub.
  list_cases Hsub; subst l; [done|by apply elem_of_nil in Hin].
Qed.

Lemma keeps_and {A} (R1 R2 : World → World → Prop) (m : M A) :
  keeps R1 m → keeps R2 m → keeps (λ w w', R1 w w' ∧ R2 w w') m.
Proof. intros H1 H2 w r w' evs Hrun. split; [by eapply H1|by eapply H2]. Qed.

Lemma keeps_anything {A} (m : M A) : keeps (λ _ _, True) m.
Proof. by intros w r w' evs _. Qed.

Section WithEnv.
Variable P : Payloads.
Variable E : Env.

(** *** The branch is left alone until the last step *)

Ltac branch_go := keeps_go; try (apply keeps_modify; by intros []).

Lemma same_branch_verify_layout : keeps same_branch verify_layout.
Proof. unfold verify_layout, is_dir, sys_exit. keeps_go. Qed.

Lemma same_branch_mkdir parents p : keeps same_branch (mkdir E parents p).
Proof. unfold mkdir, mkdir_one. branch_go. Qed.

Lemma same_branch_create_structure : keeps same_branch (create_structure E).
Proof.
  unfold create_structure.
  do 3 (apply keeps_bind; [apply _|apply same_branch_mkdir|intros _]).
  apply same_branch_mkdir.
Qed.

Lemma same_branch_create_file p c : keeps same_branch (create_file E p c).
Proof.
  unfold create_file.
  apply keeps_try_except; [apply _| |intros e; keeps_go].
  apply keeps_bind; [apply _|apply same_branch_mkdir|intros _].
  unfold open_write. branch_go.
Qed.

Lemma same_branch_write_standard_files :
  keeps same_branch (write_standard_files P E).
Proof.
  unfold write_standard_files.
  do 6 (apply keeps_bind; [apply _|apply same_branch_create_file|intros _]).
  apply same_branch_create_file.
Qed.

Lemma same_branch_copy_script : keeps same_branch (copy_script E).
Proof. unfold copy_script. branch_go. Qed.

Lemma same_branch_write_toc : keeps same_branch (write_toc E).
Proof.
  unfold write_toc. cbv zeta.
  generalize (generate_toc_content (rules_dir E) (rules E)). intros g.
  apply keeps_try_except; [apply _| |intros e; keeps_go].
  apply keeps_bind; [apply _|keeps_go|intros _].
  apply same_branch_create_file.
Qed.

Lemma same_branch_run_venv check :
  keeps same_branch (run_command E (venv_command E) check).
Proof.
  unfold run_command.
  apply keeps_bind; [apply _|apply keeps_emit; apply _|intros _].
  apply keeps_bind; [apply _| |intros o; keeps_go].
  intros w r w' evs. rewrite exec_venv. intros [= _ <- _].
  by destruct (succeeded _).
Qed.

Lemma same_branch_setup_venv : keeps same_branch (setup_venv E).
Proof.
  unfold setup_venv, is_dir.
  apply keeps_bind; [apply _|keeps_go|intros venv].
  destruct venv; simpl; [keeps_go|].
  apply keeps_bind; [apply _|apply same_branch_run_venv|intros [[??]?]].
  keeps_go.
Qed.

(** *** What a run that returns has written *)

Lemma has_docs_kept ps D w w' : touches ps D w w' → has_docs w → has_docs w'.
Proof. intros (_&Hd&_) Hin. by apply Hd. Qed.

Lemma performs_create_file (I I' : World → Prop) p c :
  (∀ w w', touches [p] (list_to_set (ancestors_and_self (parent p))) w w' →
           I w → I' w') →
  performs write_of I [(p, c)] I' (create_file E p c).
Proof.
  intros HI w a w' evs Hw Hrun. split.
  - destruct (create_file_cases E p c w)
      as [(_&q&w''&Hr&_)|[(_&_&Hr)|(_&_&Hr)]];
      rewrite Hr in Hrun; try done. by injection Hrun as _ _ <-.
  - eapply HI; [|done].
    eapply (keeps_create_file E [p]); [in_list|done|done].
Qed.

Lemma performs_write_standard_files :
  performs write_of has_docs (standard_files P) has_docs
    (write_standard_files P E).
Proof.
  unfold write_standard_files, standard_files.
  do 6 (eapply (performs_bind write_of has_docs has_docs has_docs [_]);
        [apply performs_create_file, has_docs_kept|intros _]).
  apply performs_create_file, has_docs_kept.
Qed.

Lemma performs_write_toc :
  performs write_of has_docs
    [(guide_toc_path, toc_document (rules_dir E) (rules E))]
    (λ _, True) (write_toc E).
Proof.
  intros w a w' evs Hdocs. unfold write_toc, toc_document. cbv zeta.
  generalize (generate_toc_content (rules_dir E) (rules E)). intros g.
  destruct (for_each_diag_run MissingChapter g.2 w) as [e0 Hwarn].
  assert (Hquiet : omap write_of e0 = []).
  { apply omap_none.
    eapply (emits_for_each (λ ev, write_of ev = None)
              (λ msg, diag (MissingChapter msg))); [|exact Hwarn].
    intros msg. by apply emits_diag. }
  unfold try_except, mbind at 1, M_bind at 1. rewrite Hwarn.
  destruct (create_file_cases E guide_toc_path g.1 w)
    as [(Hb&_)|[(_&_&Hr)|(_&_&Hr)]].
  - apply Exists_exists in Hb as (q&Hq&Hno&_). simpl in Hq.
    list_cases Hq. subst q. by destruct Hno.
  - rewrite Hr. mstep. intros [= _ _ <-]. split; [|done].
    by rewrite !omap_app, Hquiet.
  - rewrite Hr. intros [= _ _ <-]. split; [|done].
    by rewrite !omap_app, Hquiet.
Qed.

(** *** What a run that returns has executed *)

Lemma guards_kept w ps w1 w2 :
  touches ps project_dirs w1 w2 ∧ same_branch w1 w2 →
  guards_as_at w w1 → guards_as_at w w2.
Proof.
  intros [(_&Hd1&Hd2&_) Hb] [Hv Hbr]. split.
  - rewrite <-Hv. clear -Hd1 Hd2. unfold project_dirs in Hd2. set_solver.
  - unfold branch_as_at, same_branch in *. congruence.
Qed.

Lemma performs_no_run {A} w (m : M A) :
  emits no_run m →
  keeps (touches (written_paths P E) project_dirs) m → keeps same_branch m →
  performs run_of (guards_as_at w) [] (guards_as_at w) m.
Proof.
  intros He Ht Hb.
  apply (performs_nothing run_of
           (λ w1 w2, touches (written_paths P E) project_dirs w1 w2
                     ∧ same_branch w1 w2));
    [exact He| |by apply keeps_and].
  intros w1 w2. apply guards_kept.
Qed.

Lemma performs_setup_venv w :
  performs run_of (guards_as_at w)
    (if bool_decide ([".venv"] ∈ dirs w) then [] else [venv_command E])
    (branch_as_at w) (setup_venv E).
Proof.
  intros w0 a w' evs [Hv Hb] Hrun. split.
  - case_bool_decide as Hin.
    + apply Hv in Hin. revert Hrun. unfold setup_venv.
      unfold mbind at 1, M_bind at 1. rewrite is_dir_nonroot.
      rewrite bool_decide_eq_true_2 by done. cbn [negb]. mstep.
      intros Heq. by simplify_eq.
    + apply ran_exactly; [exact (runs_setup_venv E _ _ _ _ Hrun)|].
      apply run_in_log. revert Hrun. unfold setup_venv.
      unfold mbind at 1, M_bind at 1. rewrite is_dir_nonroot.
      rewrite bool_decide_eq_false_2 by (by rewrite Hv). cbn [negb].
      destruct ((run_command E (venv_command E) true ≫= _) w0)
        as [[r1 w1] e1] eqn:Hrest. intros [= _ _ <-].
      eapply bind_log_first; [|exact Hrest].
      intros r2 w2 e2. apply run_command_logs_run.
  - unfold branch_as_at in *.
    by rewrite (same_branch_setup_venv _ _ _ _ Hrun).
Qed.

Lemma performs_install_tools w (npm : bool) :
  performs run_of (branch_as_at w)
    (if npm then [npm_install_command] else [])
    (branch_as_at w) (install_tools E npm).
Proof.
  intros w0 a w' evs Hb Hrun. split.
  - destruct npm.
    + apply ran_exactly; [exact (runs_install_tools E true _ _ _ _ Hrun)|].
      by eapply run_in_log, install_tools_logs_run.
    + by injection Hrun as _ _ <-.
  - by apply install_tools_ok in Hrun as [_ ->].
Qed.

Lemma performs_ensure_develop_branch w :
  performs run_of (branch_as_at w)
    (git_list_command ::
       if develop_branch w then [] else [git_branch_command])
    (λ _, True) (ensure_develop_branch E).
Proof.
  intros w0 a w' evs Hb Hrun. split; [|done]. unfold branch_as_at in Hb.
  pose proof (runs_ensure_develop_branch E _ _ _ _ Hrun)
    as Hsub%sublist_in_sublists.
  assert (Hlist : git_list_command ∈ omap run_of evs).
  { apply run_in_log. revert Hrun. unfold ensure_develop_branch.
    apply bind_log_first. intros r1 w1 e1. apply run_command_logs_run. }
  assert (Hbranch : git_branch_command ∈ omap run_of evs
                    ↔ develop_branch w = false).
  { rewrite <-Hb. destruct (develop_branch w0) eqn:Hb0.
    - split; [|done]. intros Hin. exfalso. revert Hin. apply not_run_in_log.
      destruct (stays_ensure_develop_branch E w0 Hb0) as (evs'&Hrun'&Hevs).
      rewrite Hrun' in Hrun. injection Hrun as _ _ <-.
      eapply Forall_impl; [done|]. intros ev. by apply benign_not_run.
    - split; [done|]. intros _. apply run_in_log.
      destruct (stays_run_command_unchecked E w0 git_list_command _
                  (or_intror eq_refl) (exec_git_list E w0))
        as ([[success out] err] & (e1 & Hrun1 & _) & Hres).
      specialize (Hres _ _ _ eq_refl). injection Hres as _ -> _.
      revert Hrun. unfold ensure_develop_branch.
      unfold mbind at 1, M_bind at 1. rewrite Hrun1, Hb0.
      cbn beta iota zeta.
      change (negb (PyStr.contains "develop" (PyStr.strip EmptyString)))
        with true. cbn iota.
      destruct ((run_command E git_branch_command true ≫= _) w0)
        as [[r2 w2] e2] eqn:Hrest. intros [= _ _ <-].
      apply elem_of_app. right.
      eapply bind_log_first; [|exact Hrest].
      intros r3 w3 e3. apply run_command_logs_run. }
  simpl in Hsub. revert Hlist Hbranch.
  list_cases Hsub; rewrite Hsub; clear Hsub; intros Hlist Hbranch.
  - rewrite (proj1 Hbranch); [done|in_list].
  - destruct (develop_branch w); [done|].
    by pose proof (proj2 Hbranch eq_refl) as [=]%list_elem_of_singleton.
  - by apply list_elem_of_singleton in Hlist.
  - by apply elem_of_nil in Hlist.
Qed.

(** The part of [main] that follows the prerequisite checks. *)
Lemma performs_after_checks w (npm : bool) :
  performs run_of (guards_as_at w)
    ((if bool_decide ([".venv"] ∈ dirs w) then [] else [venv_command E])
       ++ (if npm then [npm_install_command] else [])
       ++ git_list_command ::
            (if develop_branch w then [] else [git_branch_command]))
    (λ _, True)
    (verify_layout;; create_structure E;; write_standard_files P E;;
     copy_script E;; write_toc E;; setup_venv E;; install_tools E npm;;
     ensure_develop_branch E).
Proof.
  pose proof (written_has_standard P E) as H1.
  pose proof (written_has_script P E) as H2.
  pose proof (written_has_toc P E) as H3.
  eapply (performs_bind run_of _ _ _ []); [|intros _].
  { apply performs_no_run;
      [apply silent_no_run, silent_verify_layout
      |apply keeps_verify_layout; apply _|apply same_branch_verify_layout]. }
  eapply (performs_bind run_of _ _ _ []); [|intros _].
  { apply performs_no_run;
      [apply silent_no_run, silent_create_structure
      |by apply keeps_create_structure|apply same_branch_create_structure]. }
  eapply (performs_bind run_of _ _ _ []); [|intros _].
  { apply performs_no_run;
      [apply no_run_write_standard_files
      |by apply keeps_write_standard_files
      |apply same_branch_write_standard_files]. }
  eapply (performs_bind run_of _ _ _ []); [|intros _].
  { apply performs_no_run;
      [apply silent_no_run, silent_copy_script
      |by apply keeps_copy_script|apply same_branch_copy_script]. }
  eapply (performs_bind run_of _ _ _ []); [|intros _].
  { apply performs_no_run;
      [apply no_run_write_toc
      |by apply (keeps_write_toc P E)|apply same_branch_write_toc]. }
  eapply performs_bind; [apply performs_setup_venv|intros _].
  eapply performs_bind; [apply performs_install_tools|intros _].
  apply performs_ensure_develop_branch.
Qed.

Lemma performs_writes_main :
  performs write_of (λ _, True) (writes P E) (λ _, True) (main P E).
Proof.
  set (toc := [(guide_toc_path, toc_document (rules_dir E) (rules E))]).
  assert (Hquiet : ∀ A (m : M A) (I : World → Prop),
            emits no_write m →
            performs write_of I [] (λ _, True) m).
  { intros A m I He. eapply performs_nothing; [exact He| |apply keeps_anything].
    done. }
  unfold main, writes. fold toc.
  apply (performs_bind write_of (λ _, True) (λ _, True) (λ _, True)
           [] (standard_files P ++ toc)); [|intros npm].
  { apply Hquiet, silent_no_write, silent_check_prerequisites. }
  apply (performs_bind write_of (λ _, True) (λ _, True) (λ _, True)
           [] (standard_files P ++ toc)); [|intros _].
  { apply Hquiet, silent_no_write, silent_verify_layout. }
  apply (performs_bind write_of (λ _, True) has_docs (λ _, True)
           [] (standard_files P ++ toc)); [|intros _].
  { intros w0 u w' evs _ Hrun. split.
    - apply omap_none.
      exact (silent_no_write _ (silent_create_structure E) _ _ _ _ Hrun).
    - apply create_structure_ok in Hrun. subst w'.
      unfold has_docs, project_dirs. simpl. set_solver. }
  apply (performs_bind write_of has_docs has_docs (λ _, True)
           (standard_files P) toc); [|intros _].
  { apply performs_write_standard_files. }
  apply (performs_bind write_of has_docs has_docs (λ _, True) [] toc);
    [|intros _].
  { eapply performs_nothing;
      [apply silent_no_write, silent_copy_script
      |apply has_docs_kept
      |apply (keeps_copy_script E [target_script_path E] ∅); in_list]. }
  apply (performs_bind write_of has_docs (λ _, True) (λ _, True) toc []);
    [|intros _].
  { apply performs_write_toc. }
  apply (performs_bind write_of (λ _, True) (λ _, True) (λ _, True) [] []);
    [|intros _].
  { apply Hquiet, no_write_setup_venv. }
  apply (performs_bind write_of (λ _, True) (λ _, True) (λ _, True) [] []);
    [|intros _].
  { apply Hquiet, no_write_install_tools. }
  apply Hquiet, no_write_ensure_develop_branch.
Qed.

End WithEnv.
End CompletedFacts.

(** ** The generator: further properties *)

Section GeneratorProperties.

Lemma chapter_names_are_markdown :
  Forall (λ f, PyStr.endswith ".md" f = true) CHAPTER_FILES.
Proof. unfold CHAPTER_FILES. repeat constructor. Qed.

Lemma present_chapters_in_glob d f :
  f ∈ present_chapters d → f ∈ glob_md d.
Proof.
  unfold present_chapters, is_file, glob_md.
  intros [Hfile%bool_decide_eq_true Hf]%list_elem_of_filter.
  apply list_elem_of_filter. split.
  - by apply (proj1 (Forall_forall _ _) chapter_names_are_markdown).
  - apply list_elem_of_fmap. by exists (f, RegularFile).
Qed.

(** X22. The document links every entry of the directory whose name ends in
    [.md] exactly once, under "Chapters" or under "Other Files", and links
    nothing else: the linked names are a rearrangement of what
    [glob('*.md')] returns. *)
Theorem listing_covers_markdown_files rules_dir (d : Dir) :
  wf_dir d →
  toc_lines rules_dir d
    = toc_header ++ (chapter_entry <$> present_chapters d)
        ++ other_section (other_files d) ++ [EmptyString]
  ∧ present_chapters d ++ other_files d ≡ₚ glob_md d
  ∧ NoDup (present_chapters d ++ other_files d).
Proof.
  intros Hwf. split; [apply toc_lines_eq|].
  assert (Hglob : NoDup (glob_md d)) by (by apply NoDup_filter).
  assert (Hperm : present_chapters d ++ other_files d ≡ₚ glob_md d).
  { rewrite other_files_perm.
    rewrite <-(filter_app_complement (λ name, name ∈ present_chapters d)
                 (glob_md d)) at 2.
    apply Permutation_app_tail, NoDup_Permutation.
    - apply NoDup_filter, CHAPTER_FILES_NoDup.
    - by apply NoDup_filter.
    - intros f. rewrite list_elem_of_filter. split; [|by intros [? _]].
      intros Hf. split; [done|]. by apply present_chapters_in_glob. }
  split; [done|]. by rewrite Hperm.
Qed.

Lemma listing_covers_markdown_files_witness :
  wf_dir example_dir
  ∧ toc_lines "/home/dev/guide/rules" example_dir
    = toc_header ++ (chapter_entry <$> present_chapters example_dir)
        ++ other_section (other_files example_dir) ++ [EmptyString]
  ∧ present_chapters example_dir ++ other_files example_dir
      ≡ₚ glob_md example_dir
  ∧ NoDup (present_chapters example_dir ++ other_files example_dir).
Proof.
  assert (Hwf : wf_dir example_dir).
  { apply (bool_decide_unpack _). vm_compute. exact I. }
  split; [exact Hwf|].
  exact (listing_covers_markdown_files "/home/dev/guide/rules" example_dir Hwf).
Defined.



Lemma contains_cons sub c s :
  PyStr.contains sub (String c s) =
  if String.prefix sub (String c s) then true else PyStr.contains sub s.
Proof. done. Qed.

Lemma no_hyphen_after_substitution s :
  PyStr.contains "-" (separators_to_spaces s) = false.
Proof.
  induction s as [|c s IH]; [done|].
  change (separators_to_spaces (String c s)) with
    (String (if Ascii.eqb c "-" then " "%char else c) (separators_to_spaces s)).
  rewrite contains_cons, prefix_cons, IH.
  destruct (ascii_dec _ _) as [Heq|_]; [|done].
  by destruct (Ascii.eqb_spec c "-").
Qed.

Lemma length_separators_to_spaces s :
  String.length (separators_to_spaces s) = String.length s.
Proof. induction s as [|c s IH]; simpl; [done|]. by rewrite IH. Qed.

(** Removing [.md] from a name whose stem has no dot leaves the stem. *)
Lemma replace_md_of_plain_name stem :
  PyStr.contains "." stem = false →
  PyStr.replace ".md" EmptyString (stem +:+ ".md") = stem.
Proof.
  unfold PyStr.replace. induction stem as [|c stem IH]; [done|].
  rewrite contains_cons, prefix_cons, prefix_empty.
  destruct (ascii_dec "." c) as [|Hc]; [done|]. intros Hstem.
  change (String c stem +:+ ".md") with (String c (stem +:+ ".md")).
  rewrite replace_go_cons, prefix_cons.
  destruct (ascii_dec "." c) as [|_]; [done|]. by rewrite IH.
Qed.

(** X24. For an ordinary name, one whose stem contains no dot, the title
    shown under "Other Files" is the stem with every hyphen turned into a
    space: it has the length of the stem and contains no hyphen.  Whatever
    the name, no title under "Other Files" contains a hyphen. *)
Theorem other_title_of_plain_name stem :
  PyStr.contains "." stem = false →
  other_title (stem +:+ ".md") = separators_to_spaces stem
  ∧ String.length (other_title (stem +:+ ".md")) = String.length stem
  ∧ (∀ name, PyStr.contains "-" (other_title name) = false).
Proof.
  intros Hstem.
  assert (Htitle : other_title (stem +:+ ".md") = separators_to_spaces stem).
  { unfold other_title. by rewrite replace_hyphen, replace_md_of_plain_name. }
  split_and!; [done| |].
  - by rewrite Htitle, length_separators_to_spaces.
  - intros name. unfold other_title.
    rewrite replace_hyphen. apply no_hyphen_after_substitution.
Qed.

Lemma other_title_of_plain_name_witness :
  PyStr.contains "." "release-notes-2024" = false
  ∧ other_title ("release-notes-2024" +:+ ".md")
    = separators_to_spaces "release-notes-2024"
  ∧ String.length (other_title ("release-notes-2024" +:+ ".md"))
    = String.length "release-notes-2024"
  ∧ (∀ name, PyStr.contains "-" (other_title name) = false).
Proof.
  assert (Hstem : PyStr.contains "." "release-notes-2024" = false) by done.
  split; [exact Hstem|].
  exact (other_title_of_plain_name "release-notes-2024" Hstem).
Defined.

End GeneratorProperties.

(** ** The helpers and the sequence: further properties *)

Section FileProperties.
Import Setup SetupFacts Footprints StepFacts WorldFacts DirFacts.
Import FileFacts.
#[local] Set Warnings "-clear-no-such-hyp".

(** X1. For every path below the project root: when [create_file] returns,
    the file holds the content, whatever it held before; every directory on
    the way to it exists; no other file has changed; and the helper has done
    two things, in this order: made the parent directories and written the
    file. *)
Theorem create_file_stores_content E p (content : string) (w : World) :
  let run := create_file E p content w in
  p ≠ [] → result_of run = Ok () →
  files (world_of run) !! p = Some content
  ∧ (∀ q, q ≠ p → files (world_of run) !! q = files w !! q)
  ∧ dirs (world_of run)
    = list_to_set (ancestors_and_self (parent p)) ∪ dirs w
  ∧ (p ∉ dirs (world_of run))
  ∧ develop_branch (world_of run) = develop_branch w
  ∧ log_of run = [Mkdir (parent p); Write p content].
Proof.
  intros run Hp Hok. subst run.
  destruct (create_file_cases E p content w)
    as [(_&q&w'&Hrun&_)|[(_&_&Hrun)|(_&Hfree&Hrun)]];
    rewrite Hrun in Hok |- *; unfold result_of, world_of, log_of in *;
    simpl in *; [done..|].
  unfold refused in Hfree. simpl in *. split_and!; [| | | |done|done].
  - apply lookup_insert_eq.
  - intros q Hq. by apply lookup_insert_ne.
  - done.
  - intros Hin. apply Hfree. by left.
Qed.

Lemma create_file_stores_content_witness :
  let E := example_env ∅ done_quietly done_quietly in
  let p := ["docs"; "SETUP_GUIDE.md"] in
  let run := create_file E p "# Setup" fresh_clone in
  p ≠ [] ∧ result_of run = Ok ()
  ∧ files (world_of run) !! p = Some "# Setup"
  ∧ (∀ q, q ≠ p → files (world_of run) !! q = files fresh_clone !! q)
  ∧ dirs (world_of run)
    = list_to_set (ancestors_and_self (parent p)) ∪ dirs fresh_clone
  ∧ (p ∉ dirs (world_of run))
  ∧ develop_branch (world_of run) = develop_branch fresh_clone
  ∧ log_of run = [Mkdir (parent p); Write p "# Setup"].
Proof.
  cbv zeta.
  assert (Hp : ["docs"; "SETUP_GUIDE.md"] ≠ @nil string) by done.
  assert (Hok : result_of (create_file (example_env ∅ done_quietly done_quietly)
                  ["docs"; "SETUP_GUIDE.md"] "# Setup" fresh_clone) = Ok ()).
  { by vm_compute. }
  split; [exact Hp|]. split; [exact Hok|].
  exact (create_file_stores_content _ _ _ _ Hp Hok).
Defined.



(** X3. For every path below the project root, [create_file] returns
    exactly when nothing stands in the way: no directory on the way to the
    file is blocked, the path is no directory, and the filesystem does not
    refuse it.  The content plays no part. *)
Theorem create_file_succeeds_iff E p (content : string) (w : World) :
  p ≠ [] →
  result_of (create_file E p content w) = Ok ()
  ↔ (∀ a, a ∈ ancestors_and_self (parent p) → ¬ blocked E w a)
    ∧ (p ∉ dirs w) ∧ (p ∉ denied E).
Proof.
  intros Hp.
  assert (Hfree : refused E (with_dirs
            (list_to_set (ancestors_and_self (parent p)) ∪.) w) p
          ↔ p ∈ dirs w ∨ p ∈ denied E).
  { unfold refused; simpl. rewrite elem_of_union, elem_of_list_to_set.
    pose proof (not_ancestor_of_parent p Hp). tauto. }
  assert (Hnone : ¬ Exists (blocked E w) (ancestors_and_self (parent p))
          ↔ ∀ a, a ∈ ancestors_and_self (parent p) → ¬ blocked E w a).
  { rewrite Exists_exists. split.
    - intros Hno a Ha Hb. apply Hno. by exists a.
    - intros Hno (a&Ha&Hb). by apply (Hno a). }
  destruct (create_file_cases E p content w)
    as [(Hb&q&w'&Hrun&_)|[(Hb&Href&Hrun)|(Hb&Href&Hrun)]];
    rewrite Hrun; unfold result_of; simpl.
  - split; [done|]. intros [Hno _]. destruct (proj2 Hnone Hno Hb).
  - apply Hfree in Href. split; [done|]. tauto.
  - rewrite Hfree in Href. pose proof (proj1 Hnone Hb).
    split; [|done]. intros _. tauto.
Qed.

Lemma create_file_succeeds_iff_witness :
  let E := example_env ∅ done_quietly done_quietly in
  let p := [".github"; "workflows"; "markdown-lint.yml"] in
  p ≠ []
  ∧ (result_of (create_file E p "name: Markdown Lint" fresh_clone) = Ok ()
     ↔ (∀ a, a ∈ ancestors_and_self (parent p) → ¬ blocked E fresh_clone a)
       ∧ (p ∉ dirs fresh_clone) ∧ (p ∉ denied E)).
Proof.
  cbv zeta.
  assert (Hp : [".github"; "workflows"; "markdown-lint.yml"] ≠ @nil string)
    by done.
  split; [exact Hp|].
  exact (create_file_succeeds_iff _ _ _ _ Hp).
Defined.

(** X4. For every path below the project root, writing a file that
    [create_file] has written before succeeds again and replaces the
    content; with the same content it changes nothing at all. *)
Theorem create_file_again E p (content again : string) (w : World) :
  let run1 := create_file E p content w in
  p ≠ [] → result_of run1 = Ok () →
  let run2 := create_file E p again (world_of run1) in
  result_of run2 = Ok ()
  ∧ world_of run2 = with_files <[p := again]> (world_of run1)
  ∧ (again = content → world_of run2 = world_of run1).
Proof.
  intros run1 Hp Hok run2. subst run1 run2.
  destruct (create_file E p content w) as [[r w1] evs1] eqn:Hrun1.
  unfold result_of, world_of in *; simpl in Hok |- *. subst r.
  apply create_file_ok in Hrun1 as [Hw1 Hfree].
  assert (Hdirs : Forall (λ q, q ∈ dirs w1) (ancestors_and_self (parent p))).
  { apply Forall_forall. intros q Hq. subst w1. simpl.
    apply elem_of_union. left. by apply elem_of_list_to_set. }
  destruct (create_file_cases E p again w1)
    as [(Hb&_)|[(_&Href&_)|(_&_&Hrun2)]].
  - apply Exists_exists in Hb as (q&Hq&Hno&_).
    destruct Hno. by apply (proj1 (Forall_forall _ _) Hdirs).
  - destruct Hfree. unfold refused in *. simpl in Href.
    rewrite elem_of_union, elem_of_list_to_set in Href.
    destruct Href as [[Hin|Hin]|Hin]; [|by left|by right].
    left. by apply (proj1 (Forall_forall _ _) Hdirs).
  - rewrite Hrun2. simpl.
    assert (Hsame : with_dirs
              (list_to_set (ancestors_and_self (parent p)) ∪.) w1 = w1).
    { apply with_dirs_absorb. intros q Hq%elem_of_list_to_set.
      by apply (proj1 (Forall_forall _ _) Hdirs). }
    rewrite Hsame. split_and!; [done|done|].
    intros ->. apply with_files_insert_id.
    rewrite Hw1. simpl. apply lookup_insert_eq.
Qed.

Lemma create_file_again_witness :
  let E := example_env ∅ done_quietly done_quietly in
  let p := ["README.md"] in
  let run1 := create_file E p "# LLM Coding Guide" fresh_clone in
  let run2 := create_file E p "# Changed" (world_of run1) in
  p ≠ [] ∧ result_of run1 = Ok ()
  ∧ result_of run2 = Ok ()
  ∧ world_of run2 = with_files <[p := "# Changed"]> (world_of run1)
  ∧ ("# Changed" = "# LLM Coding Guide" → world_of run2 = world_of run1).
Proof.
  cbv zeta.
  assert (Hp : ["README.md"] ≠ @nil string) by done.
  assert (Hok : result_of (create_file (example_env ∅ done_quietly done_quietly)
                  ["README.md"] "# LLM Coding Guide" fresh_clone) = Ok ()).
  { by vm_compute. }
  split; [exact Hp|]. split; [exact Hok|].
  exact (create_file_again _ _ _ "# Changed" _ Hp Hok).
Defined.

End FileProperties.

Section CommandProperties.
Import Setup SetupFacts Footprints StepFacts WorldFacts DirFacts.
Import CommandFacts.
#[local] Set Warnings "-clear-no-such-hyp".

(** X5. Called with [check=False], [run_command] never raises, however the
    command ends: it returns whether the exit status was 0 together with
    what the command printed, and for a command that could not be started
    the flag is false and the error text stands in for its stderr.  It
    changes nothing beyond what the command itself did. *)
Theorem unchecked_command_always_returns E command (w : World) :
  let run := run_command E command false w in
  let started := exec E command w in
  ∃ o, result_of started = Ok o
    ∧ world_of run = world_of started
    ∧ result_of run = Ok
        match o with
        | Returned code stdout stderr => (bool_decide (code = 0%Z), stdout, stderr)
        | NotFound =>
            (false, EmptyString, hd EmptyString command +:+ " not found")
        | Broken message => (false, EmptyString, message)
        end
    ∧ head (log_of run) = Some (Run command).
Proof.
  intros run started. subst run started.
  destruct (exec_returns E command w) as (o&w1&Hexec).
  exists o. rewrite (run_command_run _ _ _ _ _ _ Hexec), Hexec.
  destruct o as [code out err| |msg]; mstep.
  - by destruct (_ && _).
  - done.
  - done.
Qed.

(** X6. Called with [check=True], [run_command] returns only when the
    command ended with status 0, so the flag it returns is always true; in
    every other case it reports the failure and raises.  A caller that tests
    the flag of a checked call can therefore never see it false. *)
Theorem checked_command_returns_only_success E command (w : World) :
  let run := run_command E command true w in
  match result_of run with
  | Ok (success, _, _) => success = true
  | Raised e =>
      (e = FileNotFoundError command ∨ e = OtherError command
       ∨ ∃ code, code ≠ 0%Z ∧ e = CalledProcessError command code)
      ∧ last (log_of run) = Some (Diag (CommandError command))
  end.
Proof.
  intros run. subst run.
  destruct (exec_returns E command w) as (o&w1&Hexec).
  rewrite (run_command_run _ _ _ _ _ _ Hexec).
  destruct o as [code out err| |msg]; mstep.
  - case_bool_decide; mstep.
    + by destruct (_ && _).
    + split; [|done]. right; right. by exists code.
  - split; [by left|done].
  - split; [right; by left|done].
Qed.

End CommandProperties.

Section StepProperties.
Import Setup SetupFacts Footprints StepFacts WorldFacts DirFacts CommandFacts FileFacts.
#[local] Set Warnings "-clear-no-such-hyp".

(** X7. Step 6 never stops the run and never changes the project: whether
    or not npm is there and however the installation ends, the step returns;
    it runs the installation exactly when npm was found, and warns exactly
    when an installation it ran did not succeed. *)
Theorem linter_failure_is_only_a_warning E (npm : bool) (w : World) :
  let run := install_tools E npm w in
  result_of run = Ok ()
  ∧ world_of run = w
  ∧ (Run npm_install_command ∈ log_of run ↔ npm = true)
  ∧ (Diag NpmPermissionWarning ∈ log_of run
     ∨ Diag NpmInstallWarning ∈ log_of run
     ↔ npm = true ∧ succeeded (npm_install_result E) = false).
Proof.
  intros run. subst run.
  destruct (install_tools E npm w) as [[r w'] evs] eqn:Hrun.
  unfold result_of, world_of, log_of; simpl.
  unfold install_tools in Hrun. destruct npm.
  - unfold mbind at 1, M_bind at 1 in Hrun.
    rewrite (run_command_run _ _ false _ _ _ (exec_npm_install E w)) in Hrun.
    destruct (npm_install_result E) as [code out err| |msg];
      revert Hrun; mstep.
    + destruct (_ && _ && _); mstep; case_bool_decide; mstep;
        try destruct (_ || _); mstep; intros [= <- <- <-];
        (split_and!; [done|done|split; [done|intros _; in_list]|]);
        rewrite !elem_of_cons, !elem_of_nil; simpl succeeded;
        try case_bool_decide; intuition (try discriminate; congruence).
    + destruct (_ || _); mstep; intros [= <- <- <-];
        (split_and!; [done|done|split; [done|intros _; in_list]|]);
        rewrite !elem_of_cons, !elem_of_nil; simpl succeeded;
        try case_bool_decide; intuition (try discriminate; congruence).
    + destruct (_ || _); mstep; intros [= <- <- <-];
        (split_and!; [done|done|split; [done|intros _; in_list]|]);
        rewrite !elem_of_cons, !elem_of_nil; simpl succeeded;
        try case_bool_decide; intuition (try discriminate; congruence).
  - injection Hrun as <- <- <-. split_and!; [done|done|..];
      rewrite ?elem_of_nil; intuition (try discriminate; congruence).
Qed.



End StepProperties.

Section EveryRun.
Import Setup SetupFacts Footprints StepFacts WorldFacts DirFacts CommandFacts FailureFacts GuardFacts.
#[local] Set Warnings "-clear-no-such-hyp".







(** X14. The two guards of the script hold for every run, completed or not:
    if [.venv] is a directory when the run starts, the virtual environment
    is not created again, and if the branch [develop] exists when the run
    starts, [git branch develop] is not run. *)
Theorem existing_venv_and_branch_kept P E (w : World) :
  let run := main P E w in
  ([".venv"] ∈ dirs w → venv_command E ∉ omap run_of (log_of run))
  ∧ (develop_branch w = true →
     git_branch_command ∉ omap run_of (log_of run)).
Proof.
  intros run. subst run.
  destruct (main P E w) as [[r w'] evs] eqn:Hrun.
  unfold log_of; simpl. split; intros Hstart; apply not_run_in_log.
  - by destruct (venv_guard P E _ _ _ _ Hstart Hrun).
  - by destruct (branch_guard P E _ _ _ _ Hstart Hrun).
Qed.

Lemma existing_venv_and_branch_kept_witness :
  let P := example_payloads in
  let E := example_env ∅ done_quietly done_quietly in
  let w := world_of (main P E fresh_clone) in
  let run := main P E w in
  [".venv"] ∈ dirs w
  ∧ develop_branch w = true
  ∧ (venv_command E ∉ omap run_of (log_of run))
  ∧ (git_branch_command ∉ omap run_of (log_of run)).
Proof.
  cbv zeta.
  assert (Hvenv : [".venv"] ∈ dirs (world_of (main example_payloads
            (example_env ∅ done_quietly done_quietly) fresh_clone))).
  { apply (bool_decide_unpack _). vm_compute. exact I. }
  assert (Hbranch : develop_branch (world_of (main example_payloads
            (example_env ∅ done_quietly done_quietly) fresh_clone)) = true).
  { by vm_compute. }
  split; [exact Hvenv|]. split; [exact Hbranch|].
  split.
  - exact (proj1 (existing_venv_and_branch_kept _ _ _) Hvenv).
  - exact (proj2 (existing_venv_and_branch_kept _ _ _) Hbranch).
Defined.

End EveryRun.

Section SkippedAndAbortedSteps.
Import Setup SetupFacts Footprints StepFacts WorldFacts DirFacts CommandFacts FailureFacts GuardFacts.
#[local] Set Warnings "-clear-no-such-hyp".

(** X15. Without npm the linter step is skipped: the run warns once, right
    after the checks, and never invokes the installation; the commands it
    can still run are the other three, in the order of the script. *)
Theorem no_npm_skips_linter P E (w : World) :
  npm_ok E = false →
  let run := main P E w in
  omap run_of (log_of run) `sublist_of`
    [venv_command E; git_list_command; git_branch_command]
  ∧ (tools_ok E = true → Diag NpmMissing ∈ log_of run).
Proof.
  intros Hnpm run. subst run. unfold main.
  destruct (check_prerequisites E w) as [[r0 w0] evs0] eqn:Hchecks.
  pose proof (silent_check_prerequisites E _ _ _ _ Hchecks) as Hsilent.
  assert (Hnone : omap run_of evs0 = []).
  { apply omap_none. eapply Forall_impl; [exact Hsilent|]. by intros ev [??]. }
  assert (Hwarn : tools_ok E = true → r0 = Ok false ∧ Diag NpmMissing ∈ evs0).
  { revert Hchecks. unfold tools_ok, check_prerequisites, check_prereq.
    rewrite Hnpm. destruct (python_ok E), (git_ok E); try done.
    mstep. intros [= <- _ <-] _. split; [done|in_list]. }
  destruct r0 as [npm|e].
  - destruct (bind_then _ (λ npm, verify_layout;; create_structure E;;
        write_standard_files P E;; copy_script E;; write_toc E;;
        setup_venv E;; install_tools E npm;; ensure_develop_branch E)
        _ _ _ _ Hchecks) as (r1&w1&evs1&Hrest&->).
    unfold log_of; simpl. rewrite omap_app, Hnone. simpl. split.
    + assert (npm = false) as ->.
      { destruct (tools_ok E) eqn:Htools.
        - by destruct Hwarn as [[= ->] _].
        - destruct (check_prerequisites_spec E w) as (?&Hspec&_).
          rewrite Htools, Hchecks in Hspec. done. }
      exact (runs_after_checks P E false _ _ _ _ Hrest).
    + intros Htools. apply elem_of_app. left. by apply Hwarn.
  - rewrite (bind_raised _ _ _ _ _ _ Hchecks).
    unfold log_of; simpl. rewrite Hnone. split; [apply sublist_nil_l|].
    intros Htools. by apply Hwarn.
Qed.

Lemma no_npm_skips_linter_witness :
  let P := example_payloads in
  let E := with_tools true true false (example_env ∅ done_quietly done_quietly) in
  let run := main P E fresh_clone in
  npm_ok E = false
  ∧ omap run_of (log_of run) `sublist_of`
      [venv_command E; git_list_command; git_branch_command]
  ∧ (tools_ok E = true → Diag NpmMissing ∈ log_of run).
Proof.
  cbv zeta.
  assert (Hnpm : npm_ok (with_tools true true false
            (example_env ∅ done_quietly done_quietly)) = false) by done.
  split; [exact Hnpm|].
  exact (no_npm_skips_linter example_payloads _ fresh_clone Hnpm).
Defined.



(** X17. Step 3 creates the five project directories exactly when none of
    them is blocked by a file of that name or refused by the filesystem; a
    directory that exists already is no obstacle.  When it returns, the five
    directories have been added and nothing else has changed. *)
Theorem create_structure_succeeds_iff E (w : World) :
  let run := create_structure E w in
  (result_of run = Ok ()
   ↔ ∀ a, a ∈ project_dir_list → ¬ blocked E w a)
  ∧ (result_of run = Ok () →
     world_of run = with_dirs (project_dirs ∪.) w)
  ∧ (result_of run ≠ Ok () →
     ∃ q, q ∈ project_dir_list ∧ result_of run = Raised (OSError q)).
Proof.
  intros run. subst run.
  assert (Hnone : ¬ Exists (blocked E w) project_dir_list
          ↔ ∀ a, a ∈ project_dir_list → ¬ blocked E w a).
  { rewrite Exists_exists. split.
    - intros Hno a Ha Hb. apply Hno. by exists a.
    - intros Hno (a&Ha&Hb). by apply (Hno a). }
  pose proof (makes_create_structure E w) as Hm.
  destruct (decide (Exists _ _)) as [Hb|Hb].
  - destruct Hm as (q&w'&evs&Hrun).
    pose proof (raises_create_structure E (λ e, ∃ q, q ∈ project_dir_list
                  ∧ e = OSError q)) as Hq.
    destruct (Hq (λ q Hq, ex_intro _ q (conj Hq eq_refl)) _ _ _ _ Hrun)
      as (q'&Hin&[= ->]).
    rewrite Hrun. unfold result_of, world_of; simpl. split_and!.
    + split; [done|]. intros Hno. destruct (proj2 Hnone Hno Hb).
    + done.
    + intros _. by exists q'.
  - destruct Hm as (evs&Hrun). rewrite Hrun.
    unfold result_of, world_of; simpl. split_and!.
    + split; [|done]. intros _. by apply Hnone.
    + intros _. apply with_dirs_ext. unfold project_dirs. set_solver.
    + done.
Qed.

(** X18. When one of the project directories is blocked, the run ends in
    step 3 with an uncaught [OSError] for one of the five directories (exit
    status 1).  At that point no file has been written or copied and no
    command has run: the files are as they were. *)
Theorem blocked_directory_aborts P E (w : World) a :
  tools_ok E = true → layout_ok w = true →
  a ∈ project_dir_list → blocked E w a →
  let run := main P E w in
  (∃ q, q ∈ project_dir_list ∧ result_of run = Raised (OSError q))
  ∧ exit_code (result_of run) = 1%Z
  ∧ files (world_of run) = files w
  ∧ omap write_of (log_of run) = []
  ∧ omap run_of (log_of run) = [].
Proof.
  intros Htools Hlayout Ha Hblocked run. subst run.
  destruct (check_prerequisites_spec E w) as (evs1&H1&_).
  destruct (verify_layout_spec w) as (evs2&H2&_).
  rewrite Htools in H1. rewrite Hlayout in H2.
  pose proof (makes_create_structure E w) as Hm.
  rewrite decide_True in Hm by (apply Exists_exists; by exists a).
  destruct Hm as (q&w'&evs3&H3).
  assert (Hrun : main P E w = (Raised (OSError q), w', evs1 ++ evs2 ++ evs3)).
  { unfold main. eapply bind_run; [exact H1|].
    eapply bind_run; [exact H2|]. by apply bind_raised. }
  rewrite Hrun. unfold result_of, world_of, log_of; simpl.
  assert (Hsilent : Forall silent (evs1 ++ evs2 ++ evs3)).
  { repeat apply Forall_app_2.
    - exact (silent_check_prerequisites E _ _ _ _ H1).
    - exact (silent_verify_layout _ _ _ _ H2).
    - exact (silent_create_structure E _ _ _ _ H3). }
  split_and!.
  - pose proof (raises_create_structure E (λ e, ∃ q, q ∈ project_dir_list
                  ∧ e = OSError q)) as Hq.
    destruct (Hq (λ q Hq, ex_intro _ q (conj Hq eq_refl)) _ _ _ _ H3)
      as (q'&Hin&[= ->]).
    by exists q'.
  - done.
  - destruct (keeps_create_structure E [] project_dirs
                (reflexivity _) _ _ _ _ H3) as (Hf&_).
    apply map_eq. intros k. apply Hf, not_elem_of_nil.
  - apply omap_none. eapply Forall_impl; [exact Hsilent|]. by intros ev [??].
  - apply omap_none. eapply Forall_impl; [exact Hsilent|]. by intros ev [??].
Qed.

Lemma blocked_directory_aborts_witness :
  let P := example_payloads in
  let E := example_env ∅ done_quietly done_quietly in
  let run := main P E docs_is_a_file in
  tools_ok E = true ∧ layout_ok docs_is_a_file = true
  ∧ ["docs"] ∈ project_dir_list ∧ blocked E docs_is_a_file ["docs"]
  ∧ (∃ q, q ∈ project_dir_list ∧ result_of run = Raised (OSError q))
  ∧ exit_code (result_of run) = 1%Z
  ∧ files (world_of run) = files docs_is_a_file
  ∧ omap write_of (log_of run) = []
  ∧ omap run_of (log_of run) = [].
Proof.
  cbv zeta.
  assert (H1 : tools_ok (example_env ∅ done_quietly done_quietly) = true)
    by done.
  assert (H2 : layout_ok docs_is_a_file = true) by (by vm_compute).
  assert (H3 : ["docs"] ∈ project_dir_list) by (unfold project_dir_list; in_list).
  assert (H4 : blocked (example_env ∅ done_quietly done_quietly)
                 docs_is_a_file ["docs"]).
  { apply (bool_decide_unpack _). vm_compute. exact I. }
  split; [exact H1|]. split; [exact H2|]. split; [exact H3|].
  split; [exact H4|].
  exact (blocked_directory_aborts example_payloads _ _ _ H1 H2 H3 H4).
Defined.

End SkippedAndAbortedSteps.

Section CompletedRuns.
Import Setup SetupFacts Footprints StepFacts WorldFacts DirFacts CommandFacts FailureFacts GuardFacts FileFacts TraceFacts CompletedFacts.
#[local] Set Warnings "-clear-no-such-hyp".

(** X19. A run that reaches the end of the sequence has opened for writing,
    once each and in this order, the seven standard files and then the table
    of contents, with the template texts and the generated document: none of
    the eight writes is skipped because the file is already there. *)
Theorem completed_run_writes_everything P E (w : World) :
  let run := main P E w in
  result_of run = Ok () →
  omap write_of (log_of run)
  = standard_files P
      ++ [(guide_toc_path, toc_document (rules_dir E) (rules E))].
Proof.
  intros run Hok. subst run.
  destruct (main P E w) as [[r w'] evs] eqn:Hrun.
  unfold result_of, log_of in *; simpl in Hok |- *. subst r.
  by destruct (performs_writes_main P E _ _ _ _ I Hrun).
Qed.

Lemma completed_run_writes_everything_witness :
  let P := example_payloads in
  let E := example_env ∅ done_quietly done_quietly in
  let run := main P E fresh_clone in
  result_of run = Ok ()
  ∧ omap write_of (log_of run)
    = standard_files P
        ++ [(guide_toc_path, toc_document (rules_dir E) (rules E))].
Proof.
  cbv zeta.
  assert (Hok : result_of (main example_payloads
                   (example_env ∅ done_quietly done_quietly) fresh_clone)
                = Ok ()) by (by vm_compute).
  split; [exact Hok|].
  exact (completed_run_writes_everything _ _ _ Hok).
Defined.

(** X20. The commands of a run that reaches the end of the sequence are
    determined by what it found at the start: the virtual environment is
    created exactly when [.venv] was no directory, the linter is installed
    exactly when npm was found, the branch is always looked up, and it is
    created exactly when it did not exist; in this order, each once. *)
Theorem completed_run_commands P E (w : World) :
  let run := main P E w in
  result_of run = Ok () →
  omap run_of (log_of run)
  = (if bool_decide ([".venv"] ∈ dirs w) then [] else [venv_command E])
    ++ (if npm_ok E then [npm_install_command] else [])
    ++ git_list_command
       :: (if develop_branch w then [] else [git_branch_command]).
Proof.
  intros run Hok. subst run.
  destruct (main P E w) as [[r w'] evs] eqn:Hrun.
  unfold result_of, log_of in *; simpl in Hok |- *. subst r.
  unfold main in Hrun.
  apply bind_inv_ok in Hrun as (npm&w1&e1&e2&Hchecks&Hrest&->).
  pose proof (silent_check_prerequisites E _ _ _ _ Hchecks) as Hsilent.
  destruct (check_prerequisites_spec E w) as (?&Hspec&_).
  rewrite Hspec in Hchecks. destruct (tools_ok E); [|done].
  injection Hchecks as <- <- ->.
  rewrite omap_app, omap_none
    by (eapply Forall_impl; [exact Hsilent|]; by intros ev [??]).
  by destruct (performs_after_checks P E w (npm_ok E) _ _ _ _
                 (conj (reflexivity _) eq_refl) Hrest).
Qed.

Lemma completed_run_commands_witness :
  let P := example_payloads in
  let E := example_env ∅ done_quietly done_quietly in
  let run := main P E fresh_clone in
  result_of run = Ok ()
  ∧ omap run_of (log_of run)
    = (if bool_decide ([".venv"] ∈ dirs fresh_clone) then []
       else [venv_command E])
      ++ (if npm_ok E then [npm_install_command] else [])
      ++ git_list_command
         :: (if develop_branch fresh_clone then [] else [git_branch_command]).
Proof.
  cbv zeta.
  assert (Hok : result_of (main example_payloads
                   (example_env ∅ done_quietly done_quietly) fresh_clone)
                = Ok ()) by (by vm_compute).
  split; [exact Hok|].
  exact (completed_run_commands _ _ _ Hok).
Defined.


End CompletedRuns.
